(** * llm-proxy: the agent orchestration core, embedded and verified

    A shallow embedding of the JavaScript sources
      - [src/knowledge/KnowledgeBase.js]: the classes [KnowledgeBase] and
        [SupabaseKnowledgeBase],
      - [src/providers/*.js]: the adapters [OpenAIProvider],
        [AnthropicProvider], [GoogleProvider] and the [ProviderFactory],
      - the class [Agent],
    followed by the properties the specification states about them.

    Conventions of the embedding.
      - A JavaScript string is a [string]: a sequence of code units.  The
        literals of the development are ASCII; [toLowerCase] folds the
        ASCII letters and leaves every other code unit alone.
      - A JavaScript number that holds a count or an index is a [Z]; a
        number that holds a ratio (relevance, temperature) is a [Q].
      - [undefined] is [None].
      - [throw new Error(m)] is [Throw m]; an operation that may throw
        returns a [Result].
      - [Map] objects that are iterated are association lists in insertion
        order; [Map] objects that are only looked up are [gmap]s.
      - The sources build new arrays and objects and never write into the
        ones they are given, so values stand for objects.
      - What lies outside the repository (the file system, the Supabase
        service, the vendors) is part of the state or of the environment a
        call runs in. *)

From Stdlib Require Import ZArith QArith Qminmax Ascii String List Sorted Permutation Lia.
From stdpp Require Import base option list gmap strings.

Set Default Proof Using "Type".

(** ** JavaScript primitives used by the sources *)

Module JS.

(** The outcome of a call: a value, or a thrown [Error] with its message. *)
Inductive Result (A : Type) : Type :=
| Ok (a : A)
| Throw (message : string).
Arguments Ok {A} a.
Arguments Throw {A} message.


(** [String.prototype.toLowerCase], on ASCII. *)
Definition is_upper (c : ascii) : bool :=
  (65 <=? nat_of_ascii c)%nat && (nat_of_ascii c <=? 90)%nat.

Definition lower_char (c : ascii) : ascii :=
  if is_upper c then ascii_of_nat (nat_of_ascii c + 32) else c.

Fixpoint toLowerCase (s : string) : string :=
  match s with
  | EmptyString => EmptyString
  | String c s' => String (lower_char c) (toLowerCase s')
  end.

(** [s.includes(t)]: [t] occurs in [s] as a contiguous substring. *)
Fixpoint includes (s t : string) : bool :=
  if String.prefix t s then true
  else match s with
       | EmptyString => false
       | String _ s' => includes s' t
       end.

(** [s.split(sep)] for a one-character separator.  The result is never
    empty: [''.split(' ')] is [['']]. *)
Fixpoint split (sep : ascii) (s : string) : list string :=
  match s with
  | EmptyString => [EmptyString]
  | String c s' =>
      if Ascii.eqb c sep then EmptyString :: split sep s'
      else match split sep s' with
           | [] => [String c EmptyString]
           | w :: ws => String c w :: ws
           end
  end.

(** [arr.join(sep)]. *)
Fixpoint join (sep : string) (l : list string) : string :=
  match l with
  | [] => EmptyString
  | [s] => s
  | s :: l' => s +:+ sep +:+ join sep l'
  end.

(** [s.substring(0, n)]. *)
Definition substring0 (n : nat) (s : string) : string := String.substring 0 n s.

(** [arr.slice(start, end)], negative indices counting from the end. *)
Definition slice {A} (start end_ : Z) (l : list A) : list A :=
  let len := Z.of_nat (length l) in
  let rel z := (if z <? 0 then Z.max (len + z) 0 else Z.min z len)%Z in
  let k := rel start in
  let final := rel end_ in
  take (Z.to_nat (final - k)) (drop (Z.to_nat k) l).

(** [arr.slice(start)]: up to the end of the array. *)
Definition slice_from {A} (start : Z) (l : list A) : list A :=
  slice start (Z.of_nat (length l)) l.

(** [arr.sort(cmp)].  The language requires the sort to be stable; the
    model is the stable insertion sort: [x] goes in front of the first
    element [y] with [cmp(x, y) <= 0]. *)
Fixpoint sort_insert {A} (cmp : A -> A -> Z) (x : A) (l : list A) : list A :=
  match l with
  | [] => [x]
  | y :: l' => if (cmp x y <=? 0)%Z then x :: l else y :: sort_insert cmp x l'
  end.

Definition sort {A} (cmp : A -> A -> Z) (l : list A) : list A :=
  foldr (sort_insert cmp) [] l.

(** Truthiness of an optional string, number or ratio, and [a || b]. *)
Definition truthy_string (o : option string) : bool :=
  match o with
  | Some s => negb (String.eqb s "")
  | None => false
  end.

Definition truthy_Z (o : option Z) : bool :=
  match o with
  | Some z => negb (z =? 0)%Z
  | None => false
  end.

Definition truthy_Q (o : option Q) : bool :=
  match o with
  | Some q => negb (Qeq_bool q 0)
  | None => false
  end.

Definition or_string (o : option string) (d : string) : string :=
  match o with
  | Some s => if truthy_string o then s else d
  | None => d
  end.

Definition or_Z (o : option Z) (d : Z) : Z :=
  match o with
  | Some z => if truthy_Z o then z else d
  | None => d
  end.

Definition or_Q (o : option Q) (d : Q) : Q :=
  match o with
  | Some q => if truthy_Q o then q else d
  | None => d
  end.

(** The line feed of a string literal. *)
Definition nl : string := String (ascii_of_nat 10) EmptyString.

(** A template literal prints [undefined] for a missing value. *)
Definition template (o : option string) : string :=
  match o with
  | Some s => s
  | None => "undefined"
  end.

End JS.

Import JS.

(** ** [src/knowledge/KnowledgeBase.js], class [KnowledgeBase] *)

Module KnowledgeBase.

(** A stored document.  [doc_type] is the file extension for text
    documents and ['image'] for images; [doc_text] and [doc_content] are
    absent for images and for documents found on disk at start-up. *)
Record Document : Type := {
  doc_id : string;
  doc_filename : string;
  doc_path : string;
  doc_type : string;
  doc_size : Z;
  doc_text : option string;
  doc_content : option string
}.

(** A search result: [{...doc, score, relevance}]. *)
Record Fragment : Type := {
  frag_doc : Document;
  score : Z;
  relevance : Q
}.

(** [this.documents]: a [Map] from id to document, in insertion order. *)
Definition Documents : Type := list (string * Document).

Fixpoint get (id : string) (documents : Documents) : option Document :=
  match documents with
  | [] => None
  | (k, d) :: rest => if String.eqb k id then Some d else get id rest
  end.

Definition delete (id : string) (documents : Documents) : Documents :=
  List.filter (fun kd => negb (String.eqb (fst kd) id)) documents.

Definition values (documents : Documents) : list Document := map snd documents.

Record SearchOptions : Type := { limit : option Z }.

(** [(doc.text || doc.content || '').toLowerCase()]. *)
Definition searchableText (doc : Document) : string :=
  toLowerCase
    (if truthy_string (doc_text doc) then or_string (doc_text doc) ""
     else or_string (doc_content doc) "").

(** The inner loop: one point per search term found in the text. *)
Definition termScore (searchableText : string) (searchTerms : list string) : Z :=
  fold_left
    (fun score term => if includes searchableText term then (score + 1)%Z else score)
    searchTerms 0%Z.

(** The outer loop: push the documents that score above zero. *)
Definition scoreDocuments (searchTerms : list string) (documents : Documents)
  : list Fragment :=
  fold_left
    (fun results kd =>
       let doc := snd kd in
       let score := termScore (searchableText doc) searchTerms in
       if (0 <? score)%Z
       then results ++
            [ {| frag_doc := doc;
                 score := score;
                 relevance :=
                   Qmin (inject_Z score / inject_Z (Z.of_nat (length searchTerms))) 1 |} ]
       else results)
    documents [].

Definition byScoreDescending (a b : Fragment) : Z := (score b - score a)%Z.

Definition searchDocuments (documents : Documents) (query : string)
           (options : SearchOptions) : list Fragment :=
  let searchTerms := split " " (toLowerCase query) in
  let results := scoreDocuments searchTerms documents in
  let results := sort byScoreDescending results in
  if truthy_Z (limit options)
  then slice 0 (default 0%Z (limit options)) results
  else results.

(** The index together with the part of the disk it refers to: the set of
    paths that exist. *)
Record State : Type := {
  documents : Documents;
  files : gset string
}.

(** [fs.unlink(path)]: removes the file, or fails when there is none. *)
Definition unlink (path : string) (files : gset string) : Result (gset string) :=
  if decide (path ∈ files) then Ok (files ∖ {[path]})
  else Throw ("ENOENT: no such file or directory, unlink '" +:+ path +:+ "'").

Definition deleteDocument (id : string) (st : State) : Result bool * State :=
  match get id (documents st) with
  | None => (Throw "Document not found", st)
  | Some doc =>
      match unlink (doc_path doc) (files st) with
      | Ok files' =>
          (Ok true, {| documents := delete id (documents st); files := files' |})
      | Throw message =>
          (Throw ("Failed to delete document: " +:+ message), st)
      end
  end.

End KnowledgeBase.

(** ** [src/knowledge/SupabaseKnowledgeBase.js], [deleteDocument] *)

Module SupabaseKnowledgeBase.

(** What the class needs from the Supabase client for a delete:
    [client.from(tableName).delete().eq('id', id)] acts on the remote table
    and answers [{ error }]. *)
Class Client (Remote : Type) : Type := {
  delete_eq : string -> Remote -> option string * Remote
}.

Definition deleteDocument `{Client Remote} (id : string) (db : Remote)
  : Result bool * Remote :=
  let '(error, db') := delete_eq id db in
  match error with
  | Some message => (Throw ("Failed to delete document: " +:+ message), db')
  | None => (Ok true, db')
  end.

(** The hosted service: a table of rows keyed by id.  A delete removes the
    rows that match the filter and reports no error when none matches; the
    only error is a request that does not reach the service. *)
Record Table : Type := {
  rows : gset string;
  reachable : bool
}.

#[global] Instance postgrest : Client Table := {
  delete_eq id db :=
    if reachable db
    then (None, {| rows := rows db ∖ {[id]}; reachable := true |})
    else (Some "fetch failed", db)
}.

End SupabaseKnowledgeBase.

(** ** Messages: the neutral representation shared by agent and adapters *)

Module Message.

(** One item of a multimodal content array. *)
Inductive Part : Type :=
| text_part (text : string)
| image_url_part (url : string) (detail : option string)
| other_part (type : string).

(** [content] is a string or an array of parts. *)
Inductive Content : Type :=
| Text (s : string)
| Parts (items : list Part).

Inductive Role : Type := system | user | assistant.

Record Message : Type := { role : Role; content : Content }.

Definition role_eqb (a b : Role) : bool :=
  match a, b with
  | system, system | user, user | assistant, assistant => true
  | _, _ => false
  end.

(** How a content prints inside a template literal: an array prints its
    items separated by commas, an object prints as [[object Object]]. *)
Definition render (c : Content) : string :=
  match c with
  | Text s => s
  | Parts items => join "," (map (fun _ => "[object Object]") items)
  end.

(** [content || '']: the empty string is falsy, an array never is. *)
Definition or_empty (c : option Content) : Content :=
  match c with
  | Some (Text s) => Text (or_string (Some s) "")
  | Some (Parts items) => Parts items
  | None => Text ""
  end.

End Message.

Import Message.

(** ** [src/providers/ProviderFactory.js] *)

Module ProviderFactory.

(** The adapter classes: [Google] stands for [new GoogleProvider(config)],
    and so on.  A constructor stores the configuration and builds the
    client object of the vendor's library; it sends nothing. *)
Inductive Provider : Type := OpenAI | Google | Anthropic | Mistral | Fireworks.

Definition createProvider (providerName : string) : Result Provider :=
  let name := toLowerCase providerName in
  if String.eqb name "openai" then Ok OpenAI
  else if String.eqb name "google" || String.eqb name "gemini" then Ok Google
  else if String.eqb name "anthropic" || String.eqb name "claude" then Ok Anthropic
  else if String.eqb name "mistral" then Ok Mistral
  else if String.eqb name "fireworks" then Ok Fireworks
  else Throw ("Unsupported provider: " +:+ providerName).


End ProviderFactory.

(** ** [src/providers/OpenAIProvider.js], [formatMessages] *)

Module OpenAIProvider.

Inductive Item : Type :=
| text_item (text : string)
| image_url_item (url : string) (detail : string)
| passthrough (item : Part).

Inductive Body : Type :=
| plain (c : Content)
| items (l : list Item).

Record Formatted : Type := { role : Role; content : Body }.

Definition formatItem (item : Part) : Item :=
  match item with
  | text_part text => text_item text
  | image_url_part url detail => image_url_item url (or_string detail "auto")
  | other_part _ => passthrough item
  end.

Definition formatMessage (msg : Message) : Formatted :=
  match Message.role msg, Message.content msg with
  | user, Parts l => {| role := user; content := items (map formatItem l) |}
  | r, c => {| role := r; content := plain c |}
  end.

Definition formatMessages (messages : list Message) : list Formatted :=
  map formatMessage messages.

End OpenAIProvider.

(** ** [src/providers/AnthropicProvider.js], [formatMessages] *)

Module AnthropicProvider.

Record Source : Type := {
  source_type : string;
  media_type : string;
  data : option string
}.

Inductive Block : Type :=
| text_block (text : string)
| image_block (source : Source)
| passthrough (item : Part).

Inductive Body : Type :=
| plain (c : Content)
| blocks (l : list Block).

Record Formatted : Type := { role : Role; content : Body }.

Record Request : Type := { system : Content; messages : list Formatted }.

Definition formatItem (item : Part) : Block :=
  match item with
  | text_part text => text_block text
  | image_url_part url _ =>
      image_block {| source_type := "base64";
                     media_type := "image/jpeg";
                     data := split "," url !! 1%nat |}
  | other_part _ => passthrough item
  end.

Definition formatMessage (msg : Message) : Formatted :=
  match Message.role msg, Message.content msg with
  | user, Parts l => {| role := user; content := blocks (map formatItem l) |}
  | r, c => {| role := r; content := plain c |}
  end.

Definition formatMessages (messages : list Message) : Request :=
  let systemMessage :=
    List.find (fun msg => role_eqb (Message.role msg) Message.system) messages in
  let conversationMessages :=
    List.filter (fun msg => negb (role_eqb (Message.role msg) Message.system)) messages in
  {| system := or_empty (Message.content <$> systemMessage);
     messages := map formatMessage conversationMessages |}.

End AnthropicProvider.

(** ** [src/providers/GoogleProvider.js], [formatMessages] *)

Module GoogleProvider.

Record InlineData : Type := {
  mime_type : string;
  data : option string
}.

(** A part object: [{ text }] or [{ inline_data }]; the system fold may
    set [text] on a part that holds [inline_data]. *)
Record GPart : Type := {
  text : option Content;
  inline_data : option InlineData
}.

Inductive GRole : Type := user | model.

Record Formatted : Type := { role : GRole; parts : list GPart }.

Definition textPart (c : Content) : GPart :=
  {| text := Some c; inline_data := None |}.

(** What one content item pushes on [parts]. *)
Definition formatItem (item : Part) : list GPart :=
  match item with
  | text_part t => [textPart (Text t)]
  | image_url_part url _ =>
      [ {| text := None;
           inline_data := Some {| mime_type := "image/jpeg";
                                  data := split "," url !! 1%nat |} |} ]
  | other_part _ => []
  end.

(** The system branch: a new leading user turn, or a prefix on the first
    part of the leading user turn. *)
Definition foldSystem (content : Content) (formattedMessages : list Formatted)
  : Result (list Formatted) :=
  match formattedMessages with
  | {| role := user; parts := p :: ps |} :: rest =>
      Ok ({| role := user;
             parts := {| text := Some (Text ("System: " +:+ render content +:+ nl +:+ nl
                                              +:+ template (render <$> text p)));
                         inline_data := inline_data p |} :: ps |} :: rest)
  | {| role := user; parts := [] |} :: _ =>
      Throw "Cannot read properties of undefined (reading 'text')"
  | _ =>
      Ok ({| role := user; parts := [textPart (Text ("System: " +:+ render content))] |}
            :: formattedMessages)
  end.

Definition step (formattedMessages : list Formatted) (msg : Message)
  : Result (list Formatted) :=
  match Message.role msg with
  | Message.system => foldSystem (Message.content msg) formattedMessages
  | Message.user =>
      let parts :=
        match Message.content msg with
        | Parts l => concat (map formatItem l)
        | c => [textPart c]
        end in
      Ok (formattedMessages ++ [ {| role := user; parts := parts |} ])
  | Message.assistant =>
      Ok (formattedMessages ++
            [ {| role := model; parts := [textPart (Message.content msg)] |} ])
  end.

Definition formatMessages (messages : list Message) : Result (list Formatted) :=
  fold_left
    (fun acc msg => match acc with Ok fm => step fm msg | Throw e => Throw e end)
    messages (Ok []).

End GoogleProvider.

(** ** [src/agent/Agent.js], class [Agent] *)

Module Agent.

Import KnowledgeBase ProviderFactory.

(** [config.llm]. *)
Record LLMConfig : Type := {
  defaultProvider : string;
  defaultModel : string;
  maxTokens : Z;
  temperature : Q
}.

(** The [options] argument of both operations. *)
Record Options : Type := {
  opt_provider : option string;
  opt_model : option string;
  opt_maxTokens : option Z;
  opt_temperature : option Q;
  opt_sessionId : option string
}.

(** The options handed to the adapter. *)
Record CallOptions : Type := {
  call_model : string;
  call_maxTokens : Z;
  call_temperature : Q
}.

Record Usage : Type := {
  prompt_tokens : Z;
  completion_tokens : Z;
  total_tokens : Z
}.

(** What an adapter's [generateResponse] returns. *)
Record Response : Type := {
  response_content : string;
  response_usage : option Usage;
  response_model : string;
  response_provider : string
}.

(** A provider stream: the chunks still to be read. *)
Definition Stream : Type := list string.

Record Summary : Type := {
  sum_id : string;
  sum_filename : string;
  sum_type : string;
  sum_relevance : Q
}.

(** [{ ...response, relevantDocuments }] and [{ stream, relevantDocuments }]. *)
Record Reply : Type := {
  reply_response : Response;
  reply_documents : list Summary
}.

Record StreamReply : Type := {
  reply_stream : Stream;
  stream_documents : list Summary
}.

(** The collaborators of an agent: its configuration, its knowledge base
    (either class, seen through [searchDocuments]) and the vendors behind
    the adapters. *)
Record Env : Type := {
  llm : LLMConfig;
  knowledgeBase : string -> SearchOptions -> Result (list Fragment);
  vendorResponse : Provider -> list Message -> CallOptions -> Result Response;
  vendorStream : Provider -> list Message -> CallOptions -> Result Stream
}.

(** The mutable fields of the object. *)
Record Fields : Type := {
  systemPrompt : string;
  conversationHistory : list Message;
  sessionHistories : gmap string (list Message)
}.

(** One invocation of an adapter, as the vendor sees it. *)
Record Invocation : Type := {
  inv_provider : Provider;
  inv_streaming : bool;
  inv_messages : list Message;
  inv_options : CallOptions
}.

(** The state a call runs in: the object and the log of adapter calls. *)
Record World : Type := {
  this : Fields;
  invocations : list Invocation
}.

(** Computations that read and write the world and may throw. *)
Definition M (A : Type) : Type := World -> Result A * World.

Definition ret {A} (a : A) : M A := fun w => (Ok a, w).

Definition bind {A B} (m : M A) (k : A -> M B) : M B :=
  fun w =>
    match m w with
    | (Ok a, w') => k a w'
    | (Throw e, w') => (Throw e, w')
    end.

Definition throw {A} (message : string) : M A := fun w => (Throw message, w).

Definition lift {A} (r : Result A) : M A := fun w => (r, w).

(** [try { body } catch (error) { handler(error.message) }]: the handler
    runs in the world the body left behind. *)
Definition try_catch {A} (body : M A) (handler : string -> M A) : M A :=
  fun w =>
    match body w with
    | (Ok a, w') => (Ok a, w')
    | (Throw e, w') => handler e w'
    end.

Definition self : M Fields := fun w => (Ok (this w), w).

Definition setConversationHistory (h : list Message) : M unit :=
  fun w =>
    (Ok tt,
     {| this := {| systemPrompt := systemPrompt (this w);
                   conversationHistory := h;
                   sessionHistories := sessionHistories (this w) |};
        invocations := invocations w |}).

Definition setSessionHistory (sessionId : string) (h : list Message) : M unit :=
  fun w =>
    (Ok tt,
     {| this := {| systemPrompt := systemPrompt (this w);
                   conversationHistory := conversationHistory (this w);
                   sessionHistories := <[sessionId := h]> (sessionHistories (this w)) |};
        invocations := invocations w |}).

(** [provider.generateResponse(messages, options)] and its streaming twin. *)
Definition invoke (env : Env) (provider : Provider) (messages : list Message)
           (options : CallOptions) : M Response :=
  fun w =>
    (vendorResponse env provider messages options,
     {| this := this w;
        invocations := invocations w ++
          [ {| inv_provider := provider; inv_streaming := false;
               inv_messages := messages; inv_options := options |} ] |}).

Definition invokeStream (env : Env) (provider : Provider) (messages : list Message)
           (options : CallOptions) : M Stream :=
  fun w =>
    (vendorStream env provider messages options,
     {| this := this w;
        invocations := invocations w ++
          [ {| inv_provider := provider; inv_streaming := true;
               inv_messages := messages; inv_options := options |} ] |}).

Notation "'let*' x ':=' c1 'in' c2" := (bind c1 (fun x => c2))
  (at level 10, x name, c1 at level 100, c2 at level 200).

(** [this.knowledgeBase.searchDocuments(query, options)]. *)
Definition searchKnowledge (env : Env) (query : string) (options : SearchOptions)
  : M (list Fragment) :=
  lift (knowledgeBase env query options).

Definition isText (item : Part) : bool :=
  match item with text_part _ => true | _ => false end.

Definition itemText (item : Part) : string :=
  match item with text_part t => t | _ => "" end.

(** The text the knowledge search runs on. *)
Definition searchQueryOf (userMessage : Content) : string :=
  match userMessage with
  | Parts items => join " " (map itemText (List.filter isText items))
  | Text s => s
  end.

(** One iteration of the [forEach] that builds the context. *)
Definition contextEntry (doc : Fragment) : string :=
  if String.eqb (doc_type (frag_doc doc)) "image"
  then "[Image: " +:+ doc_filename (frag_doc doc) +:+ "]" +:+ nl
  else "[" +:+ doc_filename (frag_doc doc) +:+ "]: "
       +:+ template (substring0 500 <$> doc_text (frag_doc doc)) +:+ "..." +:+ nl.

Definition buildContext (relevantDocs : list Fragment) : string :=
  if (0 <? length relevantDocs)%nat
  then fold_left (fun context doc => context +:+ contextEntry doc) relevantDocs
                 (nl +:+ nl +:+ "Relevant knowledge:" +:+ nl)
  else "".

Definition historyForSession (fields : Fields) (sessionId : option string)
  : list Message :=
  if truthy_string sessionId
  then default [] (sessionHistories fields !! or_string sessionId "")
  else conversationHistory fields.

Definition prepareMessages (fields : Fields) (context : string)
           (history : list Message) (userMessage : Content) : list Message :=
  {| role := system; content := Text (systemPrompt fields +:+ context) |}
    :: history ++ [ {| role := user; content := userMessage |} ].

Definition callOptions (env : Env) (options : Options) : CallOptions :=
  {| call_model := or_string (opt_model options) (defaultModel (llm env));
     call_maxTokens := or_Z (opt_maxTokens options) (maxTokens (llm env));
     call_temperature := or_Q (opt_temperature options) (temperature (llm env)) |}.

Definition summarize (doc : Fragment) : Summary :=
  {| sum_id := doc_id (frag_doc doc);
     sum_filename := doc_filename (frag_doc doc);
     sum_type := doc_type (frag_doc doc);
     sum_relevance := relevance doc |}.

Definition generateResponse (env : Env) (userMessage : Content) (options : Options)
  : M Reply :=
  try_catch
    (let searchQuery := searchQueryOf userMessage in
     let* relevantDocs := searchKnowledge env searchQuery {| limit := Some 5%Z |} in
     let context := buildContext relevantDocs in
     let* fields := self in
     let sessionId := opt_sessionId options in
     let history := historyForSession fields sessionId in
     let messages := prepareMessages fields context history userMessage in
     let providerName := or_string (opt_provider options) (defaultProvider (llm env)) in
     let* provider := lift (createProvider providerName) in
     let* response := invoke env provider messages (callOptions env options) in
     let updatedHistory :=
       history ++ [ {| role := user; content := userMessage |};
                    {| role := assistant; content := Text (response_content response) |} ] in
     let trimmed :=
       if (20 <? length updatedHistory)%nat
       then slice_from (-20) updatedHistory
       else updatedHistory in
     let* _ := (if truthy_string sessionId
                then setSessionHistory (or_string sessionId "") trimmed
                else setConversationHistory trimmed) in
     ret {| reply_response := response;
            reply_documents := map summarize relevantDocs |})
    (fun message => throw ("Agent error: " +:+ message)).

Definition generateStreamResponse (env : Env) (userMessage : Content)
           (options : Options) : M StreamReply :=
  try_catch
    (let searchQuery := searchQueryOf userMessage in
     let* relevantDocs := searchKnowledge env searchQuery {| limit := Some 5%Z |} in
     let context := buildContext relevantDocs in
     let* fields := self in
     let sessionId := opt_sessionId options in
     let history := historyForSession fields sessionId in
     let messages := prepareMessages fields context history userMessage in
     let providerName := or_string (opt_provider options) (defaultProvider (llm env)) in
     let* provider := lift (createProvider providerName) in
     let* stream := invokeStream env provider messages (callOptions env options) in
     ret {| reply_stream := stream;
            stream_documents := map summarize relevantDocs |})
    (fun message => throw ("Agent streaming error: " +:+ message)).

Definition getHistory : M (list Message) :=
  fun w => (Ok (conversationHistory (this w)), w).

Definition getHistoryForSession (sessionId : option string) : M (list Message) :=
  if truthy_string sessionId
  then fun w => (Ok (default [] (sessionHistories (this w) !! or_string sessionId "")), w)
  else getHistory.

End Agent.

(** ** Vocabulary of the properties *)

(** A list is in descending order of a numeric key. *)
Definition descending {A} (key : A → Z) : list A → Prop :=
  StronglySorted (λ a b, (key b ≤ key a)%Z).

(** The fragment the search pushes for one document, if it pushes one. *)
Definition fragmentOf (searchTerms : list string) (doc : KnowledgeBase.Document)
  : option KnowledgeBase.Fragment :=
  let s := KnowledgeBase.termScore (KnowledgeBase.searchableText doc) searchTerms in
  if (0 <? s)%Z
  then Some {| KnowledgeBase.frag_doc := doc;
               KnowledgeBase.score := s;
               KnowledgeBase.relevance :=
                 Qmin (inject_Z s / inject_Z (Z.of_nat (length searchTerms))) 1 |}
  else None.

(** A fragment carries the score of its document and the relevance
    [min(score / termCount, 1)]. *)
Definition wellScored (searchTerms : list string) (f : KnowledgeBase.Fragment) : Prop :=
  (0 < KnowledgeBase.score f ≤ Z.of_nat (length searchTerms))%Z
  ∧ KnowledgeBase.score f
    = KnowledgeBase.termScore (KnowledgeBase.searchableText (KnowledgeBase.frag_doc f))
                              searchTerms
  ∧ KnowledgeBase.relevance f
    = Qmin (inject_Z (KnowledgeBase.score f) / inject_Z (Z.of_nat (length searchTerms))) 1.

(** A character occurs in a string. *)
Fixpoint hasChar (c : ascii) (s : string) : bool :=
  match s with
  | EmptyString => false
  | String x s' => Ascii.eqb x c || hasChar c s'
  end.

(** The data-URL of an image: [data:<mime>;base64,<payload>]. *)
Definition dataURL (mime payload : string) : string :=
  "data:" +:+ mime +:+ ";base64," +:+ payload.


Module AgentView.

Import KnowledgeBase ProviderFactory Agent.

(** The user and assistant turns that a completed call appends. *)
Definition turn (userMessage : Content) (response : Response) : list Message :=
  [ {| role := user; content := userMessage |};
    {| role := assistant; content := Text (response_content response) |} ].

Definition trim (updatedHistory : list Message) : list Message :=
  if (20 <? length updatedHistory)%nat
  then slice_from (-20) updatedHistory
  else updatedHistory.

Definition storeHistory (sessionId : option string) (h : list Message) (fields : Fields)
  : Fields :=
  if truthy_string sessionId
  then {| systemPrompt := systemPrompt fields;
          conversationHistory := conversationHistory fields;
          sessionHistories := <[or_string sessionId "" := h]> (sessionHistories fields) |}
  else {| systemPrompt := systemPrompt fields;
          conversationHistory := h;
          sessionHistories := sessionHistories fields |}.

Definition invocation (env : Env) (streaming : bool) (provider : Provider) (docs : list Fragment)
           (userMessage : Content) (options : Options) (w : World) : Invocation :=
  {| inv_provider := provider;
     inv_streaming := streaming;
     inv_messages :=
       prepareMessages (this w) (buildContext docs)
         (historyForSession (this w) (opt_sessionId options)) userMessage;
     inv_options := callOptions env options |}.

Definition logged (i : Invocation) (w : World) : World :=
  {| this := this w; invocations := invocations w ++ [i] |}.

End AgentView.

(** ** Concrete inputs *)

Module Scenario.

Import KnowledgeBase.

(** The index of the pricing scenario: one text document. *)
Definition pricing : Document :=
  {| doc_id := "7f3c";
     doc_filename := "pricing.md";
     doc_path := "knowledge_base/7f3c.md";
     doc_type := "md";
     doc_size := 32;
     doc_text := Some "Our premium plan costs $20/month";
     doc_content := Some "Our premium plan costs $20/month" |}.

Definition faq : Document :=
  {| doc_id := "a901";
     doc_filename := "faq.txt";
     doc_path := "knowledge_base/a901.txt";
     doc_type := "txt";
     doc_size := 45;
     doc_text := Some "The basic plan is free. Contact us for support.";
     doc_content := Some "The basic plan is free. Contact us for support." |}.

Definition index : Documents := [("7f3c", pricing); ("a901", faq)].

(** The index with its two files on disk. *)
Definition onDisk : State :=
  {| documents := index;
     files := {[ "knowledge_base/7f3c.md"; "knowledge_base/a901.txt" ]} |}.

End Scenario.

Module Session.

Import KnowledgeBase ProviderFactory Agent.

Definition pricingOnly : Documents := [("7f3c", Scenario.pricing)].

Definition config : LLMConfig :=
  {| defaultProvider := "openai";
     defaultModel := "gpt-4";
     maxTokens := 4000;
     temperature := 7 # 10 |}.

Definition answer : Response :=
  {| response_content := "W";
     response_usage := None;
     response_model := "gpt-4";
     response_provider := "openai" |}.

(** An agent over the pricing index whose vendors always answer. *)
Definition env : Env :=
  {| llm := config;
     knowledgeBase := λ query options, Ok (searchDocuments pricingOnly query options);
     vendorResponse := λ _ _ _, Ok answer;
     vendorStream := λ _ _ _, Ok ["W"] |}.

(** The same agent when the knowledge base and the vendors fail. *)
Definition searchDown : Env :=
  {| llm := config;
     knowledgeBase := λ _ _, Throw "index unavailable";
     vendorResponse := λ _ _ _, Ok answer;
     vendorStream := λ _ _ _, Ok ["W"] |}.

Definition vendorDown : Env :=
  {| llm := config;
     knowledgeBase := λ query options, Ok (searchDocuments pricingOnly query options);
     vendorResponse := λ _ _ _, Throw "OpenAI API error: 401 Incorrect API key provided";
     vendorStream := λ _ _ _, Throw "OpenAI streaming error: 401 Incorrect API key provided" |}.

Definition noOptions : Options :=
  {| opt_provider := None; opt_model := None; opt_maxTokens := None;
     opt_temperature := None; opt_sessionId := None |}.

Definition inSession (sessionId : string) : Options :=
  {| opt_provider := None; opt_model := None; opt_maxTokens := None;
     opt_temperature := None; opt_sessionId := Some sessionId |}.

Definition withProvider (name : string) : Options :=
  {| opt_provider := Some name; opt_model := None; opt_maxTokens := None;
     opt_temperature := None; opt_sessionId := None |}.

Definition zeroed : Options :=
  {| opt_provider := None; opt_model := Some "gpt-4o"; opt_maxTokens := Some 0%Z;
     opt_temperature := Some 0%Q; opt_sessionId := None |}.

Definition fresh : World :=
  {| this := {| systemPrompt := "You are helpful.";
                conversationHistory := [];
                sessionHistories := ∅ |};
     invocations := [] |}.

(** Message number [n] of a long conversation: the letters A, B, C, ... *)
Definition message (n : nat) : Message :=
  {| role := if Nat.odd n then user else assistant;
     content := Text (String (ascii_of_nat (64 + n)) EmptyString) |}.

(** A session ["s1"] that holds the messages 1 to [n]. *)
Definition holding (n : nat) : World :=
  {| this := {| systemPrompt := "You are helpful.";
                conversationHistory := [];
                sessionHistories := {[ "s1" := message <$> seq 1 n ]} |};
     invocations := [] |}.

End Session.

(** ** The class [Agent]: the methods that set and clear its state *)

Module AgentState.

Import Agent.

(** [new Agent(config, systemPrompt)]: no history, no session. *)
Definition create (systemPrompt : string) : World :=
  {| this := {| systemPrompt := systemPrompt;
                conversationHistory := [];
                sessionHistories := ∅ |};
     invocations := [] |}.

Definition setSystemPrompt (prompt : string) : M unit :=
  fun w =>
    (Ok tt,
     {| this := {| systemPrompt := prompt;
                   conversationHistory := conversationHistory (this w);
                   sessionHistories := sessionHistories (this w) |};
        invocations := invocations w |}).

Definition clearHistory : M unit :=
  fun w =>
    (Ok tt,
     {| this := {| systemPrompt := systemPrompt (this w);
                   conversationHistory := [];
                   sessionHistories := sessionHistories (this w) |};
        invocations := invocations w |}).

(** [if (!sessionId) return this.clearHistory();
     this.sessionHistories.delete(sessionId)]. *)
Definition clearHistoryForSession (sessionId : option string) : M unit :=
  if truthy_string sessionId
  then fun w =>
         (Ok tt,
          {| this := {| systemPrompt := systemPrompt (this w);
                        conversationHistory := conversationHistory (this w);
                        sessionHistories :=
                          delete (or_string sessionId "") (sessionHistories (this w)) |};
             invocations := invocations w |})
  else clearHistory.

(** The calls a user of the object can make. *)
Inductive Call : Type :=
| respond (userMessage : Content) (options : Options)
| respondStreaming (userMessage : Content) (options : Options)
| setPrompt (prompt : string)
| clear
| clearSession (sessionId : option string).

(** The world a call leaves behind, whether it returns or throws. *)
Definition after (env : Env) (c : Call) (w : World) : World :=
  match c with
  | respond userMessage options => snd (generateResponse env userMessage options w)
  | respondStreaming userMessage options =>
      snd (generateStreamResponse env userMessage options w)
  | setPrompt prompt => snd (setSystemPrompt prompt w)
  | clear => snd (clearHistory w)
  | clearSession sessionId => snd (clearHistoryForSession sessionId w)
  end.

(** The worlds an agent can be in: those a sequence of calls leads to from
    a new object. *)
Inductive Reachable (env : Env) : World → Prop :=
| reach_create (systemPrompt : string) : Reachable env (create systemPrompt)
| reach_call (c : Call) (w : World) :
    Reachable env w → Reachable env (after env c w).

(** A history is a sequence of exchanges: a user turn, then the assistant
    turn that answers it. *)
Inductive Exchanges : list Message → Prop :=
| exchanges_nil : Exchanges []
| exchanges_cons (userMessage : Content) (answer : string) (rest : list Message) :
    Exchanges rest →
    Exchanges ({| role := user; content := userMessage |}
                 :: {| role := assistant; content := Text answer |} :: rest).

(** Every history of the object is a sequence of at most 10 exchanges. *)
Definition Bounded (h : list Message) : Prop :=
  Exchanges h ∧ (length h ≤ 20)%nat.

Definition WellFormed (fields : Fields) : Prop :=
  Bounded (conversationHistory fields)
  ∧ ∀ sessionId h, sessionHistories fields !! sessionId = Some h → Bounded h.

(** An invocation with the streaming flag set. *)
Definition asStreaming (i : Invocation) : Invocation :=
  {| inv_provider := inv_provider i;
     inv_streaming := true;
     inv_messages := inv_messages i;
     inv_options := inv_options i |}.

End AgentState.

(** ** The class [KnowledgeBase]: adding, updating and counting documents *)

From Stdlib Require DecimalString.

Module KnowledgeBaseStore.

Import KnowledgeBase.

(** A number inside a template literal. *)
Definition showNumber (n : Z) : string :=
  DecimalString.NilZero.string_of_int (Z.to_int n).

(** [s.slice(1)] on a string. *)
Definition dropFirst (s : string) : string :=
  match s with
  | EmptyString => EmptyString
  | String _ s' => s'
  end.

(** [Map.prototype.set]: the value of a present key is replaced where it
    stands, a new key goes to the end. *)
Fixpoint set (id : string) (doc : Document) (documents : Documents) : Documents :=
  match documents with
  | [] => [(id, doc)]
  | (k, d) :: rest =>
      if String.eqb k id then (k, doc) :: rest else (k, d) :: set id doc rest
  end.

Definition getDocument (id : string) (st : State) : option Document :=
  get id (documents st).

Definition getAllDocuments (st : State) : list Document :=
  values (documents st).

(** An object spread over a document: for each field of the document, the
    value the object has under that key, if it has the key. *)
Record Spread : Type := {
  sp_id : option string;
  sp_filename : option string;
  sp_path : option string;
  sp_type : option string;
  sp_size : option Z;
  sp_text : option (option string);
  sp_content : option (option string)
}.

Definition nothing : Spread :=
  {| sp_id := None; sp_filename := None; sp_path := None; sp_type := None;
     sp_size := None; sp_text := None; sp_content := None |}.

(** [{ ...doc, ...object }]. *)
Definition spread (doc : Document) (object : Spread) : Document :=
  {| doc_id := default (doc_id doc) (sp_id object);
     doc_filename := default (doc_filename doc) (sp_filename object);
     doc_path := default (doc_path doc) (sp_path object);
     doc_type := default (doc_type doc) (sp_type object);
     doc_size := default (doc_size doc) (sp_size object);
     doc_text := default (doc_text doc) (sp_text object);
     doc_content := default (doc_content doc) (sp_content object) |}.

Definition updateDocument (id : string) (updates : Spread) (st : State)
  : Result Document * State :=
  match get id (documents st) with
  | None => (Throw "Document not found", st)
  | Some doc =>
      let updatedDoc := spread doc updates in
      (Ok updatedDoc,
       {| documents := set id updatedDoc (documents st); files := files st |})
  end.




(** The settings of an index and an uploaded file. *)
Record Settings : Type := {
  knowledgePath : string;
  maxFileSize : Z;
  allowedTypes : list string
}.

Record File : Type := {
  originalname : string;
  size : Z;
  buffer : string
}.

(** What [addDocument] takes from outside the repository: [path.extname],
    [path.join], the id [uuidv4()] returns, the error [fs.writeFile] fails
    with (if it fails), and the libraries that read word-processor
    documents, markup and images. *)
Record Platform : Type := {
  extname : string → string;
  join : string → string → string;
  uuidv4 : string;
  writeError : string → option string;
  extractRawText : string → Result string;
  markupText : string → Result string;
  imageSize : string → Result Z
}.

(** [extractContent], as the fields it spreads into the document. *)
Definition extractContent (p : Platform) (content : string) (fileType : string)
  : Result Spread :=
  let textual (text : string) : Spread :=
    {| sp_id := None; sp_filename := None; sp_path := None; sp_type := None;
       sp_size := None; sp_text := Some (Some text); sp_content := Some (Some text) |} in
  if String.eqb fileType "txt" || String.eqb fileType "md" then Ok (textual content)
  else if String.eqb fileType "pdf"
  then Ok (textual "[PDF file - content extraction not available]")
  else if String.eqb fileType "docx"
  then match extractRawText p content with
       | Ok value => Ok (textual value)
       | Throw e => Throw e
       end
  else if String.eqb fileType "html"
  then match markupText p content with
       | Ok text => Ok (textual text)
       | Throw e => Throw e
       end
  else if String.eqb fileType "jpg" || String.eqb fileType "jpeg"
          || String.eqb fileType "png" || String.eqb fileType "gif"
  then match imageSize p content with
       | Ok bytes =>
           Ok {| sp_id := None; sp_filename := None; sp_path := None;
                 sp_type := Some "image"; sp_size := Some bytes;
                 sp_text := None; sp_content := None |}
       | Throw e => Throw e
       end
  else Ok (textual content).

Definition addDocument (p : Platform) (settings : Settings) (file : File)
           (metadata : Spread) (st : State) : Result Document * State :=
  let failed (message : string) (st' : State) : Result Document * State :=
    (Throw ("Failed to add document: " +:+ message), st') in
  if (maxFileSize settings <? size file)%Z
  then failed ("File too large. Maximum size: " +:+ showNumber (maxFileSize settings)
               +:+ " bytes") st
  else
    let fileExt := toLowerCase (dropFirst (extname p (originalname file))) in
    if negb (existsb (String.eqb fileExt) (allowedTypes settings))
    then failed ("File type not allowed. Allowed types: "
                 +:+ JS.join ", " (allowedTypes settings)) st
    else
      let docId := uuidv4 p in
      let filename := docId +:+ "." +:+ fileExt in
      let filePath := join p (knowledgePath settings) filename in
      match writeError p filePath with
      | Some e => failed e st
      | None =>
          let written :=
            {| documents := documents st; files := files st ∪ {[filePath]} |} in
          match extractContent p (buffer file) fileExt with
          | Throw e => failed e written
          | Ok extractedData =>
              let document :=
                spread
                  (spread {| doc_id := docId;
                             doc_filename := originalname file;
                             doc_path := filePath;
                             doc_type := fileExt;
                             doc_size := size file;
                             doc_text := None;
                             doc_content := None |}
                          extractedData)
                  metadata in
              (Ok document,
               {| documents := set docId document (documents written);
                  files := files written |})
          end
      end.


(** A platform for examples: the extension is what follows the last dot,
    paths are joined with a slash, and no library fails. *)
Definition lastDot (name : string) : string :=
  match reverse (split "." name) with
  | ext :: _ :: _ => "." +:+ ext
  | _ => ""
  end.

Definition simple (id : string) : Platform :=
  {| extname := lastDot;
     join := λ dir name, dir +:+ "/" +:+ name;
     uuidv4 := id;
     writeError := λ _, None;
     extractRawText := λ content, Ok content;
     markupText := λ content, Ok content;
     imageSize := λ content, Ok (Z.of_nat (String.length content)) |}.

Definition settings : Settings :=
  {| knowledgePath := "knowledge_base";
     maxFileSize := 10485760;
     allowedTypes := ["pdf"; "docx"; "txt"; "md"; "jpg"; "jpeg"; "png"; "gif"] |}.

Definition notes : File :=
  {| originalname := "Notes.TXT";
     size := 27;
     buffer := "Refunds take five workdays." |}.

End KnowledgeBaseStore.

(** ** [src/providers/MistralProvider.js] and [FireworksProvider.js],
       [formatMessages] *)

Module MistralProvider.

Record Formatted : Type := { role : Role; content : string }.

(** [item.text || item], as [join] prints it: a part without a text, or
    with the empty text, is the part object itself. *)
Definition itemText (item : Part) : string :=
  match item with
  | text_part text => if truthy_string (Some text) then text else "[object Object]"
  | _ => "[object Object]"
  end.

Definition formatMessage (msg : Message) : Formatted :=
  {| role := Message.role msg;
     content :=
       match Message.content msg with
       | Parts l => JS.join "" (map itemText l)
       | Text s => s
       end |}.

Definition formatMessages (messages : list Message) : list Formatted :=
  map formatMessage messages.

Definition supportsImages : bool := false.

End MistralProvider.

Module FireworksProvider.

Definition formatMessage (msg : Message) : MistralProvider.Formatted :=
  {| MistralProvider.role := Message.role msg;
     MistralProvider.content :=
       match Message.content msg with
       | Parts l => JS.join "" (map MistralProvider.itemText l)
       | Text s => s
       end |}.

Definition formatMessages (messages : list Message) : list MistralProvider.Formatted :=
  map formatMessage messages.

Definition supportsImages : bool := false.

End FireworksProvider.

(** ** The adapters' [generateResponse]

    Each adapter formats the messages, fills the options the caller left
    out, calls the vendor's library and normalises the answer.  The
    vendor's library is a function from the request to its answer or to
    the message of the error it throws. *)

Module Completion.

Import Agent.

(** The [options] an adapter is given. *)
Record Options : Type := {
  model : option string;
  maxTokens : option Z;
  temperature : option Q
}.

(** The options as the agent passes them: all three present. *)
Definition ofCall (o : CallOptions) : Options :=
  {| model := Some (call_model o);
     maxTokens := Some (call_maxTokens o);
     temperature := Some (call_temperature o) |}.

(** [choices[0]] or [content[0]] of an answer without elements. *)
Definition noFirst (property : string) : string :=
  "Cannot read properties of undefined (reading '" +:+ property +:+ "')".

(** *** OpenAI *)

Record OpenAIRequest : Type := {
  o_model : string;
  o_messages : list OpenAIProvider.Formatted;
  o_max_tokens : Z;
  o_temperature : Q;
  o_stream : bool
}.

(** [response.choices[i].message.content], [response.usage],
    [response.model]. *)
Record ChatAnswer : Type := {
  choices : list string;
  usage : option Usage;
  answer_model : string
}.

Definition openai (client : OpenAIRequest → Result ChatAnswer) (llm : LLMConfig)
           (messages : list Message) (options : Options) : Result Response :=
  let formattedMessages := OpenAIProvider.formatMessages messages in
  match client {| o_model := or_string (model options) (defaultModel llm);
                  o_messages := formattedMessages;
                  o_max_tokens := or_Z (maxTokens options) (Agent.maxTokens llm);
                  o_temperature := or_Q (temperature options) (Agent.temperature llm);
                  o_stream := false |} with
  | Throw e => Throw ("OpenAI API error: " +:+ e)
  | Ok response =>
      match choices response with
      | [] => Throw ("OpenAI API error: " +:+ noFirst "message")
      | content :: _ =>
          Ok {| response_content := content;
                response_usage := usage response;
                response_model := answer_model response;
                response_provider := "openai" |}
      end
  end.

(** *** Anthropic *)

Record AnthropicRequest : Type := {
  a_model : string;
  a_max_tokens : Z;
  a_temperature : Q;
  a_system : Content;
  a_messages : list AnthropicProvider.Formatted
}.

(** [response.content[i].text], [response.usage.input_tokens],
    [response.usage.output_tokens], [response.model]. *)
Record AnthropicAnswer : Type := {
  blocks : list string;
  input_tokens : Z;
  output_tokens : Z;
  anthropic_model : string
}.

Definition anthropic (client : AnthropicRequest → Result AnthropicAnswer)
           (llm : LLMConfig) (messages : list Message) (options : Options)
  : Result Response :=
  let formatted := AnthropicProvider.formatMessages messages in
  match client {| a_model := or_string (model options) "claude-3-5-sonnet-20241022";
                  a_max_tokens := or_Z (maxTokens options) (Agent.maxTokens llm);
                  a_temperature := or_Q (temperature options) (Agent.temperature llm);
                  a_system := AnthropicProvider.system formatted;
                  a_messages := AnthropicProvider.messages formatted |} with
  | Throw e => Throw ("Anthropic API error: " +:+ e)
  | Ok response =>
      match blocks response with
      | [] => Throw ("Anthropic API error: " +:+ noFirst "text")
      | text :: _ =>
          Ok {| response_content := text;
                response_usage :=
                  Some {| prompt_tokens := input_tokens response;
                          completion_tokens := output_tokens response;
                          total_tokens :=
                            (input_tokens response + output_tokens response)%Z |};
                response_model := anthropic_model response;
                response_provider := "anthropic" |}
      end
  end.

(** *** Google *)

(** [getGenerativeModel({ model }).startChat({ history }).sendMessage(parts)]. *)
Record GoogleRequest : Type := {
  g_model : string;
  g_history : list GoogleProvider.Formatted;
  g_parts : list GoogleProvider.GPart
}.

Definition google (client : GoogleRequest → Result string) (messages : list Message)
           (options : Options) : Result Response :=
  match GoogleProvider.formatMessages messages with
  | Throw e => Throw ("Google Gemini API error: " +:+ e)
  | Ok formattedMessages =>
      match last formattedMessages with
      | None => Throw ("Google Gemini API error: " +:+ noFirst "parts")
      | Some lastMessage =>
          match client {| g_model := or_string (model options) "gemini-pro";
                          g_history := slice 0 (-1) formattedMessages;
                          g_parts := GoogleProvider.parts lastMessage |} with
          | Throw e => Throw ("Google Gemini API error: " +:+ e)
          | Ok text =>
              Ok {| response_content := text;
                    response_usage :=
                      Some {| prompt_tokens := 0;
                              completion_tokens := 0;
                              total_tokens := 0 |};
                    response_model := or_string (model options) "gemini-pro";
                    response_provider := "google" |}
          end
      end
  end.

(** *** Mistral and Fireworks: a POST to [/chat/completions] *)

Record PostBody : Type := {
  p_model : string;
  p_messages : list MistralProvider.Formatted;
  p_max_tokens : Z;
  p_temperature : Q;
  p_stream : bool
}.

(** What a failed POST throws: [error.message], and
    [error.response.data.error.message] when the vendor answered. *)
Record PostError : Type := {
  error_message : string;
  vendor_message : option string
}.

Inductive Posted : Type :=
| answered (data : ChatAnswer)
| failed (error : PostError).

(** [error.response?.data?.error?.message || error.message]. *)
Definition postErrorMessage (error : PostError) : string :=
  or_string (vendor_message error) (error_message error).

Definition posted (vendor provider defaultModel : string)
           (formatMessages : list Message → list MistralProvider.Formatted)
           (post : PostBody → Posted) (llm : LLMConfig)
           (messages : list Message) (options : Options) : Result Response :=
  let formattedMessages := formatMessages messages in
  match post {| p_model := or_string (model options) defaultModel;
                p_messages := formattedMessages;
                p_max_tokens := or_Z (maxTokens options) (Agent.maxTokens llm);
                p_temperature := or_Q (temperature options) (Agent.temperature llm);
                p_stream := false |} with
  | failed error => Throw (vendor +:+ " API error: " +:+ postErrorMessage error)
  | answered data =>
      match choices data with
      | [] =>
          Throw (vendor +:+ " API error: "
                 +:+ postErrorMessage {| error_message := noFirst "message";
                                         vendor_message := None |})
      | content :: _ =>
          Ok {| response_content := content;
                response_usage := usage data;
                response_model := answer_model data;
                response_provider := provider |}
      end
  end.

Definition mistral : (PostBody → Posted) → LLMConfig → list Message → Options
                     → Result Response :=
  posted "Mistral" "mistral" "mistral-large-latest" MistralProvider.formatMessages.

Definition fireworks : (PostBody → Posted) → LLMConfig → list Message → Options
                       → Result Response :=
  posted "Fireworks" "fireworks" "llama-v3p1-70b-instruct" FireworksProvider.formatMessages.

(** The vendors' libraries, and the agent environment they make. *)
Record Clients : Type := {
  openaiClient : OpenAIRequest → Result ChatAnswer;
  anthropicClient : AnthropicRequest → Result AnthropicAnswer;
  googleClient : GoogleRequest → Result string;
  mistralPost : PostBody → Posted;
  fireworksPost : PostBody → Posted
}.

Definition generateResponse (clients : Clients) (llm : LLMConfig)
           (provider : ProviderFactory.Provider) (messages : list Message)
           (options : Options) : Result Response :=
  match provider with
  | ProviderFactory.OpenAI => openai (openaiClient clients) llm messages options
  | ProviderFactory.Anthropic => anthropic (anthropicClient clients) llm messages options
  | ProviderFactory.Google => google (googleClient clients) messages options
  | ProviderFactory.Mistral => mistral (mistralPost clients) llm messages options
  | ProviderFactory.Fireworks => fireworks (fireworksPost clients) llm messages options
  end.

(** The name each adapter puts on its completions and on its errors. *)
Definition providerTag (provider : ProviderFactory.Provider) : string :=
  match provider with
  | ProviderFactory.OpenAI => "openai"
  | ProviderFactory.Anthropic => "anthropic"
  | ProviderFactory.Google => "google"
  | ProviderFactory.Mistral => "mistral"
  | ProviderFactory.Fireworks => "fireworks"
  end.

Definition errorPrefix (provider : ProviderFactory.Provider) : string :=
  match provider with
  | ProviderFactory.OpenAI => "OpenAI API error: "
  | ProviderFactory.Anthropic => "Anthropic API error: "
  | ProviderFactory.Google => "Google Gemini API error: "
  | ProviderFactory.Mistral => "Mistral API error: "
  | ProviderFactory.Fireworks => "Fireworks API error: "
  end.

(** An agent whose adapters are the five above. *)
Definition env (clients : Clients) (llm : LLMConfig)
           (knowledgeBase : string → KnowledgeBase.SearchOptions
                            → Result (list KnowledgeBase.Fragment))
           (vendorStream : ProviderFactory.Provider → list Message → CallOptions
                           → Result Stream) : Env :=
  {| Agent.llm := llm;
     Agent.knowledgeBase := knowledgeBase;
     Agent.vendorResponse :=
       λ provider messages options,
         generateResponse clients llm provider messages (ofCall options);
     Agent.vendorStream := vendorStream |}.

End Completion.

(** ** [ProviderFactory.getAvailableProviders] and [checkApiKey] *)

Module ProviderListing.

(** One entry of [config.providers]. *)
Record ProviderConfig : Type := {
  displayName : string;
  logo : string;
  models : list string;
  bestModel : string;
  description : string;
  supportsImages : bool;
  supportsStreaming : bool
}.

(** [config.<vendor>?.apiKey] for the five vendors. *)
Record Keys : Type := {
  openai : option string;
  google : option string;
  anthropic : option string;
  mistral : option string;
  fireworks : option string
}.

(** [config.providers]: the keys of the object in the order they were
    written, each with its entry. *)
Definition Providers : Type := list (string * ProviderConfig).

Record Available : Type := {
  name : string;
  entry : ProviderConfig
}.

Definition checkApiKey (keys : Keys) (providerKey : string) : bool :=
  if String.eqb providerKey "openai" then truthy_string (openai keys)
  else if String.eqb providerKey "google" then truthy_string (google keys)
  else if String.eqb providerKey "anthropic" then truthy_string (anthropic keys)
  else if String.eqb providerKey "mistral" then truthy_string (mistral keys)
  else if String.eqb providerKey "fireworks" then truthy_string (fireworks keys)
  else false.

Definition getAvailableProviders (keys : Keys) (providerConfigs : Providers)
  : list Available :=
  fold_left
    (fun providers kv =>
       let providerKey := fst kv in
       let providerConfig := snd kv in
       let hasApiKey := checkApiKey keys providerKey in
       if hasApiKey
       then providers ++ [ {| name := providerKey; entry := providerConfig |} ]
       else providers)
    providerConfigs [].

Definition vendors : list string :=
  ["openai"; "google"; "anthropic"; "mistral"; "fireworks"].

End ProviderListing.

(** ** Vocabulary of the adapters' properties *)

Module AdapterView.

(** The turn the Google adapter makes of a user or assistant message. *)
Definition googleTurn (msg : Message) : GoogleProvider.Formatted :=
  match Message.role msg with
  | Message.user =>
      {| GoogleProvider.role := GoogleProvider.user;
         GoogleProvider.parts :=
           match Message.content msg with
           | Parts l => concat (map GoogleProvider.formatItem l)
           | c => [GoogleProvider.textPart c]
           end |}
  | _ =>
      {| GoogleProvider.role := GoogleProvider.model;
         GoogleProvider.parts := [GoogleProvider.textPart (Message.content msg)] |}
  end.

(** The leading user turn that carries the system prompt. *)
Definition googleSystemTurn (prompt : string) : GoogleProvider.Formatted :=
  {| GoogleProvider.role := GoogleProvider.user;
     GoogleProvider.parts := [GoogleProvider.textPart (Text ("System: " +:+ prompt))] |}.

Definition notSystem (msg : Message) : Prop := Message.role msg ≠ Message.system.

#[global] Instance notSystem_dec (msg : Message) : Decision (notSystem msg).
Proof.
  unfold notSystem. destruct (Message.role msg);
    first [by left | right; intros H; by apply H].
Defined.

End AdapterView.

(** Vendors for examples: Anthropic refuses the key, the others answer. *)
Module Vendors.

Import Agent.

Definition chat : Completion.ChatAnswer :=
  {| Completion.choices := ["Hello!"];
     Completion.usage :=
       Some {| prompt_tokens := 9; completion_tokens := 2; total_tokens := 11 |};
     Completion.answer_model := "gpt-4-0613" |}.

Definition clients : Completion.Clients :=
  {| Completion.openaiClient := λ _, Ok chat;
     Completion.anthropicClient := λ _, Throw "401 invalid x-api-key";
     Completion.googleClient := λ _, Ok "Hello!";
     Completion.mistralPost := λ _, Completion.answered chat;
     Completion.fireworksPost :=
       λ _, Completion.failed {| Completion.error_message :=
                                   "Request failed with status code 429";
                                 Completion.vendor_message := Some "rate limit exceeded" |} |}.

Definition env : Env :=
  Completion.env clients Session.config
    (λ query options, Ok (KnowledgeBase.searchDocuments Session.pricingOnly query options))
    (λ _ _ _, Ok ["Hello!"]).

Definition keys : ProviderListing.Keys :=
  {| ProviderListing.openai := Some "sk-test";
     ProviderListing.google := None;
     ProviderListing.anthropic := Some "";
     ProviderListing.mistral := Some "mk-test";
     ProviderListing.fireworks := None |}.

Definition entry (displayName : string) : ProviderListing.ProviderConfig :=
  {| ProviderListing.displayName := displayName;
     ProviderListing.logo := "";
     ProviderListing.models := [];
     ProviderListing.bestModel := "";
     ProviderListing.description := "";
     ProviderListing.supportsImages := true;
     ProviderListing.supportsStreaming := true |}.

End Vendors.

(** Two sets of vendor libraries answer alike whenever they are asked for
    the model [m]. *)
Module RequestView.

Import Completion.

Definition agreeOnModel (m : string) (c c' : Clients) : Prop :=
  (∀ request, o_model request = m → openaiClient c request = openaiClient c' request)
  ∧ (∀ request, a_model request = m →
       anthropicClient c request = anthropicClient c' request)
  ∧ (∀ request, g_model request = m → googleClient c request = googleClient c' request)
  ∧ (∀ request, p_model request = m → mistralPost c request = mistralPost c' request)
  ∧ (∀ request, p_model request = m → fireworksPost c request = fireworksPost c' request).

(** Vendors that know one model only. *)
Definition only (m : string) : Clients :=
  {| openaiClient :=
       λ request, if String.eqb (o_model request) m
                  then openaiClient Vendors.clients request
                  else Throw "404 model not found";
     anthropicClient :=
       λ request, if String.eqb (a_model request) m
                  then Ok {| blocks := ["Hello!"]; input_tokens := 9; output_tokens := 2;
                             anthropic_model := a_model request |}
                  else Throw "404 model not found";
     googleClient :=
       λ request, if String.eqb (g_model request) m
                  then googleClient Vendors.clients request
                  else Throw "404 model not found";
     mistralPost :=
       λ request, if String.eqb (p_model request) m
                  then mistralPost Vendors.clients request
                  else failed {| error_message := "Request failed with status code 404";
                                 vendor_message := None |};
     fireworksPost :=
       λ request, if String.eqb (p_model request) m
                  then fireworksPost Vendors.clients request
                  else failed {| error_message := "Request failed with status code 404";
                                 vendor_message := None |} |}.

(** Vendors that answer whatever the model. *)
Definition any : Clients :=
  {| openaiClient := openaiClient Vendors.clients;
     anthropicClient :=
       λ request, Ok {| blocks := ["Hello!"]; input_tokens := 9; output_tokens := 2;
                        anthropic_model := a_model request |};
     googleClient := googleClient Vendors.clients;
     mistralPost := mistralPost Vendors.clients;
     fireworksPost := fireworksPost Vendors.clients |}.

End RequestView.

(** ** [src/services/ImageAnalysisService.js], [processBatch] *)

Module ImageAnalysisService.

(** How a promise settles, and what [processBatch] makes of it: the value,
    or [{ error: reason }]. *)
Inductive Settled (A : Type) : Type :=
| fulfilled (value : A)
| rejected (reason : string).
Arguments fulfilled {A} value.
Arguments rejected {A} reason.

Inductive Outcome (A : Type) : Type :=
| analysed (value : A)
| error (reason : string).
Arguments analysed {A} value.
Arguments error {A} reason.

Definition outcome {A} (result : Settled A) : Outcome A :=
  match result with
  | fulfilled value => analysed value
  | rejected reason => error reason
  end.

(** The [for] loop from index [i] on; [pauses] counts the two-second
    delays.  The loop has no bound of its own: [fuel] is the number of
    iterations it is given, and [None] says that they did not suffice. *)
Fixpoint batches {A} (fuel : nat) (analyzeImage : string → Settled A)
         (imageUrls : list string) (batchSize i : Z)
         (results : list (Outcome A)) (pauses : nat)
  : option (list (Outcome A) * nat) :=
  if (i <? Z.of_nat (length imageUrls))%Z
  then match fuel with
       | O => None
       | S fuel' =>
           let batch := slice i (i + batchSize) imageUrls in
           let batchResults := map analyzeImage batch in
           let results := results ++ map outcome batchResults in
           let pauses :=
             if (i + batchSize <? Z.of_nat (length imageUrls))%Z
             then S pauses else pauses in
           batches fuel' analyzeImage imageUrls batchSize (i + batchSize)%Z results pauses
       end
  else Some (results, pauses).

Definition processBatch {A} (fuel : nat) (analyzeImage : string → Settled A)
           (imageUrls : list string) (batchSize : option Z)
  : option (list (Outcome A) * nat) :=
  batches fuel analyzeImage imageUrls (or_Z batchSize 5) 0 [] 0.

End ImageAnalysisService.

(** ** [src/routes/chat.js]: the sessions of the chat routes *)

Module ChatRoute.

Import Agent.

(** [String.prototype.trim], on ASCII: tab, line feed, vertical tab, form
    feed, carriage return and space. *)
Definition isWhiteSpace (c : ascii) : bool :=
  (9 <=? nat_of_ascii c)%nat && (nat_of_ascii c <=? 13)%nat
  || (nat_of_ascii c =? 32)%nat.

Fixpoint trimStart (s : string) : string :=
  match s with
  | EmptyString => EmptyString
  | String c s' => if isWhiteSpace c then trimStart s' else s
  end.

Fixpoint trimEnd (s : string) : string :=
  match s with
  | EmptyString => EmptyString
  | String c s' =>
      match trimEnd s' with
      | EmptyString => if isWhiteSpace c then EmptyString else String c EmptyString
      | String c' t => String c (String c' t)
      end
  end.

Definition trim (s : string) : string := trimEnd (trimStart s).

(** [s.indexOf(c)] for a character: [-1] when it does not occur. *)
Fixpoint indexOf (c : ascii) (s : string) : Z :=
  match s with
  | EmptyString => (-1)%Z
  | String x s' =>
      if Ascii.eqb x c then 0%Z
      else let i := indexOf c s' in if (i <? 0)%Z then (-1)%Z else (i + 1)%Z
  end.

(** [s.slice(start, end)] and [s.slice(start)], for indices that are not
    negative. *)
Definition stringSlice (start end_ : Z) (s : string) : string :=
  String.substring (Z.to_nat start) (Z.to_nat (end_ - start)) s.

Definition stringSliceFrom (start : Z) (s : string) : string :=
  String.substring (Z.to_nat start) (String.length s - Z.to_nat start) s.

(** One iteration of the [forEach] of [parseCookies]. *)
Definition parsePair (decodeURIComponent : string → Result string)
           (cookies : gmap string string) (pair : string)
  : Result (gmap string string) :=
  let idx := indexOf "=" pair in
  if (-1 <? idx)%Z
  then let key := trim (stringSlice 0 idx pair) in
       match decodeURIComponent (trim (stringSliceFrom (idx + 1) pair)) with
       | Throw e => Throw e
       | Ok val => Ok (<[key := val]> cookies)
       end
  else Ok cookies.

Definition parseCookies (decodeURIComponent : string → Result string)
           (cookieHeader : string) : Result (gmap string string) :=
  if String.eqb cookieHeader "" then Ok ∅
  else fold_left (λ cookies pair,
                    match cookies with
                    | Throw e => Throw e
                    | Ok cookies => parsePair decodeURIComponent cookies pair
                    end)
                 (split ";" cookieHeader) (Ok ∅).

(** What the routes read of a request.  [req.header(name)] looks a header
    up without regard to case: [X-Session-Id] and [x-session-id] are one
    header. *)
Record Request : Type := {
  req_cookie : option string;
  req_header : option string;
  req_bodySessionId : option string;
  req_querySessionId : option string;
  req_message : option Content;
  req_provider : option string;
  req_model : option string;
  req_temperature : option Q;
  req_maxTokens : option Z;
  req_prompt : option string
}.

(** [a || b] where both may be missing. *)
Definition orElse (a b : option string) : option string :=
  if truthy_string a then a else b.

(** The session of a request and the cookie set in the response, if one
    is set. *)
Definition getOrCreateSessionId (decodeURIComponent : string → Result string)
           (randomUUID : string) (req : Request) : Result (string * option string) :=
  match parseCookies decodeURIComponent (or_string (req_cookie req) "") with
  | Throw e => Throw e
  | Ok cookies =>
      let headerId := orElse (req_header req) (req_header req) in
      let bodyId := req_bodySessionId req in
      let queryId := req_querySessionId req in
      let cookieId := cookies !! "sessionId" in
      let incoming := orElse (orElse (orElse headerId bodyId) queryId) cookieId in
      if truthy_string incoming then Ok (or_string incoming "", None)
      else let newId := randomUUID in Ok (newId, Some newId)
  end.

(** The events the streaming route writes. *)
Inductive Event : Type :=
| session_event (sessionId : string)
| documents_event (documents : list Summary)
| content_event (content : string)
| done_event.

(** The bodies of the responses. *)
Inductive Json : Type :=
| completion (reply : Reply) (sessionId : string)
| events (written : list Event)
| problem (error : string)
| success (sessionId : option string)
| historyOf (history : list Message) (sessionId : option string).

Record Answer : Type := {
  status : Z;
  json : Json;
  cookieSet : option string
}.

(** [!message]. *)
Definition truthy_content (message : option Content) : bool :=
  match message with
  | None => false
  | Some (Text s) => negb (String.eqb s "")
  | Some (Parts _) => true
  end.

(** A string is wrapped into one text part, an array is passed as it is. *)
Definition userMessageOf (message : Content) : Content :=
  match message with
  | Parts items => Parts items
  | Text s => Parts [text_part s]
  end.

Definition optionsOf (req : Request) (sessionId : string) : Options :=
  {| opt_provider := req_provider req;
     opt_model := req_model req;
     opt_maxTokens := req_maxTokens req;
     opt_temperature := req_temperature req;
     opt_sessionId := Some sessionId |}.

(** [POST /chat].  [agent] is the module's variable: [None] until
    [initializeAgent] has run. *)
Definition chat (env : Env) (decodeURIComponent : string → Result string)
           (randomUUID : string) (req : Request) (agent : option World)
  : Answer * option World :=
  match getOrCreateSessionId decodeURIComponent randomUUID req with
  | Throw e => ({| status := 500; json := problem e; cookieSet := None |}, agent)
  | Ok (sessionId, cookieSet) =>
      match req_message req with
      | Some message =>
          if truthy_content (Some message)
          then match agent with
               | None =>
                   ({| status := 500; json := problem "Agent not initialized";
                       cookieSet := cookieSet |}, agent)
               | Some w =>
                   let userMessage := userMessageOf message in
                   match generateResponse env userMessage (optionsOf req sessionId) w with
                   | (Ok response, w') =>
                       ({| status := 200; json := completion response sessionId;
                           cookieSet := cookieSet |}, Some w')
                   | (Throw e, w') =>
                       ({| status := 500; json := problem e; cookieSet := cookieSet |},
                        Some w')
                   end
               end
          else ({| status := 400; json := problem "Message is required";
                   cookieSet := cookieSet |}, agent)
      | None =>
          ({| status := 400; json := problem "Message is required";
              cookieSet := cookieSet |}, agent)
      end
  end.

(** [POST /chat/stream]: the session, the documents, the chunks that have
    a content, and the end. *)
Definition chatStream (env : Env) (decodeURIComponent : string → Result string)
           (randomUUID : string) (req : Request) (agent : option World)
  : Answer * option World :=
  match getOrCreateSessionId decodeURIComponent randomUUID req with
  | Throw e => ({| status := 500; json := problem e; cookieSet := None |}, agent)
  | Ok (sessionId, cookieSet) =>
      match req_message req with
      | Some message =>
          if truthy_content (Some message)
          then match agent with
               | None =>
                   ({| status := 500; json := problem "Agent not initialized";
                       cookieSet := cookieSet |}, agent)
               | Some w =>
                   let userMessage := userMessageOf message in
                   match generateStreamResponse env userMessage
                           (optionsOf req sessionId) w with
                   | (Ok reply, w') =>
                       ({| status := 200;
                           json :=
                             events
                               (session_event sessionId
                                  :: documents_event (stream_documents reply)
                                  :: map content_event
                                       (List.filter (λ chunk, negb (String.eqb chunk ""))
                                                    (reply_stream reply))
                                  ++ [done_event]);
                           cookieSet := cookieSet |}, Some w')
                   | (Throw e, w') =>
                       ({| status := 500; json := problem e; cookieSet := cookieSet |},
                        Some w')
                   end
               end
          else ({| status := 400; json := problem "Message is required";
                   cookieSet := cookieSet |}, agent)
      | None =>
          ({| status := 400; json := problem "Message is required";
              cookieSet := cookieSet |}, agent)
      end
  end.

(** [POST /system-prompt]. *)
Definition systemPromptRoute (req : Request) (agent : option World)
  : Answer * option World :=
  if truthy_string (req_prompt req)
  then match agent with
       | None =>
           ({| status := 500; json := problem "Agent not initialized";
               cookieSet := None |}, agent)
       | Some w =>
           ({| status := 200; json := success None; cookieSet := None |},
            Some (snd (AgentState.setSystemPrompt (or_string (req_prompt req) "") w)))
       end
  else ({| status := 400; json := problem "Prompt is required"; cookieSet := None |},
        agent).

(** [POST /clear-history]: the session is read from the body and the
    header. *)
Definition clearHistoryRoute (req : Request) (agent : option World)
  : Answer * option World :=
  match agent with
  | None =>
      ({| status := 500; json := problem "Agent not initialized"; cookieSet := None |},
       agent)
  | Some w =>
      let sessionId :=
        orElse (orElse (req_bodySessionId req) (req_header req)) (req_header req) in
      let w' := if truthy_string sessionId
                then snd (AgentState.clearHistoryForSession sessionId w)
                else snd (AgentState.clearHistory w) in
      ({| status := 200; json := success sessionId; cookieSet := None |}, Some w')
  end.

(** [GET /history]: the session is read from the query and the header. *)
Definition historyRoute (req : Request) (agent : option World) : Answer :=
  match agent with
  | None =>
      {| status := 500; json := problem "Agent not initialized"; cookieSet := None |}
  | Some w =>
      let sessionId :=
        orElse (orElse (req_querySessionId req) (req_header req)) (req_header req) in
      match (if truthy_string sessionId
             then fst (getHistoryForSession sessionId w)
             else fst (getHistory w)) with
      | Ok history =>
          {| status := 200; json := historyOf history sessionId; cookieSet := None |}
      | Throw e => {| status := 500; json := problem e; cookieSet := None |}
      end
  end.

(** The states of the module's agent that requests lead to: each request
    has its own collaborators, its own random identifier (never empty)
    and finds the knowledge base as the requests before left it. *)
Inductive Served : option World → Prop :=
| served_start : Served None
| served_initializeAgent (agent : option World) :
    Served agent → Served (Some (AgentState.create ""))
| served_chat (env : Env) (decodeURIComponent : string → Result string)
              (randomUUID : string) (req : Request) (agent : option World) :
    randomUUID ≠ "" → Served agent →
    Served (snd (chat env decodeURIComponent randomUUID req agent))
| served_chatStream (env : Env) (decodeURIComponent : string → Result string)
                    (randomUUID : string) (req : Request) (agent : option World) :
    randomUUID ≠ "" → Served agent →
    Served (snd (chatStream env decodeURIComponent randomUUID req agent))
| served_systemPrompt (req : Request) (agent : option World) :
    Served agent → Served (snd (systemPromptRoute req agent))
| served_clearHistory (req : Request) (agent : option World) :
    Served agent → Served (snd (clearHistoryRoute req agent)).

(** A request that carries nothing but a cookie header and a message. *)
Definition withCookie (cookie : string) (message : string) : Request :=
  {| req_cookie := Some cookie;
     req_header := None;
     req_bodySessionId := None;
     req_querySessionId := None;
     req_message := Some (Text message);
     req_provider := None;
     req_model := None;
     req_temperature := None;
     req_maxTokens := None;
     req_prompt := None |}.

(** No white space in a string. *)
Fixpoint hasWhiteSpace (s : string) : bool :=
  match s with
  | EmptyString => false
  | String c s' => isWhiteSpace c || hasWhiteSpace s'
  end.

End ChatRoute.

(** ** [src/knowledge/KnowledgeBase.js], class [SupabaseKnowledgeBase]:
       the search *)

Module SupabaseSearch.

(** An item of a storage listing: [name], [id] and [metadata?.mimetype];
    [item_metadata] is [None] for an item without metadata. *)
Record Item : Type := {
  item_name : string;
  item_id : option string;
  item_metadata : option (option string)
}.

Definition mimetype (item : Item) : option string :=
  match item_metadata item with
  | Some mimetype => mimetype
  | None => None
  end.

(** [{ ...item, fullPath }]. *)
Record StoredFile : Type := {
  file_item : Item;
  fullPath : string
}.

(** A row of the table [image_analysis]. *)
Record Row : Type := {
  row_id : string;
  row_filename : string;
  row_text : option string;
  row_file_path : string
}.

(** The hosted service as the class sees it: the url and the bucket of
    the configuration, [storage.from(bucket).list(folder)] as [storageList], and the query
    on [image_analysis] for a text and a limit.  [None] stands for an
    [error], for an exception and for a missing [data]: the code answers
    each with no result. *)
Record Service : Type := {
  supabaseUrl : string;
  storageBucket : string;
  storageList : string → option (list Item);
  imageAnalysis : string → Z → option (list Row)
}.

(** [s.endsWith(t)]. *)
Definition endsWith (s t : string) : bool :=
  (String.length t <=? String.length s)%nat
  && String.eqb (String.substring (String.length s - String.length t)
                                  (String.length t) s) t.

Definition isFile (item : Item) : bool :=
  truthy_string (mimetype item)
  || includes (item_name item) "."
  || (match item_metadata item with Some _ => true | None => false end
      && negb (truthy_string (mimetype item))
      && includes (item_name item) ".").

(** One iteration of the loop over the items of a folder; [recurse] is the
    listing of a folder below. *)
Definition listItem (recurse : string → option (list StoredFile)) (folderPath : string)
           (allFiles : option (list StoredFile)) (item : Item)
  : option (list StoredFile) :=
  match allFiles with
  | None => None
  | Some allFiles =>
      let fullPath :=
        if truthy_string (Some folderPath)
        then folderPath +:+ "/" +:+ item_name item
        else item_name item in
      if isFile item
      then Some (allFiles ++ [ {| file_item := item; fullPath := fullPath |} ])
      else match recurse fullPath with
           | None => None
           | Some subFiles => Some (allFiles ++ subFiles)
           end
  end.

(** The listing recurses into every item that is not a file; [fuel]
    bounds the depth, and [None] says that it did not suffice. *)
Fixpoint getAllFilesRecursively (fuel : nat) (service : Service) (folderPath : string)
  : option (list StoredFile) :=
  match fuel with
  | O => None
  | S fuel' =>
      match storageList service folderPath with
      | None => Some []
      | Some items =>
          fold_left (listItem (getAllFilesRecursively fuel' service) folderPath)
                    items (Some [])
      end
  end.

(** What a search returns, as far as its callers read it: [title],
    [description], the dates and [metadata] are left out. *)
Record Found : Type := {
  found_id : string;
  found_filename : string;
  found_type : string;
  found_text : string;
  found_url : string;
  found_image_url : option string;
  found_score : Z;
  found_relevance : Z
}.

Definition publicUrl (service : Service) (path : string) : string :=
  supabaseUrl service +:+ "/storage/v1/object/public/" +:+ storageBucket service
  +:+ "/" +:+ path.

Definition searchImageAnalysis (service : Service) (query : string) (limit : option Z)
  : list Found :=
  match imageAnalysis service query (or_Z limit 10) with
  | None => []
  | Some data =>
      map (λ item,
             {| found_id := row_id item;
                found_filename := row_filename item;
                found_type := "image";
                found_text := or_string (row_text item) "";
                found_url := publicUrl service (row_file_path item);
                found_image_url := Some (publicUrl service (row_file_path item));
                found_score := 1;
                found_relevance := 1 |})
          data
  end.

Definition isImageName (name : string) : bool :=
  endsWith name ".png" || endsWith name ".jpg" || endsWith name ".jpeg".

Definition foundFile (service : Service) (file : StoredFile) : Found :=
  {| found_id := or_string (item_id (file_item file)) (fullPath file);
     found_filename := item_name (file_item file);
     found_type := if isImageName (item_name (file_item file)) then "image" else "file";
     found_text := item_name (file_item file);
     found_url := publicUrl service (fullPath file);
     found_image_url :=
       if isImageName (item_name (file_item file))
       then Some (publicUrl service (fullPath file))
       else None;
     found_score := 1;
     found_relevance := 1 |}.

Definition matches (searchTerms : list string) (file : StoredFile) : bool :=
  let fileName := toLowerCase (item_name (file_item file)) in
  let fullPath := toLowerCase (fullPath file) in
  existsb (λ term, includes fileName term || includes fullPath term) searchTerms.

Definition searchDocuments (fuel : nat) (service : Service) (query : string)
           (limit : option Z) : option (list Found) :=
  let analysisResults := searchImageAnalysis service query limit in
  if (0 <? length analysisResults)%nat then Some analysisResults
  else match getAllFilesRecursively fuel service "" with
       | None => None
       | Some allFiles =>
           let searchTerms := split " " (toLowerCase query) in
           let matchingFiles := List.filter (matches searchTerms) allFiles in
           let results := map (foundFile service) matchingFiles in
           Some (slice 0 (or_Z limit 10) results)
       end.


(** A bucket for examples: two flows of screens and a folder whose name
    has a dot; no image has been analysed. *)
Definition screen (name : string) : Item :=
  {| item_name := name; item_id := None; item_metadata := Some (Some "image/png") |}.

Definition folder (name : string) : Item :=
  {| item_name := name; item_id := None; item_metadata := None |}.

Definition flows : Service :=
  {| supabaseUrl := "https://example.supabase.co";
     storageBucket := "flows";
     storageList := λ folderPath,
       if String.eqb folderPath "" then Some [folder "onboarding"; folder "v1.2"]
       else if String.eqb folderPath "onboarding"
            then Some [screen "welcome.png"; screen "Login.png"]
            else if String.eqb folderPath "v1.2" then Some [screen "checkout.png"]
                 else Some [];
     imageAnalysis := λ _ _, Some [] |}.

(** Where a listed file comes from: an item of the listing of a folder,
    taken for a file, under the path of the folder. *)
Definition listedIn (service : Service) (file : StoredFile) : Prop :=
  ∃ folderPath items,
    storageList service folderPath = Some items
    ∧ file_item file ∈ items
    ∧ isFile (file_item file) = true
    ∧ fullPath file = (if String.eqb folderPath "" then item_name (file_item file)
                       else folderPath +:+ "/" +:+ item_name (file_item file)).

End SupabaseSearch.

(** ** Sanity checks of the primitives *)

Example split_empty_example : split " " "" = [""].
Proof. reflexivity. Qed.

Example split_words : split " " "a b  c" = ["a"; "b"; ""; "c"].
Proof. reflexivity. Qed.

Example includes_empty_example : includes "abc" "" = true.
Proof. reflexivity. Qed.

Example includes_mid : includes "our premium plan" "premium" = true.
Proof. reflexivity. Qed.

Example slice_last : slice_from (-2) [1;2;3;4]%Z = [3;4]%Z.
Proof. reflexivity. Qed.

Example sort_stable_example : sort (fun a b => (fst b - fst a)%Z) [(1,"a");(2,"b");(1,"c");(2,"d")]%Z
  = [(2,"b");(2,"d");(1,"a");(1,"c")]%Z.
Proof. reflexivity. Qed.

(** ** Facts about the JavaScript primitives *)

Section primitives.

Lemma split_cons (sep : ascii) (s : string) : ∃ w ws, split sep s = w :: ws.
Proof.
  induction s as [|c s IH]; simpl; [by eauto|].
  destruct (Ascii.eqb c sep); [by eauto|].
  destruct IH as (w & ws & ->). by eauto.
Qed.

Lemma split_length (sep : ascii) (s : string) : (1 ≤ length (split sep s))%nat.
Proof. destruct (split_cons sep s) as (w & ws & ->). simpl. lia. Qed.

Lemma includes_nil (s : string) : includes s "" = true.
Proof. by destruct s. Qed.

Lemma append_cons (c : ascii) (s t : string) : String c s +:+ t = String c (s +:+ t).
Proof. reflexivity. Qed.

Lemma append_nil_l (t : string) : "" +:+ t = t.
Proof. reflexivity. Qed.

Lemma append_nil_r (s : string) : s +:+ "" = s.
Proof. induction s as [|c s IH]; [done|]. by rewrite append_cons, IH. Qed.

Lemma append_assoc (a b c : string) : (a +:+ b) +:+ c = a +:+ (b +:+ c).
Proof. induction a as [|x a IH]; [done|]. by rewrite !append_cons, IH. Qed.

Lemma toLowerCase_idemp (s : string) : toLowerCase (toLowerCase s) = toLowerCase s.
Proof.
  induction s as [|c s IH]; simpl; [done|]. f_equal; [|done].
  unfold lower_char at 1.
  destruct (is_upper (lower_char c)) eqn:E; [|done].
  exfalso. revert E. unfold lower_char.
  destruct c as [[] [] [] [] [] [] [] []]; vm_compute; congruence.
Qed.

Context {A : Type}.

Lemma slice_0_take (k : Z) (l : list A) :
  (0 ≤ k)%Z → slice 0 k l = take (Z.to_nat k) l.
Proof.
  intros Hk. unfold slice. simpl.
  replace (0 <? 0)%Z with false by done.
  destruct (Z.ltb_spec k 0); [lia|].
  rewrite (Z.min_l 0) by lia. rewrite Z.sub_0_r.
  change (Z.to_nat 0) with 0%nat. rewrite drop_0.
  destruct (Z.min_spec k (Z.of_nat (length l))) as [[? ->]|[? ->]]; [done|].
  rewrite !take_ge; [done|lia..].
Qed.

Lemma slice_from_last (n : nat) (l : list A) :
  (0 < n ≤ length l)%nat → slice_from (- Z.of_nat n) l = drop (length l - n) l.
Proof.
  intros Hn. unfold slice_from, slice.
  destruct (Z.ltb_spec (- Z.of_nat n) 0); [|lia].
  destruct (Z.ltb_spec (Z.of_nat (length l)) 0); [lia|].
  rewrite Z.max_l, Z.min_l by lia.
  replace (Z.to_nat (Z.of_nat (length l) + - Z.of_nat n)) with (length l - n)%nat by lia.
  apply take_ge. rewrite length_drop. lia.
Qed.

(** Sorting by a numeric key, largest first: [cmp a b = key b - key a]. *)
Variable key : A → Z.
Let cmp (a b : A) : Z := (key b - key a)%Z.

Lemma sort_insert_perm (x : A) (l : list A) : sort_insert cmp x l ≡ₚ x :: l.
Proof.
  induction l as [|y l IH]; simpl; [done|].
  destruct (cmp x y <=? 0)%Z; [done|].
  rewrite IH. apply Permutation_swap.
Qed.

Lemma sort_perm (l : list A) : sort cmp l ≡ₚ l.
Proof.
  induction l as [|x l IH]; simpl; [done|].
  rewrite sort_insert_perm. by rewrite IH.
Qed.

Lemma sort_insert_descending (x : A) (l : list A) :
  descending key l → descending key (sort_insert cmp x l).
Proof.
  unfold descending. induction 1 as [|y l Hl IH Hy]; simpl.
  - repeat constructor.
  - unfold cmp at 1. destruct (Z.leb_spec (key y - key x) 0).
    + constructor; [by constructor|].
      constructor; [lia|]. eapply Forall_impl; [exact Hy|]. simpl. intros; lia.
    + constructor; [done|].
      rewrite sort_insert_perm. constructor; [lia|done].
Qed.

Lemma sort_descending (l : list A) : descending key (sort cmp l).
Proof.
  induction l as [|x l IH]; simpl; [constructor|].
  by apply sort_insert_descending.
Qed.

(** Stability: elements with the same key keep their order. *)
Lemma sort_insert_stable (s : Z) (x : A) (l : list A) :
  filter (λ a, key a = s) (sort_insert cmp x l) = filter (λ a, key a = s) (x :: l).
Proof.
  induction l as [|y l IH]; simpl; [done|].
  unfold cmp at 1. destruct (Z.leb_spec (key y - key x) 0); [done|].
  rewrite filter_cons, IH, !filter_cons.
  destruct (decide (key y = s)), (decide (key x = s)); try done. lia.
Qed.

Lemma sort_stable (s : Z) (l : list A) :
  filter (λ a, key a = s) (sort cmp l) = filter (λ a, key a = s) l.
Proof.
  induction l as [|x l IH]; simpl; [done|].
  rewrite sort_insert_stable, !filter_cons, IH. done.
Qed.

Lemma filter_take_prefix (P : A → Prop) `{∀ a, Decision (P a)} (n : nat) (l : list A) :
  filter P (take n l) `prefix_of` filter P l.
Proof.
  exists (filter P (drop n l)). by rewrite <- filter_app, take_drop.
Qed.

Lemma descending_take (n : nat) (l : list A) : descending key l → descending key (take n l).
Proof.
  unfold descending. intros Hl. revert n.
  induction Hl as [|y l Hl IH Hy]; intros [|n]; simpl; try constructor; [by apply IH|].
  eapply Forall_forall. intros z Hz. eapply Forall_forall in Hy; [exact Hy|].
  eapply subseteq_take; eauto.
Qed.

End primitives.

(** ** Facts about the knowledge base *)

Section knowledge_base.

Import KnowledgeBase.

Lemma termScore_from (text : string) (terms : list string) (acc : Z) :
  (acc ≤ fold_left (fun score term => if includes text term then (score + 1)%Z else score)
                   terms acc
       ≤ acc + Z.of_nat (length terms))%Z.
Proof.
  revert acc. induction terms as [|t terms IH]; intros acc; simpl; [lia|].
  destruct (includes text t); [specialize (IH (acc + 1)%Z)|specialize (IH acc)]; lia.
Qed.

Lemma termScore_bounds (text : string) (terms : list string) :
  (0 ≤ termScore text terms ≤ Z.of_nat (length terms))%Z.
Proof. apply (termScore_from text terms 0). Qed.

Lemma scoreDocuments_from (terms : list string) (docs : Documents) (acc : list Fragment) :
  fold_left
    (fun results kd =>
       let doc := snd kd in
       let score := termScore (searchableText doc) terms in
       if (0 <? score)%Z
       then results ++
            [ {| frag_doc := doc;
                 score := score;
                 relevance :=
                   Qmin (inject_Z score / inject_Z (Z.of_nat (length terms))) 1 |} ]
       else results)
    docs acc
  = acc ++ omap (fragmentOf terms) (values docs).
Proof.
  revert acc. induction docs as [|[k d] docs IH]; intros acc; simpl.
  - by rewrite app_nil_r.
  - rewrite IH. unfold fragmentOf at 2.
    destruct (0 <? termScore (searchableText d) terms)%Z; [|done].
    by rewrite <- app_assoc.
Qed.

Lemma scoreDocuments_omap (terms : list string) (docs : Documents) :
  scoreDocuments terms docs = omap (fragmentOf terms) (values docs).
Proof. apply (scoreDocuments_from terms docs []). Qed.

Lemma fragmentOf_wellScored (terms : list string) (d : Document) (f : Fragment) :
  fragmentOf terms d = Some f → frag_doc f = d ∧ wellScored terms f.
Proof.
  unfold fragmentOf, wellScored.
  destruct (Z.ltb_spec 0 (termScore (searchableText d) terms)); [|done].
  intros [= <-]. simpl. pose proof (termScore_bounds (searchableText d) terms).
  repeat split; [done|lia].
Qed.

Lemma scoreDocuments_wellScored (terms : list string) (docs : Documents) :
  Forall (wellScored terms) (scoreDocuments terms docs).
Proof.
  rewrite scoreDocuments_omap. apply Forall_forall. intros f Hf.
  apply list_elem_of_omap in Hf as (d & _ & Hd).
  by apply fragmentOf_wellScored in Hd as [_ ?].
Qed.

(** The fragments of one score are the documents of that score, in the
    order of the index. *)
Lemma scoreDocuments_ties (terms : list string) (docs : Documents) (s : Z) :
  (0 < s)%Z →
  frag_doc <$> filter (λ f, score f = s) (scoreDocuments terms docs)
  = filter (λ d, termScore (searchableText d) terms = s) (values docs).
Proof.
  intros Hs. rewrite scoreDocuments_omap.
  induction (values docs) as [|d ds IH]; simpl; [done|].
  rewrite filter_cons. unfold fragmentOf at 1.
  destruct (Z.ltb_spec 0 (termScore (searchableText d) terms)).
  - rewrite filter_cons. simpl. case_decide; simpl; [f_equal|]; exact IH.
  - case_decide; [lia|exact IH].
Qed.

Lemma wellScored_relevance_range (terms : list string) (f : Fragment) :
  wellScored terms f → (0 <= relevance f)%Q ∧ (relevance f <= 1)%Q.
Proof.
  intros ([Hpos Hle] & _ & ->). split; [|apply Q.le_min_r].
  apply Q.min_glb; [|done].
  apply Qle_shift_div_l.
  - change 0%Q with (inject_Z 0). rewrite <- Zlt_Qlt. lia.
  - rewrite Qmult_0_l. change 0%Q with (inject_Z 0). rewrite <- Zle_Qle. lia.
Qed.

Lemma wellScored_relevance_mono (terms : list string) (a b : Fragment) :
  wellScored terms a → wellScored terms b →
  (score b ≤ score a)%Z → (relevance b <= relevance a)%Q.
Proof.
  intros ([Ha ?] & _ & ->) ([Hb ?] & _ & ->) Hab.
  apply Q.min_le_compat_r.
  apply Qmult_le_compat_r.
  - by rewrite <- Zle_Qle.
  - apply Qinv_le_0_compat. change 0%Q with (inject_Z 0). rewrite <- Zle_Qle. lia.
Qed.

End knowledge_base.

Section search.

Import KnowledgeBase.

Lemma StronglySorted_on {A} (P : A → Prop) (R R' : relation A) (l : list A) :
  (∀ a b, P a → P b → R a b → R' a b) →
  Forall P l → StronglySorted R l → StronglySorted R' l.
Proof.
  intros HR HP Hl. induction Hl as [|x l Hl IH Hx]; [constructor|].
  apply Forall_cons in HP as [Px Pl]. constructor; [by apply IH|].
  apply Forall_forall. intros y Hy.
  apply HR; [done| |].
  - by eapply Forall_forall in Pl.
  - by eapply Forall_forall in Hx.
Qed.

Lemma sort_constant {A} (key : A → Z) (c : Z) (l : list A) :
  Forall (λ a, key a = c) l → sort (λ a b, (key b - key a)%Z) l = l.
Proof.
  induction 1 as [|x l Hx Hl IH]; simpl; [done|].
  rewrite IH. destruct Hl as [|y l Hy _]; simpl; [done|].
  destruct (Z.leb_spec (key y - key x) 0); [done|lia].
Qed.

Lemma searchDocuments_limited (docs : Documents) (query : string) (k : Z) :
  (0 < k)%Z →
  searchDocuments docs query {| limit := Some k |}
  = take (Z.to_nat k)
      (sort byScoreDescending (scoreDocuments (split " " (toLowerCase query)) docs)).
Proof.
  intros Hk. unfold searchDocuments, truthy_Z. simpl.
  destruct (Z.eqb_spec k 0); [lia|]. simpl.
  apply slice_0_take. lia.
Qed.

Lemma searchDocuments_unlimited (docs : Documents) (query : string) (k : option Z) :
  k = None ∨ k = Some 0%Z →
  searchDocuments docs query {| limit := k |}
  = sort byScoreDescending (scoreDocuments (split " " (toLowerCase query)) docs).
Proof. by intros [-> | ->]. Qed.

End search.

(** ** Knowledge search *)

Section search_claims.

Import KnowledgeBase.

(** C1, on the code.  The empty query does not yield the empty sequence:
    its only search term is the empty string, which every searchable text
    includes, so every document scores 1 and the search returns the
    first [k] documents of the index, each with score 1 and relevance 1. *)
Theorem search_empty_query_returns_documents (docs : Documents) (k : Z) :
  (0 < k)%Z →
  let found := searchDocuments docs "" {| limit := Some k |} in
  frag_doc <$> found = take (Z.to_nat k) (values docs)
  ∧ Forall (λ f, score f = 1%Z ∧ (relevance f == 1)%Q) found.
Proof.
  intros Hk found. subst found. rewrite searchDocuments_limited by done.
  change (split " " (toLowerCase "")) with [""].
  assert (scoreDocuments [""] docs
          = (λ d, {| frag_doc := d; score := 1; relevance := Qmin (inject_Z 1 / inject_Z 1) 1 |})
              <$> values docs) as ->.
  { rewrite scoreDocuments_omap. rewrite list_fmap_alt.
    apply list_omap_ext, Forall2_same_length_lookup_2; [done|].
    intros i d d' Hd Hd'. assert (d' = d) as -> by congruence.
    unfold fragmentOf, termScore. simpl. by rewrite includes_nil. }
  unfold byScoreDescending. rewrite (sort_constant score 1).
  - split.
    + rewrite fmap_take, <- list_fmap_compose. f_equal. apply list_fmap_id.
    + apply Forall_forall. intros f Hf%subseteq_take.
      apply list_elem_of_fmap in Hf as (d & -> & _). done.
  - apply Forall_forall. intros f Hf.
    apply list_elem_of_fmap in Hf as (d & -> & _). done.
Qed.

Lemma search_empty_query_witness :
  (0 < 5)%Z
  ∧ frag_doc <$> searchDocuments Scenario.index "" {| limit := Some 5%Z |}
    = [Scenario.pricing; Scenario.faq].
Proof.
  split; [lia|].
  apply (search_empty_query_returns_documents Scenario.index 5). lia.
Defined.

(** C3, as the code has it.  For a positive limit [k] the search returns
    at most [k] fragments, in non-increasing order of score and hence of
    relevance; the fragments of one score are the first documents of
    that score in the order of the index; and every relevance is
    [min(score / termCount, 1)], which lies between 0 and 1. *)
Theorem search_ranked_and_bounded (docs : Documents) (query : string) (k : Z) :
  (0 < k)%Z →
  let searchTerms := split " " (toLowerCase query) in
  let found := searchDocuments docs query {| limit := Some k |} in
  (Z.of_nat (length found) ≤ k)%Z
  ∧ StronglySorted (λ a b, (score b ≤ score a)%Z) found
  ∧ StronglySorted (λ a b, (relevance b <= relevance a)%Q) found
  ∧ (∀ s, (0 < s)%Z →
       frag_doc <$> filter (λ f, score f = s) found
       `prefix_of` filter (λ d, termScore (searchableText d) searchTerms = s) (values docs))
  ∧ Forall (λ f,
       relevance f
       = Qmin (inject_Z (score f) / inject_Z (Z.of_nat (length searchTerms))) 1
       ∧ (0 <= relevance f)%Q ∧ (relevance f <= 1)%Q) found.
Proof.
  intros Hk searchTerms found. subst found.
  rewrite searchDocuments_limited by done. fold searchTerms.
  set (scored := scoreDocuments searchTerms docs).
  set (sorted := sort byScoreDescending scored).
  assert (Forall (wellScored searchTerms) (take (Z.to_nat k) sorted)) as Hwell.
  { apply Forall_forall. intros f Hf%subseteq_take.
    pose proof (scoreDocuments_wellScored searchTerms docs) as Hall.
    eapply Forall_forall in Hall; [exact Hall|].
    unfold sorted, byScoreDescending in Hf. by rewrite sort_perm in Hf. }
  assert (descending score (take (Z.to_nat k) sorted)) as Hdesc.
  { apply descending_take, sort_descending. }
  split; [rewrite length_take; lia|].
  split; [exact Hdesc|].
  split.
  { eapply StronglySorted_on; [|exact Hwell|exact Hdesc].
    intros a b Ha Hb. by apply wellScored_relevance_mono with searchTerms. }
  split.
  { intros s Hs. rewrite <- scoreDocuments_ties by done. fold scored.
    rewrite <- (sort_stable score s scored).
    destruct (filter_take_prefix (λ f, score f = s) (Z.to_nat k) sorted) as [rest Hrest].
    exists (frag_doc <$> rest). fold byScoreDescending. fold sorted.
    by rewrite Hrest, fmap_app. }
  eapply Forall_impl; [exact Hwell|]. intros f Hf.
  split; [apply Hf|]. by apply wellScored_relevance_range with searchTerms.
Qed.

Lemma search_ranked_and_bounded_witness :
  (0 < 1)%Z
  ∧ (Z.of_nat (length (searchDocuments Scenario.index "basic plan" {| limit := Some 1%Z |}))
     ≤ 1)%Z.
Proof.
  split; [lia|].
  apply (search_ranked_and_bounded Scenario.index "basic plan" 1). lia.
Defined.

(** C3, as stated, fails at the limit 0: a falsy limit is no limit, and
    the search returns both matching documents. *)
Lemma search_limit_zero_counterexample :
  ¬ (Z.of_nat (length (searchDocuments Scenario.index "plan" {| limit := Some 0%Z |})) ≤ 0)%Z.
Proof. vm_compute. intros H. by apply H. Qed.

End search_claims.

(** ** Facts about the agent *)

Section agent.

Import KnowledgeBase ProviderFactory Agent AgentView.

Variable env : Env.

(** The blocking operation, stage by stage. *)
Lemma generateResponse_stages (userMessage : Content) (options : Options) (w : World) :
  generateResponse env userMessage options w =
  match knowledgeBase env (searchQueryOf userMessage) {| limit := Some 5%Z |} with
  | Throw e => (Throw ("Agent error: " +:+ e), w)
  | Ok docs =>
      match createProvider (or_string (opt_provider options) (defaultProvider (llm env))) with
      | Throw e => (Throw ("Agent error: " +:+ e), w)
      | Ok provider =>
          let i := invocation env false provider docs userMessage options w in
          match vendorResponse env provider (inv_messages i) (inv_options i) with
          | Throw e => (Throw ("Agent error: " +:+ e), logged i w)
          | Ok response =>
              (Ok {| reply_response := response;
                     reply_documents := map summarize docs |},
               {| this :=
                    storeHistory (opt_sessionId options)
                      (trim (historyForSession (this w) (opt_sessionId options)
                               ++ turn userMessage response))
                      (this w);
                  invocations := invocations w ++ [i] |})
          end
      end
  end.
Proof.
  unfold generateResponse, try_catch, bind, searchKnowledge, lift, self, invoke, throw, ret.
  destruct (knowledgeBase env _ _) as [docs|e]; [|done].
  destruct (createProvider _) as [provider|e]; [|done].
  simpl. destruct (vendorResponse env _ _ _) as [response|e]; [|done].
  unfold storeHistory, trim, turn, setSessionHistory, setConversationHistory.
  by destruct (truthy_string (opt_sessionId options)).
Qed.

(** The streaming operation, stage by stage. *)
Lemma generateStreamResponse_stages (userMessage : Content) (options : Options) (w : World) :
  generateStreamResponse env userMessage options w =
  match knowledgeBase env (searchQueryOf userMessage) {| limit := Some 5%Z |} with
  | Throw e => (Throw ("Agent streaming error: " +:+ e), w)
  | Ok docs =>
      match createProvider (or_string (opt_provider options) (defaultProvider (llm env))) with
      | Throw e => (Throw ("Agent streaming error: " +:+ e), w)
      | Ok provider =>
          let i := invocation env true provider docs userMessage options w in
          match vendorStream env provider (inv_messages i) (inv_options i) with
          | Throw e => (Throw ("Agent streaming error: " +:+ e), logged i w)
          | Ok stream =>
              (Ok {| reply_stream := stream;
                     stream_documents := map summarize docs |},
               logged i w)
          end
      end
  end.
Proof.
  unfold generateStreamResponse, try_catch, bind, searchKnowledge, lift, self,
    invokeStream, throw, ret.
  destruct (knowledgeBase env _ _) as [docs|e]; [|done].
  destruct (createProvider _) as [provider|e]; [|done].
  simpl. by destruct (vendorStream env _ _ _) as [stream|e].
Qed.

Lemma historyForSession_storeHistory (sessionId : option string) (h : list Message)
      (fields : Fields) :
  historyForSession (storeHistory sessionId h fields) sessionId = h.
Proof.
  unfold historyForSession, storeHistory.
  destruct (truthy_string sessionId); simpl; [|done].
  by rewrite lookup_insert_eq.
Qed.

Lemma trim_last (h : list Message) :
  (20 < length h)%nat → trim h = drop (length h - 20) h.
Proof.
  intros Hlen. unfold trim. destruct (Nat.ltb_spec 20 (length h)); [|lia].
  apply (slice_from_last 20). lia.
Qed.

Lemma trim_short (h : list Message) : (length h ≤ 20)%nat → trim h = h.
Proof. intros Hlen. unfold trim. by destruct (Nat.ltb_spec 20 (length h)); [lia|]. Qed.

Lemma app_singleton_neq {A} (l : list A) (x : A) : l ++ [x] ≠ l.
Proof. intros H%(f_equal length). rewrite length_app in H. simpl in H. lia. Qed.

End agent.
(** ** The agent's operations *)

Section agent_claims.

Import KnowledgeBase ProviderFactory Agent AgentView.

(** C2, as the code has it.  A completed call appends the user turn and
    the assistant turn and keeps the last 20 messages of the result:
    whatever exceeds 20 is dropped from the head.  A session that holds
    21 messages holds 23 after the append, so the call drops the
    messages 1 to 3 and retains the messages 4 to 23. *)
Theorem respond_keeps_last_twenty (env : Env) (userMessage : Content) (options : Options)
        (w w' : World) (reply : Reply) :
  generateResponse env userMessage options w = (Ok reply, w') →
  let sessionId := opt_sessionId options in
  let updated :=
    historyForSession (this w) sessionId ++ turn userMessage (reply_response reply) in
  let retained := historyForSession (this w') sessionId in
  ((20 < length updated)%nat →
     retained = drop (length updated - 20) updated
     ∧ length retained = 20%nat
     ∧ (retained `suffix_of` updated))
  ∧ ((length updated ≤ 20)%nat → retained = updated)
  ∧ (length (historyForSession (this w) sessionId) = 21%nat →
     retained = drop 3 updated).
Proof.
  rewrite generateResponse_stages.
  destruct (knowledgeBase env _ _) as [docs|e]; [|done].
  destruct (createProvider _) as [provider|e]; [|done].
  simpl. destruct (vendorResponse env _ _ _) as [response|e]; [|done].
  intros [= <- <-]. simpl. rewrite historyForSession_storeHistory.
  set (updated := historyForSession (this w) (opt_sessionId options)
                    ++ turn userMessage response).
  assert (∀ n, (20 < length updated)%nat → n = (length updated - 20)%nat →
               trim updated = drop n updated
               ∧ length (trim updated) = 20%nat
               ∧ (trim updated `suffix_of` updated)) as Hlast.
  { intros n Hlen ->. rewrite trim_last by done.
    split; [done|]. split; [rewrite length_drop; lia|apply suffix_drop]. }
  split; [by intros; apply Hlast|].
  split; [apply trim_short|].
  intros H21. apply Hlast; unfold updated; rewrite length_app, H21; simpl; lia.
Qed.

Lemma respond_keeps_last_twenty_witness :
  generateResponse Session.env (Text "V") (Session.inSession "s1") (Session.holding 21)
  = (Ok {| reply_response := Session.answer;
           reply_documents := [] |},
     snd (generateResponse Session.env (Text "V") (Session.inSession "s1")
            (Session.holding 21)))
  ∧ historyForSession
      (this (snd (generateResponse Session.env (Text "V") (Session.inSession "s1")
                    (Session.holding 21))))
      (Some "s1")
    = drop 3 ((Session.message <$> seq 1 21)
                ++ turn (Text "V") Session.answer).
Proof.
  assert (generateResponse Session.env (Text "V") (Session.inSession "s1") (Session.holding 21)
          = (Ok {| reply_response := Session.answer; reply_documents := [] |},
             snd (generateResponse Session.env (Text "V") (Session.inSession "s1")
                    (Session.holding 21)))) as Hrun by (by vm_compute).
  split; [exact Hrun|].
  apply (respond_keeps_last_twenty _ _ _ _ _ _ Hrun). by vm_compute.
Defined.

(** C2, as stated, fails: of a session that holds the messages 1 to 21,
    one more call (user turn 22, assistant turn 23) does not retain the
    messages 2 to 22, for it drops the messages 2 and 3 along with 1. *)
Lemma history_of_21_counterexample :
  let all := (Session.message <$> seq 1 21) ++ turn (Text "V") Session.answer in
  let w' := snd (generateResponse Session.env (Text "V") (Session.inSession "s1")
                   (Session.holding 21)) in
  let retained := historyForSession (this w') (Some "s1") in
  ¬ ((Session.message 1 ∉ retained)
     ∧ ∀ n m, (2 ≤ n ≤ 22)%nat → all !! (n - 1)%nat = Some m → m ∈ retained).
Proof.
  intros all w' retained [_ Hin].
  specialize (Hin 2%nat (Session.message 2)).
  assert (Session.message 2 ∈ retained) as H2 by (apply Hin; [lia|done]).
  apply list_elem_of_In in H2. vm_compute in H2.
  repeat (destruct H2 as [H2|H2]; [discriminate H2|]). exact H2.
Qed.


(** C7.  The streaming operation leaves the session map and the unscoped
    history as they were, whether it returns or throws; the blocking
    operation, when it returns, stores the history extended by the user
    and assistant turns, and when it throws stores nothing. *)
Theorem streaming_leaves_history (env : Env) (userMessage : Content) (options : Options)
        (w : World) :
  let streamed := snd (generateStreamResponse env userMessage options w) in
  sessionHistories (this streamed) = sessionHistories (this w)
  ∧ conversationHistory (this streamed) = conversationHistory (this w)
  ∧ match generateResponse env userMessage options w with
    | (Ok reply, w') =>
        historyForSession (this w') (opt_sessionId options)
        = trim (historyForSession (this w) (opt_sessionId options)
                  ++ turn userMessage (reply_response reply))
    | (Throw _, w') => this w' = this w
    end.
Proof.
  rewrite generateStreamResponse_stages, generateResponse_stages.
  destruct (knowledgeBase env _ _) as [docs|e]; [|done].
  destruct (createProvider _) as [provider|e]; [|done].
  simpl. split; [by destruct (vendorStream env _ _ _)|].
  split; [by destruct (vendorStream env _ _ _)|].
  destruct (vendorResponse env _ _ _) as [response|e]; [|done].
  simpl. apply historyForSession_storeHistory.
Qed.

(** C10.  When the blocking operation throws, the error is the wrapped
    agent error and the object is as it was before the call; and it does
    throw when the knowledge search, the provider resolution or the
    vendor call throws. *)
Theorem failed_respond_stores_nothing (env : Env) (userMessage : Content)
        (options : Options) (w : World) :
  let run := generateResponse env userMessage options w in
  let search := knowledgeBase env (searchQueryOf userMessage) {| limit := Some 5%Z |} in
  let resolved :=
    createProvider (or_string (opt_provider options) (defaultProvider (llm env))) in
  (∀ e, fst run = Throw e →
     (∃ m, e = "Agent error: " +:+ m)
     ∧ sessionHistories (this (snd run)) = sessionHistories (this w)
     ∧ conversationHistory (this (snd run)) = conversationHistory (this w))
  ∧ (∀ m, search = Throw m → fst run = Throw ("Agent error: " +:+ m))
  ∧ (∀ docs m, search = Ok docs → resolved = Throw m →
       fst run = Throw ("Agent error: " +:+ m))
  ∧ (∀ docs provider m, search = Ok docs → resolved = Ok provider →
       vendorResponse env provider
         (prepareMessages (this w) (buildContext docs)
            (historyForSession (this w) (opt_sessionId options)) userMessage)
         (callOptions env options) = Throw m →
       fst run = Throw ("Agent error: " +:+ m)).
Proof.
  intros run search resolved. subst run search resolved.
  rewrite generateResponse_stages.
  destruct (knowledgeBase env _ _) as [docs|e1].
  2:{ repeat split; intros; simplify_eq/=; eauto. }
  destruct (createProvider _) as [provider|e2].
  2:{ repeat split; intros; simplify_eq/=; eauto. }
  simpl. destruct (vendorResponse env _ _ _) as [response|e3] eqn:Hvendor.
  - repeat split; intros; simplify_eq/=; congruence.
  - repeat split; intros; simplify_eq/=; eauto; congruence.
Qed.

Lemma failed_respond_stores_nothing_witness :
  (fst (generateResponse Session.env (Text "hello") (Session.withProvider "llama-farm")
          (Session.holding 4))
   = Throw "Agent error: Unsupported provider: llama-farm"
   ∧ sessionHistories
       (this (snd (generateResponse Session.env (Text "hello")
                     (Session.withProvider "llama-farm") (Session.holding 4))))
     = sessionHistories (this (Session.holding 4)))
  ∧ (knowledgeBase Session.searchDown (searchQueryOf (Text "hello")) {| limit := Some 5%Z |}
     = Throw "index unavailable"
     ∧ fst (generateResponse Session.searchDown (Text "hello") (Session.inSession "s1")
              (Session.holding 4))
       = Throw "Agent error: index unavailable")
  ∧ (fst (generateResponse Session.vendorDown (Text "hello") (Session.inSession "s1")
            (Session.holding 4))
     = Throw "Agent error: OpenAI API error: 401 Incorrect API key provided"
     ∧ sessionHistories
         (this (snd (generateResponse Session.vendorDown (Text "hello")
                       (Session.inSession "s1") (Session.holding 4))))
       = sessionHistories (this (Session.holding 4))).
Proof.
  split; [|split].
  - split; [by vm_compute|].
    destruct (failed_respond_stores_nothing Session.env (Text "hello")
                (Session.withProvider "llama-farm") (Session.holding 4)) as [Hthrown _].
    apply (Hthrown "Agent error: Unsupported provider: llama-farm"). by vm_compute.
  - split; [reflexivity|].
    destruct (failed_respond_stores_nothing Session.searchDown (Text "hello")
                (Session.inSession "s1") (Session.holding 4)) as (_ & Hsearch & _).
    apply Hsearch. reflexivity.
  - destruct (failed_respond_stores_nothing Session.vendorDown (Text "hello")
                (Session.inSession "s1") (Session.holding 4)) as (Hthrown & _ & _ & Hvendor).
    assert (fst (generateResponse Session.vendorDown (Text "hello") (Session.inSession "s1")
                   (Session.holding 4))
            = Throw "Agent error: OpenAI API error: 401 Incorrect API key provided") as Hrun.
    { eapply Hvendor; reflexivity. }
    split; [exact Hrun|]. apply (Hthrown _ Hrun).
Defined.

End agent_claims.

(** ** What the adapter is invoked with *)

Section invocation_claims.

Import KnowledgeBase ProviderFactory Agent AgentView.




Lemma generateResponse_invocation (env : Env) (userMessage : Content) (options : Options)
      (w : World) (i : Invocation) :
  invocations (snd (generateResponse env userMessage options w)) = invocations w ++ [i] →
  ∃ docs provider,
    knowledgeBase env (searchQueryOf userMessage) {| limit := Some 5%Z |} = Ok docs
    ∧ createProvider (or_string (opt_provider options) (defaultProvider (llm env)))
      = Ok provider
    ∧ i = invocation env false provider docs userMessage options w.
Proof.
  rewrite generateResponse_stages.
  destruct (knowledgeBase env _ _) as [docs|e].
  2:{ simpl. intros H. symmetry in H. by apply app_singleton_neq in H. }
  destruct (createProvider _) as [provider|e].
  2:{ simpl. intros H. symmetry in H. by apply app_singleton_neq in H. }
  simpl. destruct (vendorResponse env _ _ _); simpl;
    intros [= <-]%app_inv_head; eauto.
Qed.



(** C9, on the code.  A caller who supplies the temperature 0
    and the token limit 0 has the adapter invoked with the configured
    defaults instead: [||] takes 0 for a missing value. *)
Theorem zero_options_replaced_by_defaults (env : Env) (userMessage : Content)
        (options : Options) (w : World) (i : Invocation) :
  opt_temperature options = Some 0%Q →
  opt_maxTokens options = Some 0%Z →
  invocations (snd (generateResponse env userMessage options w)) = invocations w ++ [i] →
  call_temperature (inv_options i) = temperature (llm env)
  ∧ call_maxTokens (inv_options i) = maxTokens (llm env).
Proof.
  intros Htemp Htok Hlog.
  apply generateResponse_invocation in Hlog as (docs & provider & _ & _ & ->).
  simpl. unfold or_Q, or_Z. by rewrite Htemp, Htok.
Qed.

Lemma zero_options_witness :
  opt_temperature Session.zeroed = Some 0%Q
  ∧ opt_maxTokens Session.zeroed = Some 0%Z
  ∧ ∃ i, invocations (snd (generateResponse Session.env (Text "hello") Session.zeroed
                             Session.fresh)) = invocations Session.fresh ++ [i]
         ∧ inv_options i
           = {| call_model := "gpt-4o"; call_maxTokens := 4000; call_temperature := 7 # 10 |}
         ∧ call_temperature (inv_options i) = temperature (llm Session.env)
         ∧ call_maxTokens (inv_options i) = maxTokens (llm Session.env).
Proof.
  split; [reflexivity|]. split; [reflexivity|].
  eexists. split; [by vm_compute|]. split; [by vm_compute|].
  apply (zero_options_replaced_by_defaults Session.env (Text "hello") Session.zeroed
           Session.fresh); [reflexivity..|by vm_compute].
Defined.

(** What the caller supplies and [||] takes for present is passed on as
    it is. *)
Lemma supplied_options_passed (env : Env) (options : Options)
      (model : string) (tokens : Z) (temp : Q) :
  opt_model options = Some model → model ≠ "" →
  opt_maxTokens options = Some tokens → tokens ≠ 0%Z →
  opt_temperature options = Some temp → ¬ (temp == 0)%Q →
  callOptions env options
  = {| call_model := model; call_maxTokens := tokens; call_temperature := temp |}.
Proof.
  intros Hmodel Hm Htok Hk Htemp Ht. unfold callOptions.
  rewrite Hmodel, Htok, Htemp. unfold or_string, or_Z, or_Q. simpl.
  destruct (String.eqb_spec model ""); [done|].
  destruct (Z.eqb_spec tokens 0); [done|].
  destruct (Qeq_bool temp 0) eqn:E; [by apply Qeq_bool_eq in E|done].
Qed.

End invocation_claims.

(** ** Provider resolution *)

Section resolution_claims.

Import KnowledgeBase ProviderFactory Agent AgentView.






End resolution_claims.

(** ** Image parts *)

Section image_claims.

Lemma split_without (sep : ascii) (s : string) :
  hasChar sep s = false → split sep s = [s].
Proof.
  induction s as [|c s IH]; simpl; [done|].
  destruct (Ascii.eqb c sep); simpl; [done|]. intros H. by rewrite IH.
Qed.

Lemma split_at_first (sep : ascii) (a b : string) :
  hasChar sep a = false →
  split sep (a +:+ String sep b) = a :: split sep b.
Proof.
  induction a as [|c a IH].
  - intros _. rewrite append_nil_l. simpl. by rewrite Ascii.eqb_refl.
  - rewrite append_cons. simpl.
    destruct (Ascii.eqb c sep); simpl; [done|]. intros H. by rewrite IH.
Qed.

Lemma hasChar_append (c : ascii) (a b : string) :
  hasChar c (a +:+ b) = hasChar c a || hasChar c b.
Proof.
  induction a as [|x a IH]; [done|].
  rewrite append_cons. simpl. by rewrite IH, orb_assoc.
Qed.

Lemma dataURL_payload (mime payload : string) :
  hasChar "," mime = false → hasChar "," payload = false →
  split "," (dataURL mime payload) !! 1%nat = Some payload.
Proof.
  intros Hmime Hpayload. unfold dataURL.
  replace ("data:" +:+ mime +:+ ";base64," +:+ payload)
    with (("data:" +:+ mime +:+ ";base64") +:+ String "," payload).
  2:{ rewrite !append_assoc. done. }
  rewrite split_at_first.
  - by rewrite split_without.
  - by rewrite !hasChar_append, Hmime.
Qed.

(** C5, on the code.  Both adapters extract the payload of a data-URL,
    and both label it [image/jpeg] whatever media type the data-URL
    carries: the media type is a constant of the translation. *)
Theorem adapters_label_every_image_jpeg (mime payload : string) (detail : option string) :
  hasChar "," mime = false → hasChar "," payload = false →
  AnthropicProvider.formatItem (image_url_part (dataURL mime payload) detail)
  = AnthropicProvider.image_block
      {| AnthropicProvider.source_type := "base64";
         AnthropicProvider.media_type := "image/jpeg";
         AnthropicProvider.data := Some payload |}
  ∧ GoogleProvider.formatItem (image_url_part (dataURL mime payload) detail)
    = [ {| GoogleProvider.text := None;
           GoogleProvider.inline_data :=
             Some {| GoogleProvider.mime_type := "image/jpeg";
                     GoogleProvider.data := Some payload |} |} ].
Proof.
  intros Hmime Hpayload. unfold AnthropicProvider.formatItem, GoogleProvider.formatItem.
  by rewrite dataURL_payload.
Qed.

Lemma adapters_label_png_jpeg_witness :
  hasChar "," "image/png" = false
  ∧ hasChar "," "iVBORw0KGgo=" = false
  ∧ AnthropicProvider.formatItem
      (image_url_part "data:image/png;base64,iVBORw0KGgo=" None)
    = AnthropicProvider.image_block
        {| AnthropicProvider.source_type := "base64";
           AnthropicProvider.media_type := "image/jpeg";
           AnthropicProvider.data := Some "iVBORw0KGgo=" |}.
Proof.
  split; [reflexivity|]. split; [reflexivity|].
  apply (adapters_label_every_image_jpeg "image/png" "iVBORw0KGgo=" None); reflexivity.
Defined.

Example anthropic_png_message :
  AnthropicProvider.formatMessages
    [ {| role := system; content := Text "You are helpful." |};
      {| role := user;
         content := Parts [text_part "What is this?";
                           image_url_part "data:image/png;base64,iVBORw0KGgo=" None] |} ]
  = {| AnthropicProvider.system := Text "You are helpful.";
       AnthropicProvider.messages :=
         [ {| AnthropicProvider.role := user;
              AnthropicProvider.content :=
                AnthropicProvider.blocks
                  [ AnthropicProvider.text_block "What is this?";
                    AnthropicProvider.image_block
                      {| AnthropicProvider.source_type := "base64";
                         AnthropicProvider.media_type := "image/jpeg";
                         AnthropicProvider.data := Some "iVBORw0KGgo=" |} ] |} ] |}.
Proof. reflexivity. Qed.

Example openai_png_message :
  OpenAIProvider.formatItem (image_url_part "data:image/png;base64,iVBORw0KGgo=" None)
  = OpenAIProvider.image_url_item "data:image/png;base64,iVBORw0KGgo=" "auto".
Proof. reflexivity. Qed.

End image_claims.

(** ** Deleting a document *)

Section delete_claims.

Lemma get_delete (id : string) (docs : KnowledgeBase.Documents) :
  KnowledgeBase.get id (KnowledgeBase.delete id docs) = None.
Proof.
  induction docs as [|[k d] docs IH]; simpl; [done|].
  destruct (String.eqb_spec k id) as [->|Hne]; simpl; [done|].
  by destruct (String.eqb_spec k id).
Qed.

(** C8, on the code.  The local index answers a second delete with
    [Document not found]; the remote index has no such check and answers
    the second delete like the first, with success. *)
Theorem delete_twice (id : string) :
  (∀ st doc,
     KnowledgeBase.get id (KnowledgeBase.documents st) = Some doc →
     KnowledgeBase.doc_path doc ∈ KnowledgeBase.files st →
     ∃ st',
       KnowledgeBase.deleteDocument id st = (Ok true, st')
       ∧ KnowledgeBase.deleteDocument id st' = (Throw "Document not found", st'))
  ∧ (∀ rows,
       id ∈ rows →
       ∃ db',
         SupabaseKnowledgeBase.deleteDocument id
           {| SupabaseKnowledgeBase.rows := rows;
              SupabaseKnowledgeBase.reachable := true |} = (Ok true, db')
         ∧ (id ∉ SupabaseKnowledgeBase.rows db')
         ∧ SupabaseKnowledgeBase.deleteDocument id db' = (Ok true, db')).
Proof.
  split.
  - intros st doc Hget Hfile. unfold KnowledgeBase.deleteDocument at 1.
    rewrite Hget. unfold KnowledgeBase.unlink. rewrite decide_True by done.
    eexists. split; [done|].
    unfold KnowledgeBase.deleteDocument. simpl. by rewrite get_delete.
  - intros rows Hin. eexists. split; [done|]. simpl.
    split; [apply not_elem_of_difference; right; by apply elem_of_singleton|].
    unfold SupabaseKnowledgeBase.deleteDocument. simpl.
    by rewrite difference_twice_L.
Qed.

Lemma delete_twice_witness :
  (("doc-1" ∈ ({[ "doc-1"; "doc-2" ]} : gset string))
   ∧ ∃ db',
       SupabaseKnowledgeBase.deleteDocument "doc-1"
         {| SupabaseKnowledgeBase.rows := {[ "doc-1"; "doc-2" ]};
            SupabaseKnowledgeBase.reachable := true |} = (Ok true, db')
       ∧ ("doc-1" ∉ SupabaseKnowledgeBase.rows db')
       ∧ SupabaseKnowledgeBase.deleteDocument "doc-1" db' = (Ok true, db'))
  ∧ (KnowledgeBase.get "7f3c" (KnowledgeBase.documents Scenario.onDisk)
     = Some Scenario.pricing
     ∧ (KnowledgeBase.doc_path Scenario.pricing ∈ KnowledgeBase.files Scenario.onDisk)
     ∧ ∃ st',
         KnowledgeBase.deleteDocument "7f3c" Scenario.onDisk = (Ok true, st')
         ∧ KnowledgeBase.deleteDocument "7f3c" st' = (Throw "Document not found", st')).
Proof.
  split.
  - split; [compute_done|].
    apply (delete_twice "doc-1"). compute_done.
  - split; [reflexivity|]. split; [compute_done|].
    apply (proj1 (delete_twice "7f3c") Scenario.onDisk Scenario.pricing);
      [reflexivity|compute_done].
Defined.

End delete_claims.

(** ** The agent's state across calls *)

Section agent_state.

Import KnowledgeBase ProviderFactory Agent AgentView AgentState.

Lemma Exchanges_app (h1 h2 : list Message) :
  Exchanges h1 → Exchanges h2 → Exchanges (h1 ++ h2).
Proof. induction 1; simpl; [done|]. intros. constructor. auto. Qed.

Lemma Exchanges_even (h : list Message) : Exchanges h → ∃ k, length h = (2 * k)%nat.
Proof.
  induction 1 as [|u a rest _ [k Hk]]; [by exists 0%nat|].
  exists (S k). simpl. lia.
Qed.

Lemma Exchanges_drop (k : nat) (h : list Message) :
  Exchanges h → Exchanges (drop (2 * k) h).
Proof.
  intros Hh. revert k. induction Hh as [|u a rest Hrest IH]; intros k.
  - rewrite drop_nil. constructor.
  - destruct k as [|k]; [by constructor|].
    replace (2 * S k)%nat with (S (S (2 * k))) by lia. simpl. apply IH.
Qed.

Lemma Exchanges_turn (userMessage : Content) (response : Response) :
  Exchanges (turn userMessage response).
Proof. repeat constructor. Qed.

Lemma trim_Bounded (h : list Message) : Exchanges h → Bounded (trim h).
Proof.
  intros Hh. destruct (Nat.le_gt_cases (length h) 20) as [Hle|Hgt].
  - by rewrite trim_short.
  - rewrite trim_last by done. destruct (Exchanges_even h Hh) as [k Hk]. split.
    + replace (length h - 20)%nat with (2 * (k - 10))%nat by lia.
      by apply Exchanges_drop.
    + rewrite length_drop. lia.
Qed.

Lemma historyForSession_Bounded (fields : Fields) (sessionId : option string) :
  WellFormed fields → Bounded (historyForSession fields sessionId).
Proof.
  intros [Hconv Hsess]. unfold historyForSession.
  destruct (truthy_string sessionId); [|done].
  destruct (sessionHistories fields !! or_string sessionId "") as [h|] eqn:E; simpl.
  - by apply (Hsess _ _ E).
  - split; [constructor|simpl; lia].
Qed.

Lemma storeHistory_WellFormed (sessionId : option string) (h : list Message)
      (fields : Fields) :
  WellFormed fields → Bounded h → WellFormed (storeHistory sessionId h fields).
Proof.
  intros [Hconv Hsess] Hh. unfold storeHistory.
  destruct (truthy_string sessionId); split; cbn [sessionHistories conversationHistory];
    try done.
  intros sid h' Hlook. destruct (decide (sid = or_string sessionId "")) as [Heq|Hne].
  - subst sid. rewrite lookup_insert_eq in Hlook. by injection Hlook as <-.
  - rewrite lookup_insert_ne in Hlook by done. by apply (Hsess _ _ Hlook).
Qed.

Lemma after_WellFormed (env : Env) (c : Call) (w : World) :
  WellFormed (this w) → WellFormed (this (after env c w)).
Proof.
  intros Hw. destruct c as [userMessage options|userMessage options|prompt| |sessionId];
    simpl.
  - rewrite generateResponse_stages.
    destruct (knowledgeBase env _ _) as [docs|e]; [|done].
    destruct (createProvider _) as [provider|e]; [|done].
    simpl. destruct (vendorResponse env _ _ _) as [response|e]; [|done].
    simpl. apply storeHistory_WellFormed; [done|].
    apply trim_Bounded, Exchanges_app; [|apply Exchanges_turn].
    by apply historyForSession_Bounded.
  - rewrite generateStreamResponse_stages.
    destruct (knowledgeBase env _ _) as [docs|e]; [|done].
    destruct (createProvider _) as [provider|e]; [|done].
    simpl. by destruct (vendorStream env _ _ _).
  - done.
  - destruct Hw as [_ Hsess]. split; [|done]. split; [constructor|simpl; lia].
  - unfold clearHistoryForSession. destruct (truthy_string sessionId); simpl.
    + destruct Hw as [Hconv Hsess]. split; [done|]. simpl.
      intros sid h Hlook. apply lookup_delete_Some in Hlook as [_ Hlook].
      by apply (Hsess _ _ Hlook).
    + destruct Hw as [_ Hsess]. split; [|done]. split; [constructor|simpl; lia].
Qed.

(** X1.  In every world an agent can reach, each history (the unscoped one
    and that of every session) is a sequence of user/assistant exchanges of
    at most 20 messages. *)
Theorem reachable_histories_bounded (env : Env) (w : World) :
  Reachable env w → WellFormed (this w).
Proof.
  induction 1 as [systemPrompt|c w _ IH].
  - split; [split; [constructor|simpl; lia]|].
    intros sid h Hlook. cbn in Hlook. by rewrite lookup_empty in Hlook.
  - by apply after_WellFormed.
Qed.

Lemma reachable_histories_bounded_witness :
  Reachable Session.env
    (after Session.env (respond (Text "again") (Session.inSession "s1"))
       (after Session.env (respond (Text "hello") (Session.inSession "s1"))
          (create "You are helpful.")))
  ∧ length (historyForSession
              (this (after Session.env (respond (Text "again") (Session.inSession "s1"))
                       (after Session.env (respond (Text "hello") (Session.inSession "s1"))
                          (create "You are helpful."))))
              (Some "s1")) = 4%nat
  ∧ WellFormed
      (this (after Session.env (respond (Text "again") (Session.inSession "s1"))
               (after Session.env (respond (Text "hello") (Session.inSession "s1"))
                  (create "You are helpful.")))).
Proof.
  assert (Reachable Session.env
            (after Session.env (respond (Text "again") (Session.inSession "s1"))
               (after Session.env (respond (Text "hello") (Session.inSession "s1"))
                  (create "You are helpful.")))) as Hreach.
  { do 2 apply reach_call. apply reach_create. }
  split; [exact Hreach|]. split; [by vm_compute|].
  apply (reachable_histories_bounded Session.env _ Hreach).
Defined.

End agent_state.

Section agent_frames.

Import KnowledgeBase ProviderFactory Agent AgentView AgentState.

(** X2.  A blocking call touches one history only: the history of every
    other session is as it was, the system prompt is as it was, a call
    with a session id leaves the unscoped history alone and a call without
    one leaves the session map alone. *)
Theorem respond_touches_one_history (env : Env) (userMessage : Content) (options : Options)
        (w : World) (other : string) :
  opt_sessionId options ≠ Some other →
  let w' := snd (generateResponse env userMessage options w) in
  sessionHistories (this w') !! other = sessionHistories (this w) !! other
  ∧ systemPrompt (this w') = systemPrompt (this w)
  ∧ (if truthy_string (opt_sessionId options)
     then conversationHistory (this w') = conversationHistory (this w)
     else sessionHistories (this w') = sessionHistories (this w)).
Proof.
  intros Hother. simpl. rewrite generateResponse_stages.
  destruct (knowledgeBase env _ _) as [docs|e];
    [|by destruct (truthy_string (opt_sessionId options))].
  destruct (createProvider _) as [provider|e];
    [|by destruct (truthy_string (opt_sessionId options))].
  simpl. destruct (vendorResponse env _ _ _) as [response|e];
    [|by destruct (truthy_string (opt_sessionId options))].
  simpl. unfold storeHistory.
  destruct (opt_sessionId options) as [sid|] eqn:Hsid; [|done].
  destruct (truthy_string (Some sid)) eqn:Htruthy; [|done].
  cbn [sessionHistories conversationHistory systemPrompt].
  split; [|done]. apply lookup_insert_ne.
  unfold or_string. rewrite Htruthy. congruence.
Qed.

Lemma respond_touches_one_history_witness :
  opt_sessionId (Session.inSession "s2") ≠ Some "s1"
  ∧ sessionHistories
      (this (snd (generateResponse Session.env (Text "hello") (Session.inSession "s2")
                    (Session.holding 4)))) !! "s1"
    = Some (Session.message <$> seq 1 4)
  ∧ length (historyForSession
              (this (snd (generateResponse Session.env (Text "hello")
                            (Session.inSession "s2") (Session.holding 4))))
              (Some "s2")) = 2%nat.
Proof.
  assert (opt_sessionId (Session.inSession "s2") ≠ Some "s1") as Hne by done.
  split; [exact Hne|]. split; [|by vm_compute].
  destruct (respond_touches_one_history Session.env (Text "hello")
              (Session.inSession "s2") (Session.holding 4) "s1" Hne) as [-> _].
  by vm_compute.
Defined.

(** X3.  Clearing a session forgets its history and nothing else: the
    history read back is empty, the other sessions and the unscoped
    history are as they were; without a session id the unscoped history is
    the one cleared.  The next call in the cleared session sends the
    system message and the new user message only. *)
Theorem clear_forgets_one_history (env : Env) (sessionId : option string) (w : World) :
  let w' := snd (clearHistoryForSession sessionId w) in
  fst (getHistoryForSession sessionId w') = Ok []
  ∧ (∀ other, sessionId ≠ Some other →
       sessionHistories (this w') !! other = sessionHistories (this w) !! other)
  ∧ (if truthy_string sessionId
     then conversationHistory (this w') = conversationHistory (this w)
     else sessionHistories (this w') = sessionHistories (this w))
  ∧ (∀ userMessage options i,
       opt_sessionId options = sessionId →
       invocations (snd (generateResponse env userMessage options w'))
       = invocations w' ++ [i] →
       ∃ prompt, inv_messages i
                 = [ {| role := system; content := Text prompt |};
                     {| role := user; content := userMessage |} ]).
Proof.
  assert (historyForSession (this (snd (clearHistoryForSession sessionId w))) sessionId = [])
    as Hempty.
  { unfold clearHistoryForSession, historyForSession.
    destruct (truthy_string sessionId) eqn:Htruthy; simpl; rewrite ?Htruthy; [|done].
    by rewrite lookup_delete_eq. }
  simpl. split; [|split; [|split]].
  - unfold getHistoryForSession, getHistory. revert Hempty. unfold historyForSession.
    destruct (truthy_string sessionId); simpl; by intros ->.
  - intros other Hother. unfold clearHistoryForSession.
    destruct sessionId as [sid|]; [|done].
    destruct (truthy_string (Some sid)) eqn:Htruthy; [|done].
    cbn [snd this sessionHistories]. apply lookup_delete_ne.
    unfold or_string. rewrite Htruthy. congruence.
  - unfold clearHistoryForSession. by destruct (truthy_string sessionId).
  - intros userMessage options i Hsid Hlog.
    apply generateResponse_invocation in Hlog as (docs & provider & _ & _ & ->).
    simpl. rewrite Hsid, Hempty. by eexists.
Qed.

Lemma clear_forgets_one_history_witness :
  Some "s1" ≠ Some "s2"
  ∧ fst (getHistoryForSession (Some "s1")
           (snd (clearHistoryForSession (Some "s1") (Session.holding 4)))) = Ok []
  ∧ sessionHistories (this (snd (clearHistoryForSession (Some "s1") (Session.holding 4))))
      !! "s2"
    = sessionHistories (this (Session.holding 4)) !! "s2".
Proof.
  assert (Some "s1" ≠ Some "s2") as Hne by done.
  destruct (clear_forgets_one_history Session.env (Some "s1") (Session.holding 4))
    as (Hread & Hothers & _).
  split; [exact Hne|]. split; [exact Hread|]. apply (Hothers "s2" Hne).
Defined.

(** X4.  The streaming operation invokes the adapter exactly when the
    blocking operation does, for the same provider, with the same messages
    and the same options; only the streaming flag differs. *)
Theorem streaming_invokes_like_blocking (env : Env) (userMessage : Content)
        (options : Options) (w : World) :
  ∃ new,
    (length new ≤ 1)%nat
    ∧ invocations (snd (generateResponse env userMessage options w))
      = invocations w ++ new
    ∧ invocations (snd (generateStreamResponse env userMessage options w))
      = invocations w ++ (asStreaming <$> new)
    ∧ Forall (λ i, inv_streaming i = false) new.
Proof.
  rewrite generateResponse_stages, generateStreamResponse_stages.
  destruct (knowledgeBase env _ _) as [docs|e].
  2:{ exists []. simpl. rewrite app_nil_r. repeat split; [lia|constructor]. }
  destruct (createProvider _) as [provider|e].
  2:{ exists []. simpl. rewrite app_nil_r. repeat split; [lia|constructor]. }
  exists [invocation env false provider docs userMessage options w].
  simpl. split; [done|].
  split; [by destruct (vendorResponse env _ _ _)|].
  split; [by destruct (vendorStream env _ _ _)|].
  by repeat constructor.
Qed.

(** X5.  An agent over the local index reports at most 5 documents with a
    reply, each one a document of the index with a relevance between 0
    and 1. *)
Theorem reply_documents_from_index (env : Env) (docs : Documents) (userMessage : Content)
        (options : Options) (w w' : World) (reply : Reply) :
  (∀ query o, knowledgeBase env query o = Ok (searchDocuments docs query o)) →
  generateResponse env userMessage options w = (Ok reply, w') →
  (length (reply_documents reply) ≤ 5)%nat
  ∧ Forall (λ s,
       (∃ d, d ∈ values docs
             ∧ sum_id s = doc_id d ∧ sum_filename s = doc_filename d
             ∧ sum_type s = doc_type d)
       ∧ (0 <= sum_relevance s)%Q ∧ (sum_relevance s <= 1)%Q)
     (reply_documents reply).
Proof.
  intros Hkb. rewrite generateResponse_stages, Hkb.
  destruct (createProvider _) as [provider|e]; [|done].
  simpl. destruct (vendorResponse env _ _ _) as [response|e]; [|done].
  intros [= <- _]. simpl.
  set (query := searchQueryOf userMessage).
  rewrite searchDocuments_limited by lia.
  split; [rewrite length_map, length_take; lia|].
  apply Forall_forall. intros s Hs. apply list_elem_of_fmap in Hs as (f & -> & Hf).
  apply subseteq_take in Hf. unfold byScoreDescending in Hf. rewrite sort_perm in Hf.
  rewrite scoreDocuments_omap in Hf.
  apply list_elem_of_omap in Hf as (d & Hd & Hfrag).
  apply fragmentOf_wellScored in Hfrag as [Hdoc Hwell]. split.
  - exists d. by subst d.
  - by apply wellScored_relevance_range with (split " " (toLowerCase query)).
Qed.

Lemma reply_documents_from_index_witness :
  (∀ query o,
     knowledgeBase Session.env query o = Ok (searchDocuments Session.pricingOnly query o))
  ∧ ∃ reply w',
      generateResponse Session.env (Text "what is the premium plan price")
        Session.noOptions Session.fresh = (Ok reply, w')
      ∧ (sum_filename <$> reply_documents reply) = ["pricing.md"]
      ∧ (length (reply_documents reply) ≤ 5)%nat.
Proof.
  assert (∀ query o,
            knowledgeBase Session.env query o
            = Ok (searchDocuments Session.pricingOnly query o)) as Hkb by done.
  split; [exact Hkb|].
  eexists _, _. split; [by vm_compute|]. split; [by vm_compute|].
  eapply (reply_documents_from_index Session.env Session.pricingOnly
            (Text "what is the premium plan price") Session.noOptions Session.fresh);
    [exact Hkb|by vm_compute].
Defined.

(** X6.  Setting the system prompt changes the prompt and no history; the
    system message of the next call starts with the new prompt. *)
Theorem setSystemPrompt_next_call (env : Env) (prompt : string) (userMessage : Content)
        (options : Options) (w : World) (i : Invocation) :
  let w' := snd (setSystemPrompt prompt w) in
  invocations (snd (generateResponse env userMessage options w')) = invocations w' ++ [i] →
  conversationHistory (this w') = conversationHistory (this w)
  ∧ sessionHistories (this w') = sessionHistories (this w)
  ∧ ∃ context,
      inv_messages i
      = {| role := system; content := Text (prompt +:+ context) |}
          :: historyForSession (this w) (opt_sessionId options)
          ++ [ {| role := user; content := userMessage |} ].
Proof.
  intros w' Hlog.
  apply generateResponse_invocation in Hlog as (docs & provider & _ & _ & ->).
  split; [done|]. split; [done|]. by exists (buildContext docs).
Qed.

Lemma setSystemPrompt_next_call_witness :
  ∃ i,
    invocations (snd (generateResponse Session.env (Text "hello") Session.noOptions
                        (snd (setSystemPrompt "Answer in French." Session.fresh))))
    = invocations (snd (setSystemPrompt "Answer in French." Session.fresh)) ++ [i]
    ∧ head (inv_messages i)
      = Some {| role := system; content := Text "Answer in French." |}.
Proof.
  eexists. split; [by vm_compute|].
  edestruct (setSystemPrompt_next_call Session.env "Answer in French." (Text "hello")
               Session.noOptions Session.fresh) as (_ & _ & context & Hsent);
    [by vm_compute|].
  by vm_compute.
Defined.

End agent_frames.

(** ** The local index: search, delete, update, add, statistics *)

Section index_facts.

Import KnowledgeBase KnowledgeBaseStore.

Lemma termScore_positive (text : string) (terms : list string) :
  (0 < termScore text terms)%Z ↔ ∃ term, term ∈ terms ∧ includes text term = true.
Proof.
  unfold termScore.
  assert (∀ acc, (0 ≤ acc)%Z →
            (0 < fold_left (fun score term =>
                              if includes text term then (score + 1)%Z else score)
                           terms acc)%Z
            ↔ (0 < acc)%Z ∨ ∃ term, term ∈ terms ∧ includes text term = true) as Hgen.
  { induction terms as [|t terms IH]; intros acc Hacc; simpl.
    - split; [by left|]. intros [?|(term & Hin & _)]; [done|]. by apply elem_of_nil in Hin.
    - destruct (includes text t) eqn:Ht.
      + rewrite IH by lia. split; [|intros _; left; lia].
        intros _. right. exists t. split; [apply elem_of_cons; by left|done].
      + rewrite IH by lia. split.
        * intros [?|(term & Hin & Hterm)]; [by left|].
          right. exists term. split; [apply elem_of_cons; by right|done].
        * intros [?|(term & Hin & Hterm)]; [by left|].
          apply elem_of_cons in Hin as [->|Hin]; [congruence|].
          right. by exists term. }
  rewrite Hgen by lia. split; [intros [?|?]; [lia|done]|by right].
Qed.

Lemma search_membership (docs : Documents) (query : string) (d : Document) :
  d ∈ frag_doc <$> searchDocuments docs query {| limit := None |}
  ↔ d ∈ values docs
    ∧ ∃ term, term ∈ split " " (toLowerCase query)
              ∧ includes (searchableText d) term = true.
Proof.
  rewrite searchDocuments_unlimited by auto.
  unfold byScoreDescending. rewrite sort_perm, scoreDocuments_omap.
  rewrite <- termScore_positive. rewrite list_elem_of_fmap. split.
  - intros (f & -> & Hf). apply list_elem_of_omap in Hf as (d & Hd & Hfrag).
    apply fragmentOf_wellScored in Hfrag as [Hdoc (Hpos & Hscore & _)].
    rewrite Hdoc in *. split; [done|]. rewrite <- Hscore. lia.
  - intros [Hd Hpos].
    destruct (fragmentOf (split " " (toLowerCase query)) d) as [f|] eqn:Hfrag.
    + exists f. split.
      * by apply fragmentOf_wellScored in Hfrag as [-> _].
      * apply list_elem_of_omap. by exists d.
    + unfold fragmentOf in Hfrag.
      destruct (Z.ltb_spec 0 (termScore (searchableText d) (split " " (toLowerCase query))));
        [done|lia].
Qed.

(** X7.  A search without a limit returns exactly the documents of the
    index whose searchable text includes at least one term of the query. *)
Theorem search_finds_matching_documents (docs : Documents) (query : string)
        (d : Document) :
  d ∈ frag_doc <$> searchDocuments docs query {| limit := None |}
  ↔ d ∈ values docs
    ∧ ∃ term, term ∈ split " " (toLowerCase query)
              ∧ includes (searchableText d) term = true.
Proof. apply search_membership. Qed.

Lemma get_delete_ne (id other : string) (docs : Documents) :
  other ≠ id → get other (delete id docs) = get other docs.
Proof.
  intros Hne. induction docs as [|[k d] docs IH]; simpl; [done|].
  destruct (String.eqb_spec k id) as [->|Hk]; simpl.
  - destruct (String.eqb_spec id other); [congruence|done].
  - by rewrite IH.
Qed.

Lemma values_delete (id : string) (docs : list (string * Document)) :
  values (delete id docs) = snd <$> filter (λ kd, fst kd ≠ id) docs.
Proof.
  unfold values, delete. induction docs as [|[k d] docs IH]; [done|].
  rewrite filter_cons. simpl.
  destruct (String.eqb_spec k id); case_decide; simpl; try done. by rewrite IH.
Qed.

(** X8.  A delete that returns has removed the document of that id from
    the index and its file from the disk, and nothing else; a delete that
    throws (no such id, or a file that cannot be unlinked) leaves the index
    and the disk as they were. *)
Theorem delete_removes_one_document (id : string) (st : State) :
  match deleteDocument id st with
  | (Ok _, st') =>
      ∃ doc, get id (documents st) = Some doc
             ∧ get id (documents st') = None
             ∧ (∀ other, other ≠ id →
                         get other (documents st') = get other (documents st))
             ∧ values (documents st')
               = snd <$> filter (λ kd, fst kd ≠ id)
                           (documents st : list (string * Document))
             ∧ files st' = files st ∖ {[doc_path doc]}
  | (Throw _, st') => st' = st
  end.
Proof.
  unfold deleteDocument. destruct (get id (documents st)) as [doc|] eqn:Hget; [|done].
  unfold unlink. case_decide; [|done]. simpl. exists doc.
  split; [done|]. split; [apply get_delete|]. split; [by intros; apply get_delete_ne|].
  split; [apply values_delete|done].
Qed.

Lemma get_set (id : string) (doc : Document) (docs : Documents) :
  get id (set id doc docs) = Some doc.
Proof.
  induction docs as [|[k d] docs IH]; simpl; [by rewrite String.eqb_refl|].
  destruct (String.eqb_spec k id) as [->|Hk]; simpl.
  - by rewrite String.eqb_refl.
  - by destruct (String.eqb_spec k id).
Qed.

Lemma get_set_ne (id other : string) (doc : Document) (docs : Documents) :
  other ≠ id → get other (set id doc docs) = get other docs.
Proof.
  intros Hne. induction docs as [|[k d] docs IH]; simpl.
  - by destruct (String.eqb_spec id other); [congruence|].
  - destruct (String.eqb_spec k id) as [->|Hk]; simpl.
    + by destruct (String.eqb_spec id other); [congruence|].
    + by rewrite IH.
Qed.

Lemma set_present (id : string) (doc old : Document) (docs : Documents) :
  get id docs = Some old → fst <$> set id doc docs = fst <$> docs.
Proof.
  induction docs as [|[k d] docs IH]; [done|]. cbn [set get].
  destruct (String.eqb_spec k id) as [->|Hk]; [done|].
  intros Hget. rewrite !fmap_cons. f_equal. by apply IH.
Qed.

Lemma set_absent (id : string) (doc : Document) (docs : Documents) :
  get id docs = None → set id doc docs = docs ++ [(id, doc)].
Proof.
  induction docs as [|[k d] docs IH]; simpl; [done|].
  destruct (String.eqb_spec k id) as [->|Hk]; [done|].
  intros Hget. by rewrite IH.
Qed.

(** X9.  An update of a present id returns the document with the given
    fields replaced and stores it under the same id at the same place of
    the index; the other documents and the disk are as they were.  An
    update of an absent id throws [Document not found] and changes
    nothing. *)
Theorem update_replaces_in_place (id : string) (updates : Spread) (st : State) :
  match updateDocument id updates st with
  | (Ok updated, st') =>
      ∃ doc, get id (documents st) = Some doc
             ∧ updated = spread doc updates
             ∧ getDocument id st' = Some updated
             ∧ fst <$> documents st' = fst <$> documents st
             ∧ (∀ other, other ≠ id → getDocument other st' = getDocument other st)
             ∧ files st' = files st
  | (Throw message, st') =>
      message = "Document not found" ∧ getDocument id st = None ∧ st' = st
  end.
Proof.
  unfold updateDocument, getDocument.
  destruct (get id (documents st)) as [doc|] eqn:Hget; [|done].
  simpl. exists doc. split; [done|]. split; [done|]. split; [apply get_set|].
  split; [by eapply set_present|]. split; [|done]. by intros; apply get_set_ne.
Qed.

End index_facts.

Section index_statistics.

Import KnowledgeBase KnowledgeBaseStore.








End index_statistics.

Section index_additions.

Import KnowledgeBase KnowledgeBaseStore.

Lemma set_values (id : string) (doc : Document) (docs : Documents) :
  doc ∈ values (set id doc docs).
Proof.
  unfold values. induction docs as [|[k d] docs IH]; cbn [set].
  - apply elem_of_cons. by left.
  - destruct (String.eqb k id); cbn [map snd]; apply elem_of_cons; [by left|by right].
Qed.

Lemma delete_absent (id : string) (docs : Documents) :
  get id docs = None → delete id docs = docs.
Proof.
  unfold delete. induction docs as [|[k d] docs IH]; simpl; [done|].
  destruct (String.eqb_spec k id); [done|]. simpl. intros Hget. by rewrite IH.
Qed.

Lemma delete_last (id : string) (doc : Document) (docs : Documents) :
  get id docs = None → delete id (docs ++ [(id, doc)]) = docs.
Proof.
  intros Hget. unfold delete. rewrite List.filter_app. simpl. rewrite String.eqb_refl. simpl.
  rewrite app_nil_r. by apply delete_absent.
Qed.

Lemma existsb_eqb (x : string) (l : list string) :
  existsb (String.eqb x) l = true ↔ x ∈ l.
Proof.
  rewrite existsb_exists, list_elem_of_In. split.
  - by intros (y & Hy & ->%String.eqb_eq).
  - intros Hx. exists x. by rewrite String.eqb_refl.
Qed.

(** X11.  An upload is checked before anything is written: a file larger
    than the maximum is refused with the maximum in the message, a file
    of a type outside the allow-list is refused with the list in the
    message, and in both cases the index and the disk are as they were. *)
Theorem addDocument_refuses (p : Platform) (settings : Settings) (file : File)
        (metadata : Spread) (st : State) :
  (maxFileSize settings < size file)%Z
  ∨ toLowerCase (dropFirst (extname p (originalname file))) ∉ allowedTypes settings →
  addDocument p settings file metadata st
  = (Throw ("Failed to add document: "
            +:+ (if (maxFileSize settings <? size file)%Z
                 then "File too large. Maximum size: "
                      +:+ showNumber (maxFileSize settings) +:+ " bytes"
                 else "File type not allowed. Allowed types: "
                      +:+ JS.join ", " (allowedTypes settings))),
     st).
Proof.
  intros Hbad. unfold addDocument.
  destruct (Z.ltb_spec (maxFileSize settings) (size file)) as [Hlarge|Hfits]; [done|].
  destruct Hbad as [?|Htype]; [lia|].
  destruct (existsb _ (allowedTypes settings)) eqn:Hallowed; [|done].
  by apply existsb_eqb in Hallowed.
Qed.

Lemma addDocument_refuses_witness :
  (toLowerCase (dropFirst (extname (simple "4be2") "setup.EXE")) ∉ allowedTypes settings)
  ∧ addDocument (simple "4be2") settings
      {| originalname := "setup.EXE"; size := 1024; buffer := "MZ" |} nothing
      Scenario.onDisk
    = (Throw "Failed to add document: File type not allowed. Allowed types: pdf, docx, txt, md, jpg, jpeg, png, gif",
       Scenario.onDisk)
  ∧ addDocument (simple "4be2") settings
      {| originalname := "video.png"; size := 10485761; buffer := "" |} nothing
      Scenario.onDisk
    = (Throw "Failed to add document: File too large. Maximum size: 10485760 bytes",
       Scenario.onDisk).
Proof.
  split; [compute_done|]. split.
  - apply (addDocument_refuses (simple "4be2") settings
             {| originalname := "setup.EXE"; size := 1024; buffer := "MZ" |}).
    right. compute_done.
  - apply (addDocument_refuses (simple "4be2") settings
             {| originalname := "video.png"; size := 10485761; buffer := "" |}).
    left. simpl. lia.
Defined.

(** X12.  Whatever happens, an add that throws leaves the index as it was
    and its error is [Failed to add document: ...]; an add that returns
    has stored the returned document under the new id and has written its
    file, and the other documents are as they were. *)
Theorem addDocument_outcomes (p : Platform) (settings : Settings) (file : File)
        (metadata : Spread) (st : State) :
  let filePath :=
    join p (knowledgePath settings)
      (uuidv4 p +:+ "." +:+ toLowerCase (dropFirst (extname p (originalname file)))) in
  match addDocument p settings file metadata st with
  | (Throw message, st') =>
      (∃ e, message = "Failed to add document: " +:+ e)
      ∧ documents st' = documents st
      ∧ (files st' = files st ∨ files st' = files st ∪ {[filePath]})
  | (Ok document, st') =>
      getDocument (uuidv4 p) st' = Some document
      ∧ document ∈ getAllDocuments st'
      ∧ (∀ other, other ≠ uuidv4 p → getDocument other st' = getDocument other st)
      ∧ files st' = files st ∪ {[filePath]}
      ∧ (size file ≤ maxFileSize settings)%Z
  end.
Proof.
  intros filePath. unfold addDocument.
  destruct (Z.ltb_spec (maxFileSize settings) (size file)); [by eauto|].
  destruct (negb _); [by eauto|].
  destruct (writeError p _); [by eauto|].
  destruct (extractContent p _ _) as [extracted|e]; [|by eauto 6].
  unfold getDocument, getAllDocuments. cbn [documents files].
  split; [apply get_set|]. split; [apply set_values|].
  split; [by intros; apply get_set_ne|done].
Qed.

(** X13.  A text file that is accepted is found afterwards by every query
    one of whose terms occurs in its text, in any case. *)
Theorem added_text_is_searchable (p : Platform) (settings : Settings) (file : File)
        (query : string) (st st' : State) (document : Document) :
  toLowerCase (dropFirst (extname p (originalname file))) = "txt"
  ∨ toLowerCase (dropFirst (extname p (originalname file))) = "md" →
  addDocument p settings file nothing st = (Ok document, st') →
  (∃ term, term ∈ split " " (toLowerCase query)
           ∧ includes (toLowerCase (buffer file)) term = true) →
  doc_filename document = originalname file
  ∧ document ∈ frag_doc <$> searchDocuments (documents st') query {| limit := None |}.
Proof.
  intros Hext. unfold addDocument.
  destruct (Z.ltb_spec (maxFileSize settings) (size file)); [done|].
  destruct (negb _); [done|].
  destruct (writeError p _); [done|].
  assert (extractContent p (buffer file)
            (toLowerCase (dropFirst (extname p (originalname file))))
          = Ok {| sp_id := None; sp_filename := None; sp_path := None; sp_type := None;
                  sp_size := None; sp_text := Some (Some (buffer file));
                  sp_content := Some (Some (buffer file)) |}) as ->.
  { unfold extractContent. by destruct Hext as [-> | ->]. }
  intros [= <- <-] Hterm. split; [done|].
  apply search_membership. split; [apply set_values|].
  destruct Hterm as (term & Hin & Hinc). exists term. split; [done|].
  unfold searchableText, spread, nothing. cbn.
  destruct (String.eqb_spec (buffer file) "") as [Hempty|_]; simpl; [|done].
  by rewrite Hempty in Hinc.
Qed.

Lemma added_text_is_searchable_witness :
  ∃ document st',
    addDocument (simple "4be2") settings notes nothing Scenario.onDisk = (Ok document, st')
    ∧ doc_id document = "4be2"
    ∧ doc_type document = "txt"
    ∧ doc_path document = "knowledge_base/4be2.txt"
    ∧ document ∈ frag_doc <$> searchDocuments (documents st') "REFUNDS policy"
                               {| limit := None |}.
Proof.
  eexists _, _. split; [by vm_compute|]. do 3 (split; [reflexivity|]).
  eapply (added_text_is_searchable (simple "4be2") settings notes "REFUNDS policy"
            Scenario.onDisk).
  - left. reflexivity.
  - by vm_compute.
  - exists "refunds". split; [compute_done|reflexivity].
Defined.

(** X14.  Deleting a document that was just added restores the index and
    the disk, provided its id and its file are new and the metadata does
    not replace its path. *)
Theorem delete_undoes_add (p : Platform) (settings : Settings) (file : File)
        (metadata : Spread) (st st' : State) (document : Document) :
  getDocument (uuidv4 p) st = None →
  doc_path document ∉ files st →
  sp_path metadata = None →
  addDocument p settings file metadata st = (Ok document, st') →
  deleteDocument (uuidv4 p) st' = (Ok true, st).
Proof.
  unfold getDocument, addDocument. intros Hfresh Hnew Hpath.
  destruct (Z.ltb_spec (maxFileSize settings) (size file)); [done|].
  destruct (negb _); [done|].
  destruct (writeError p _); [done|].
  destruct (extractContent p _ _) as [extracted|e] eqn:Hextract; [|done].
  assert (sp_path extracted = None) as Hextracted.
  { revert Hextract. unfold extractContent.
    repeat (match goal with
            | |- context [if ?b then _ else _] => destruct b
            | |- context [match ?r with Ok _ => _ | Throw _ => _ end] => destruct r
            end; try by intros [= <-]); try done. }
  intros [= <- <-]. revert Hnew. unfold spread at 1 2. cbn [doc_path].
  rewrite Hpath, Hextracted. cbn [default]. intros Hnew.
  unfold deleteDocument. cbn [documents files]. rewrite get_set.
  cbn [doc_path spread]. rewrite Hpath, Hextracted. cbn [default doc_path].
  unfold unlink. rewrite decide_True by (apply elem_of_union; right; by apply elem_of_singleton).
  f_equal. destruct st as [docs fs]. cbn [documents files] in *. f_equal.
  - rewrite set_absent by done. by apply delete_last.
  - apply set_eq. intros x. rewrite elem_of_difference, elem_of_union, elem_of_singleton.
    split; [intros [[?|?] ?]; done|]. intros Hx. split; [by left|]. by intros ->.
Qed.

Lemma delete_undoes_add_witness :
  getDocument (uuidv4 (simple "4be2")) Scenario.onDisk = None
  ∧ ("knowledge_base/4be2.txt" ∉ files Scenario.onDisk)
  ∧ sp_path nothing = None
  ∧ deleteDocument "4be2"
      (snd (addDocument (simple "4be2") settings notes nothing Scenario.onDisk))
    = (Ok true, Scenario.onDisk).
Proof.
  split; [reflexivity|]. split; [compute_done|]. split; [reflexivity|].
  apply (delete_undoes_add (simple "4be2") settings notes nothing Scenario.onDisk
           (snd (addDocument (simple "4be2") settings notes nothing Scenario.onDisk))
           {| doc_id := "4be2"; doc_filename := "Notes.TXT";
              doc_path := "knowledge_base/4be2.txt"; doc_type := "txt"; doc_size := 27;
              doc_text := Some "Refunds take five workdays.";
              doc_content := Some "Refunds take five workdays." |}).
  - reflexivity.
  - compute_done.
  - reflexivity.
  - reflexivity.
Defined.

End index_additions.

(** ** The adapters *)

Section adapter_facts.

Import Agent AgentView AgentState AdapterView.

Lemma Exchanges_notSystem (h : list Message) : Exchanges h → Forall notSystem h.
Proof. induction 1; repeat constructor; done. Qed.

Lemma join_empty (l : list string) : JS.join "" l = foldr String.append "" l.
Proof.
  induction l as [|s l IH]; [done|]. simpl. rewrite <- IH.
  destruct l; [by rewrite append_nil_r|done].
Qed.

(** X15.  The Mistral and Fireworks adapters translate alike; they keep
    the number of messages and every role; a plain text is sent as it is
    and an array of non-empty texts as their concatenation.  An image part
    (or an empty text) is neither refused nor dropped: it is sent as the
    text [[object Object]]. *)
Theorem text_adapters_flatten_content (messages : list Message) :
  FireworksProvider.formatMessages messages = MistralProvider.formatMessages messages
  ∧ MistralProvider.role <$> MistralProvider.formatMessages messages
    = Message.role <$> messages
  ∧ (∀ r s, MistralProvider.formatMessage {| role := r; content := Text s |}
            = {| MistralProvider.role := r; MistralProvider.content := s |})
  ∧ (∀ r texts, Forall (λ t, t ≠ "") texts →
       MistralProvider.formatMessage {| role := r; content := Parts (text_part <$> texts) |}
       = {| MistralProvider.role := r;
            MistralProvider.content := foldr String.append "" texts |})
  ∧ (∀ r t url detail,
       MistralProvider.formatMessage
         {| role := r; content := Parts [text_part t; image_url_part url detail] |}
       = {| MistralProvider.role := r;
            MistralProvider.content :=
              (if String.eqb t "" then "[object Object]" else t) +:+ "[object Object]" |}).
Proof.
  split; [done|]. split.
  { unfold MistralProvider.formatMessages. rewrite <- list_fmap_compose.
    by apply list_fmap_ext. }
  split; [done|]. split.
  - intros r texts Htexts. unfold MistralProvider.formatMessage. cbn [Message.content].
    f_equal. rewrite join_empty. f_equal.
    induction Htexts as [|t texts Ht _ IH]; [done|].
    rewrite fmap_cons. cbn [map]. f_equal; [|exact IH].
    simpl. by destruct (String.eqb_spec t "").
  - intros r t url detail. unfold MistralProvider.formatMessage. simpl.
    by destruct (String.eqb t "").
Qed.

Lemma anthropic_find_system (prompt : Content) (rest : list Message) :
  List.find (fun msg => role_eqb (Message.role msg) Message.system)
            ({| role := system; content := prompt |} :: rest)
  = Some {| role := system; content := prompt |}.
Proof. done. Qed.

Lemma anthropic_filter (messages : list Message) :
  List.filter (fun msg => negb (role_eqb (Message.role msg) Message.system)) messages
  = filter notSystem messages.
Proof.
  induction messages as [|m messages IH]; [done|]. simpl. rewrite filter_cons, <- IH.
  case_decide as Hm; unfold notSystem in Hm; destruct (Message.role m); simpl;
    first [done | by exfalso; apply Hm].
Qed.

Lemma filter_all {A} (P : A → Prop) `{∀ x, Decision (P x)} (l : list A) :
  Forall P l → filter P l = l.
Proof.
  induction 1 as [|x l Hx _ IH]; [done|].
  by rewrite filter_cons, decide_True, IH.
Qed.

(** X16.  The Anthropic adapter never sends a system message inline: the
    messages of the request are the translations of the messages that are
    not system messages, in order, and the system field holds the content
    of the first system message (the empty string when there is none).
    For the messages the agent assembles, the system field is the
    augmented system prompt and the messages are the history followed by
    the new user message. *)
Theorem anthropic_separates_system (messages : list Message) :
  let request := AnthropicProvider.formatMessages messages in
  AnthropicProvider.messages request
  = AnthropicProvider.formatMessage <$> filter notSystem messages
  ∧ Forall (λ m, AnthropicProvider.role m ≠ system) (AnthropicProvider.messages request)
  ∧ (Forall notSystem messages → AnthropicProvider.system request = Text "")
  ∧ (∀ fields context history userMessage,
       messages = prepareMessages fields context history userMessage →
       Exchanges history →
       request
       = {| AnthropicProvider.system := Text (systemPrompt fields +:+ context);
            AnthropicProvider.messages :=
              AnthropicProvider.formatMessage
                <$> (history ++ [ {| role := user; content := userMessage |} ]) |}).
Proof.
  assert (AnthropicProvider.messages (AnthropicProvider.formatMessages messages)
          = AnthropicProvider.formatMessage <$> filter notSystem messages) as Hmessages.
  { unfold AnthropicProvider.formatMessages. simpl. by rewrite anthropic_filter. }
  intros request. subst request. split; [exact Hmessages|]. split; [|split].
  - rewrite Hmessages. apply Forall_fmap, Forall_forall. intros m Hm.
    apply list_elem_of_filter in Hm as [Hm _]. unfold notSystem in Hm.
    unfold AnthropicProvider.formatMessage.
    destruct m as [[] []]; simpl in *; first [done | by exfalso; apply Hm].
  - intros Hnone. unfold AnthropicProvider.formatMessages. simpl.
    assert (List.find (fun msg => role_eqb (Message.role msg) Message.system) messages
            = None) as ->; [|done].
    clear Hmessages. induction Hnone as [|m l Hm _ IH]; [done|].
    unfold notSystem in Hm. destruct m as [[] ?]; simpl in *;
      first [done | by exfalso; apply Hm].
  - intros fields context history userMessage -> Hhistory.
    unfold AnthropicProvider.formatMessages, prepareMessages.
    rewrite anthropic_find_system. simpl. f_equal.
    + unfold or_string, truthy_string.
      by destruct (String.eqb_spec (systemPrompt fields +:+ context) "") as [->|].
    + rewrite anthropic_filter, filter_all; [done|].
      apply Forall_app. split; [by apply Exchanges_notSystem|].
      by repeat constructor.
Qed.

Lemma google_turns (l : list Message) (acc : list GoogleProvider.Formatted) :
  Forall notSystem l →
  fold_left
    (fun acc msg => match acc with
                    | Ok fm => GoogleProvider.step fm msg
                    | Throw e => Throw e
                    end)
    l (Ok acc)
  = Ok (acc ++ (googleTurn <$> l)).
Proof.
  intros Hl. revert acc. induction Hl as [|m l Hm _ IH]; intros acc.
  - simpl. by rewrite app_nil_r.
  - rewrite fmap_cons. cbn [fold_left].
    assert (GoogleProvider.step acc m = Ok (acc ++ [googleTurn m])) as ->.
    { unfold GoogleProvider.step, googleTurn. unfold notSystem in Hm.
      destruct (Message.role m); [by exfalso; apply Hm|done|done]. }
    rewrite IH, <- app_assoc. done.
Qed.

Lemma google_agent_messages (fields : Fields) (context : string)
      (history : list Message) (userMessage : Content) :
  Exchanges history →
  GoogleProvider.formatMessages (prepareMessages fields context history userMessage)
  = Ok (googleSystemTurn (systemPrompt fields +:+ context)
          :: (googleTurn <$> history)
          ++ [googleTurn {| role := user; content := userMessage |}]).
Proof.
  intros Hhistory. unfold GoogleProvider.formatMessages, prepareMessages.
  cbn [fold_left].
  change (GoogleProvider.step [] {| role := system;
                                    content := Text (systemPrompt fields +:+ context) |})
    with (Ok [googleSystemTurn (systemPrompt fields +:+ context)]).
  rewrite google_turns.
  - by rewrite fmap_app.
  - apply Forall_app. split; [by apply Exchanges_notSystem|]. by repeat constructor.
Qed.

Lemma slice_init {A} (l : list A) (x : A) : slice 0 (-1) (l ++ [x]) = l.
Proof.
  unfold slice. rewrite length_app. simpl.
  replace (Z.min 0 (Z.of_nat (length l + 1))) with 0%Z by lia.
  replace (Z.max (Z.of_nat (length l + 1) + -1) 0) with (Z.of_nat (length l)) by lia.
  rewrite Z.sub_0_r, Nat2Z.id. change (Z.to_nat 0) with 0%nat. rewrite drop_0.
  by rewrite take_app_length.
Qed.

(** X17.  For the messages the agent assembles, the Google adapter always
    reaches the vendor: the chat history it sends is the user turn that
    carries the system prompt followed by the translated history, the
    message it sends is the new user message, and the request names the
    model only (the sampling options are not sent).  Its completion
    reports the text with a usage of zero tokens and the requested
    model. *)
Theorem google_chat_request (client : Completion.GoogleRequest → Result string)
        (fields : Fields) (context : string) (history : list Message)
        (userMessage : Content) (options : Completion.Options) :
  Exchanges history →
  Completion.google client (prepareMessages fields context history userMessage) options
  = match client
            {| Completion.g_model := or_string (Completion.model options) "gemini-pro";
               Completion.g_history :=
                 googleSystemTurn (systemPrompt fields +:+ context)
                   :: (googleTurn <$> history);
               Completion.g_parts :=
                 GoogleProvider.parts
                   (googleTurn {| role := user; content := userMessage |}) |} with
    | Ok text =>
        Ok {| response_content := text;
              response_usage :=
                Some {| prompt_tokens := 0; completion_tokens := 0; total_tokens := 0 |};
              response_model := or_string (Completion.model options) "gemini-pro";
              response_provider := "google" |}
    | Throw e => Throw ("Google Gemini API error: " +:+ e)
    end.
Proof.
  intros Hhistory. unfold Completion.google.
  rewrite google_agent_messages by done.
  rewrite app_comm_cons, last_snoc, slice_init. done.
Qed.

Lemma google_chat_request_witness :
  Exchanges (turn (Text "hello") Session.answer)
  ∧ Completion.google (λ request, Ok "Bonjour")
      (prepareMessages (this Session.fresh) "" (turn (Text "hello") Session.answer)
         (Parts [text_part "What is this?";
                 image_url_part "data:image/png;base64,iVBORw0KGgo=" None]))
      {| Completion.model := None;
         Completion.maxTokens := Some 4000%Z;
         Completion.temperature := Some (7 # 10) |}
    = Ok {| response_content := "Bonjour";
            response_usage :=
              Some {| prompt_tokens := 0; completion_tokens := 0; total_tokens := 0 |};
            response_model := "gemini-pro";
            response_provider := "google" |}.
Proof.
  assert (Exchanges (turn (Text "hello") Session.answer)) as Hturn
    by (repeat constructor).
  split; [exact Hturn|].
  rewrite (google_chat_request (λ request, Ok "Bonjour") (this Session.fresh) ""
             (turn (Text "hello") Session.answer) _ _ Hturn).
  reflexivity.
Defined.

Lemma adapters_normalise_results_helper (clients : Completion.Clients) (llm : LLMConfig)
      (provider : ProviderFactory.Provider) (messages : list Message)
      (options : Completion.Options) :
  match Completion.generateResponse clients llm provider messages options with
  | Ok r => response_provider r = Completion.providerTag provider
  | Throw message => ∃ e, message = Completion.errorPrefix provider +:+ e
  end.
Proof.
  destruct provider; simpl.
  - unfold Completion.openai. destruct (Completion.openaiClient clients _) as [r|e];
      [|by eauto]. destruct (Completion.choices r); [by eauto|done].
  - unfold Completion.google. destruct (GoogleProvider.formatMessages messages) as [fm|e];
      [|by eauto]. destruct (last fm); [|by eauto].
    destruct (Completion.googleClient clients _); [done|by eauto].
  - unfold Completion.anthropic.
    destruct (Completion.anthropicClient clients _) as [r|e]; [|by eauto].
    destruct (Completion.blocks r); [by eauto|done].
  - unfold Completion.mistral, Completion.posted.
    destruct (Completion.mistralPost clients _) as [data|error]; [|by eauto].
    destruct (Completion.choices data); [by eauto|done].
  - unfold Completion.fireworks, Completion.posted.
    destruct (Completion.fireworksPost clients _) as [data|error]; [|by eauto].
    destruct (Completion.choices data); [by eauto|done].
Qed.

(** X18.  Every adapter names itself on what it returns: a completion
    carries the adapter's provider name, an error starts with the
    adapter's vendor prefix.  A completion of the Anthropic adapter
    reports a total that is the sum of prompt and completion tokens; a
    completion of the Google adapter reports zero tokens. *)
Theorem adapters_normalise_results (clients : Completion.Clients) (llm : LLMConfig)
        (provider : ProviderFactory.Provider) (messages : list Message)
        (options : Completion.Options) :
  match Completion.generateResponse clients llm provider messages options with
  | Ok r =>
      response_provider r = Completion.providerTag provider
      ∧ match provider with
        | ProviderFactory.Anthropic =>
            ∃ u, response_usage r = Some u
                 ∧ total_tokens u = (prompt_tokens u + completion_tokens u)%Z
        | ProviderFactory.Google =>
            response_usage r
            = Some {| prompt_tokens := 0; completion_tokens := 0; total_tokens := 0 |}
        | _ => True
        end
  | Throw message => ∃ e, message = Completion.errorPrefix provider +:+ e
  end.
Proof.
  destruct provider; simpl.
  - unfold Completion.openai. destruct (Completion.openaiClient clients _) as [r|e];
      [|by eauto]. destruct (Completion.choices r); [by eauto|done].
  - unfold Completion.google. destruct (GoogleProvider.formatMessages messages) as [fm|e];
      [|by eauto]. destruct (last fm); [|by eauto].
    destruct (Completion.googleClient clients _); [done|by eauto].
  - unfold Completion.anthropic.
    destruct (Completion.anthropicClient clients _) as [r|e]; [|by eauto].
    destruct (Completion.blocks r); [by eauto|]. split; [done|]. by eexists.
  - unfold Completion.mistral, Completion.posted.
    destruct (Completion.mistralPost clients _) as [data|error]; [|by eauto].
    destruct (Completion.choices data); [by eauto|done].
  - unfold Completion.fireworks, Completion.posted.
    destruct (Completion.fireworksPost clients _) as [data|error]; [|by eauto].
    destruct (Completion.choices data); [by eauto|done].
Qed.

(** X19.  Seen through the agent, a vendor failure is wrapped twice: when
    the knowledge search and the provider resolution succeed, a blocking
    call that throws throws [Agent error: ] followed by the adapter's
    vendor prefix and the vendor's message; a call that returns carries
    the adapter's provider name. *)
Theorem agent_wraps_vendor_errors (clients : Completion.Clients) (llm : LLMConfig)
        (knowledgeBase : string → KnowledgeBase.SearchOptions
                         → Result (list KnowledgeBase.Fragment))
        (vendorStream : ProviderFactory.Provider → list Message → CallOptions
                        → Result Stream)
        (userMessage : Content) (options : Agent.Options) (w : World)
        (docs : list KnowledgeBase.Fragment) (provider : ProviderFactory.Provider) :
  knowledgeBase (searchQueryOf userMessage) {| KnowledgeBase.limit := Some 5%Z |} = Ok docs →
  ProviderFactory.createProvider (or_string (opt_provider options) (defaultProvider llm))
  = Ok provider →
  match fst (generateResponse (Completion.env clients llm knowledgeBase vendorStream)
               userMessage options w) with
  | Ok reply => response_provider (reply_response reply) = Completion.providerTag provider
  | Throw message =>
      ∃ e, message = "Agent error: " +:+ Completion.errorPrefix provider +:+ e
  end.
Proof.
  intros Hdocs Hprovider. rewrite generateResponse_stages. cbn [Agent.knowledgeBase
    Completion.env Agent.llm]. rewrite Hdocs, Hprovider.
  cbn [Agent.vendorResponse Completion.env].
  pose proof (adapters_normalise_results_helper clients llm provider) as Hnorm.
  cbv zeta.
  match goal with
  | |- context [Completion.generateResponse clients llm provider ?m ?o] =>
      specialize (Hnorm m o);
      destruct (Completion.generateResponse clients llm provider m o) as [r|e]
  end.
  - simpl. apply Hnorm.
  - simpl. destruct Hnorm as [e' ->]. by exists e'.
Qed.

Lemma agent_wraps_vendor_errors_witness :
  fst (generateResponse Vendors.env (Text "hello") (Session.withProvider "Claude")
         Session.fresh)
  = Throw "Agent error: Anthropic API error: 401 invalid x-api-key"
  ∧ match fst (generateResponse Vendors.env (Text "hello") (Session.withProvider "Claude")
                 Session.fresh) with
    | Ok reply => response_provider (reply_response reply) = "anthropic"
    | Throw message => ∃ e, message = "Agent error: " +:+ "Anthropic API error: " +:+ e
    end.
Proof.
  split; [by vm_compute|].
  apply (agent_wraps_vendor_errors Vendors.clients Session.config _ _ (Text "hello")
           (Session.withProvider "Claude") Session.fresh
           (KnowledgeBase.searchDocuments Session.pricingOnly "hello"
              {| KnowledgeBase.limit := Some 5%Z |})
           ProviderFactory.Anthropic); reflexivity.
Defined.

End adapter_facts.

(** ** The providers that are configured *)

Section listing_facts.

Import ProviderListing.

Lemma getAvailableProviders_from (keys : Keys) (configs : Providers) (acc : list Available) :
  fold_left
    (fun providers kv =>
       let providerKey := fst kv in
       let providerConfig := snd kv in
       let hasApiKey := checkApiKey keys providerKey in
       if hasApiKey
       then providers ++ [ {| name := providerKey; entry := providerConfig |} ]
       else providers)
    configs acc
  = acc ++ ((λ kv, {| name := fst kv; entry := snd kv |})
              <$> filter (λ kv, checkApiKey keys (fst kv) = true)
                         (configs : list (string * ProviderConfig))).
Proof.
  revert acc. induction configs as [|[k c] configs IH]; intros acc.
  - by rewrite app_nil_r.
  - cbn [fold_left]. rewrite IH, filter_cons. cbn [fst snd].
    destruct (checkApiKey keys k); case_decide; try done.
    by rewrite fmap_cons, <- app_assoc.
Qed.

Lemma checkApiKey_vendor (keys : Keys) (providerKey : string) :
  checkApiKey keys providerKey = true → providerKey ∈ vendors.
Proof.
  unfold checkApiKey.
  repeat match goal with
         | |- context [String.eqb providerKey ?s] =>
             destruct (String.eqb_spec providerKey s) as [->|_]; [intros _; compute_done|]
         end.
  done.
Qed.

(** X20.  The providers listed are the entries of the provider table whose
    vendor has an API key, in the order of the table: a listed name is one
    of the five vendor names, never an alias, and without any key the list
    is empty. *)
Theorem listed_providers_have_keys (keys : Keys) (configs : Providers) :
  let listed := getAvailableProviders keys configs in
  listed = (λ kv, {| name := fst kv; entry := snd kv |})
             <$> filter (λ kv, checkApiKey keys (fst kv) = true)
                        (configs : list (string * ProviderConfig))
  ∧ Forall (λ a, name a ∈ vendors ∧ checkApiKey keys (name a) = true) listed
  ∧ checkApiKey keys "gemini" = false
  ∧ checkApiKey keys "claude" = false
  ∧ (openai keys = None → google keys = None → anthropic keys = None →
     mistral keys = None → fireworks keys = None → listed = []).
Proof.
  intros listed.
  assert (listed = (λ kv, {| name := fst kv; entry := snd kv |})
                     <$> filter (λ kv, checkApiKey keys (fst kv) = true)
                                (configs : list (string * ProviderConfig))) as Hlisted.
  { apply (getAvailableProviders_from keys configs []). }
  split; [exact Hlisted|]. split; [|split; [done|split; [done|]]].
  - rewrite Hlisted. apply Forall_fmap, Forall_forall. intros [k c] Hkc.
    apply list_elem_of_filter in Hkc as [Hkey _]. simpl in *.
    split; [by apply checkApiKey_vendor in Hkey|done].
  - intros Ho Hg Ha Hm Hf. rewrite Hlisted.
    assert (∀ k, checkApiKey keys k = false) as Hnone.
    { intros k. unfold checkApiKey. rewrite Ho, Hg, Ha, Hm, Hf. simpl.
      by repeat destruct (String.eqb k _). }
    clear Hlisted. induction configs as [|[k c] configs IH]; [done|].
    rewrite filter_cons. cbn [fst]. rewrite Hnone. by case_decide.
Qed.

Example listed_providers_example :
  name <$> getAvailableProviders Vendors.keys
             [("openai", Vendors.entry "OpenAI"); ("anthropic", Vendors.entry "Anthropic");
              ("gemini", Vendors.entry "Gemini"); ("mistral", Vendors.entry "Mistral");
              ("google", Vendors.entry "Google")]
  = ["openai"; "mistral"].
Proof. reflexivity. Qed.

End listing_facts.

(** ** The model an adapter asks for *)

Section request_facts.

Import KnowledgeBase ProviderFactory Agent Completion RequestView.

Lemma or_string_chosen (o : option string) (d d' : string) :
  d ≠ "" → or_string (Some (or_string o d)) d' = or_string o d.
Proof.
  intros Hd. unfold or_string at 1.
  assert (truthy_string (Some (or_string o d)) = true) as ->; [|done].
  simpl. destruct (String.eqb_spec (or_string o d) "") as [Hempty|]; [|done].
  exfalso. revert Hempty. unfold or_string.
  destruct o as [s|]; [|done].
  destruct (truthy_string (Some s)) eqn:Hs; [|done].
  simpl in Hs. by destruct (String.eqb_spec s "").
Qed.

(** X21.  The agent chooses the model before the adapter does: with a
    configured default model that is not empty, every adapter asks its
    vendor for the caller's model, or for the configured default when the
    caller names none, whatever the provider.  The adapters' own defaults
    are never used: vendors that answer alike for that one model give the
    agent the same result. *)
Theorem agent_model_reaches_every_vendor (c c' : Clients) (llm : LLMConfig)
        (knowledgeBase : string → SearchOptions → Result (list Fragment))
        (vendorStream : Provider → list Message → CallOptions → Result Stream)
        (options : Agent.Options) (provider : Provider) (messages : list Message) :
  defaultModel llm ≠ "" →
  agreeOnModel (or_string (opt_model options) (defaultModel llm)) c c' →
  vendorResponse (env c llm knowledgeBase vendorStream) provider messages
    (callOptions (env c llm knowledgeBase vendorStream) options)
  = vendorResponse (env c' llm knowledgeBase vendorStream) provider messages
      (callOptions (env c' llm knowledgeBase vendorStream) options).
Proof.
  intros Hdefault (Hopenai & Hanthropic & Hgoogle & Hmistral & Hfireworks).
  pose proof (λ d', or_string_chosen (opt_model options) (defaultModel llm) d' Hdefault)
    as Hmodel.
  unfold env, callOptions, generateResponse, ofCall.
  cbn [Agent.vendorResponse Agent.llm call_model call_maxTokens call_temperature].
  destruct provider.
  - unfold openai. cbn [model]. rewrite Hopenai; [done|]. apply Hmodel.
  - unfold google. cbn [model].
    destruct (GoogleProvider.formatMessages messages) as [formatted|e]; [|done].
    destruct (last formatted) as [lastMessage|]; [|done].
    rewrite Hgoogle; [done|]. apply Hmodel.
  - unfold anthropic. cbn [model]. rewrite Hanthropic; [done|]. apply Hmodel.
  - unfold mistral, posted. cbn [model]. rewrite Hmistral; [done|]. apply Hmodel.
  - unfold fireworks, posted. cbn [model]. rewrite Hfireworks; [done|]. apply Hmodel.
Qed.

Lemma agent_model_reaches_every_vendor_witness :
  defaultModel Session.config ≠ ""
  ∧ agreeOnModel (or_string (opt_model (Session.withProvider "claude"))
                    (defaultModel Session.config))
      (only "gpt-4") any
  ∧ vendorResponse (env (only "gpt-4") Session.config (λ _ _, Ok []) (λ _ _ _, Ok []))
      Anthropic [Session.message 1]
      (callOptions (env (only "gpt-4") Session.config (λ _ _, Ok []) (λ _ _ _, Ok []))
         (Session.withProvider "claude"))
    = Ok {| response_content := "Hello!";
            response_usage :=
              Some {| prompt_tokens := 9; completion_tokens := 2; total_tokens := 11 |};
            response_model := "gpt-4";
            response_provider := "anthropic" |}.
Proof.
  assert (agreeOnModel (or_string (opt_model (Session.withProvider "claude"))
                          (defaultModel Session.config))
            (only "gpt-4") any) as Hagree.
  { change (or_string _ _) with "gpt-4".
    repeat split; intros request Hrequest; simpl; by rewrite Hrequest. }
  split; [done|]. split; [exact Hagree|].
  rewrite (agent_model_reaches_every_vendor (only "gpt-4") any Session.config
             (λ _ _, Ok []) (λ _ _ _, Ok []) (Session.withProvider "claude") Anthropic
             [Session.message 1] ltac:(done) Hagree).
  reflexivity.
Defined.

End request_facts.

(** ** Batches of images *)

Section batch_facts.

Import ImageAnalysisService.

Context {A : Type}.

Lemma slice_window (i b : Z) (l : list string) :
  (0 ≤ i)%Z → (0 < b)%Z →
  slice i (i + b) l = take (Z.to_nat b) (drop (Z.to_nat i) l).
Proof.
  intros Hi Hb. unfold slice.
  destruct (Z.ltb_spec i 0); [lia|]. destruct (Z.ltb_spec (i + b) 0); [lia|].
  destruct (Z.le_gt_cases (Z.of_nat (length l)) i) as [Hout|Hin].
  - rewrite !drop_ge by lia. by rewrite !take_nil.
  - rewrite (Z.min_l i) by lia.
    destruct (Z.le_gt_cases (i + b) (Z.of_nat (length l))) as [Hfit|Hover].
    + rewrite Z.min_l by lia. f_equal. lia.
    + rewrite Z.min_r by lia. rewrite !take_ge; [done|rewrite length_drop; lia..].
Qed.

Lemma batches_from (analyzeImage : string → Settled A) (imageUrls : list string)
      (b : Z) (fuel : nat) (i : Z) (results : list (Outcome A)) (pauses : nat) :
  (0 < b)%Z → (0 ≤ i)%Z →
  (Z.of_nat (length imageUrls) - i ≤ Z.of_nat fuel * b)%Z →
  batches fuel analyzeImage imageUrls b i results pauses
  = Some (results ++ map outcome (map analyzeImage (drop (Z.to_nat i) imageUrls)),
          (pauses + Z.to_nat ((Z.of_nat (length imageUrls) - i - 1) / b))%nat).
Proof.
  intros Hb. revert i results pauses.
  induction fuel as [|fuel IH]; intros i results pauses Hi Hfuel.
  - simpl. destruct (Z.ltb_spec i (Z.of_nat (length imageUrls))); [lia|].
    rewrite drop_ge by lia. simpl. rewrite app_nil_r. do 2 f_equal.
    assert ((Z.of_nat (length imageUrls) - i - 1) / b < 0)%Z
      by (apply Z.div_lt_upper_bound; lia).
    lia.
  - cbn [batches]. destruct (Z.ltb_spec i (Z.of_nat (length imageUrls))) as [Hin|Hout].
    + rewrite IH by lia. rewrite slice_window by lia. f_equal. f_equal.
      * rewrite <- app_assoc. f_equal. rewrite <- !map_app. do 2 f_equal.
        replace (Z.to_nat (i + b)) with (Z.to_nat i + Z.to_nat b)%nat by lia.
        rewrite <- drop_drop. by rewrite take_drop.
      * replace (Z.of_nat (length imageUrls) - i - 1)%Z
          with ((Z.of_nat (length imageUrls) - (i + b) - 1) + 1 * b)%Z by lia.
        rewrite Z.div_add by lia.
        destruct (Z.ltb_spec (i + b) (Z.of_nat (length imageUrls))) as [Hmore|Hlast].
        -- assert (0 ≤ (Z.of_nat (length imageUrls) - (i + b) - 1) / b)%Z
             by (apply Z.div_pos; lia).
           lia.
        -- assert ((Z.of_nat (length imageUrls) - (i + b) - 1) / b = -1)%Z as ->.
           { symmetry. apply (Z.div_unique _ b (-1)
                                (Z.of_nat (length imageUrls) - (i + b) - 1 + b)); lia. }
           simpl. lia.
    + rewrite drop_ge by lia. simpl. rewrite app_nil_r. do 2 f_equal.
      assert ((Z.of_nat (length imageUrls) - i - 1) / b < 0)%Z
        by (apply Z.div_lt_upper_bound; lia).
      lia.
Qed.

(** X22.  With a positive batch size (5 when none is given) the batch
    run ends, given at least as many iterations as there are images, and
    returns one outcome per image, in the order of the images: the
    analysis where it settled, [{ error }] where it was rejected, so that
    one failure does not stop the others.  It pauses once between two
    batches: for [n > 0] images and batches of [b], [(n - 1) / b] times. *)
Theorem processBatch_one_outcome_per_image (analyzeImage : string → Settled A)
        (imageUrls : list string) (batchSize : option Z) (fuel : nat) :
  (0 < or_Z batchSize 5)%Z →
  (length imageUrls ≤ fuel)%nat →
  processBatch fuel analyzeImage imageUrls batchSize
  = Some (outcome <$> (analyzeImage <$> imageUrls),
          Z.to_nat ((Z.of_nat (length imageUrls) - 1) / or_Z batchSize 5)).
Proof.
  intros Hb Hfuel. unfold processBatch.
  rewrite batches_from; [|done|lia|nia].
  simpl. rewrite Z.sub_0_r. done.
Qed.


(** X23.  With a negative batch size the loop index only decreases: for
    a list that is not empty no number of iterations returns. *)
Theorem processBatch_negative_size_never_returns (analyzeImage : string → Settled A)
        (imageUrls : list string) (batchSize : Z) (fuel : nat) :
  (batchSize < 0)%Z → imageUrls ≠ [] →
  processBatch fuel analyzeImage imageUrls (Some batchSize) = None.
Proof.
  intros Hb Hurls. unfold processBatch.
  assert (or_Z (Some batchSize) 5 = batchSize) as ->.
  { unfold or_Z, truthy_Z. by destruct (Z.eqb_spec batchSize 0); [lia|]. }
  assert (∀ i results pauses, (i ≤ 0)%Z →
            batches fuel analyzeImage imageUrls batchSize i results pauses = None) as Hloop.
  { assert (0 < length imageUrls)%nat by (destruct imageUrls; [done|simpl; lia]).
    induction fuel as [|fuel IH]; intros i results pauses Hi; cbn [batches];
      destruct (Z.ltb_spec i (Z.of_nat (length imageUrls))) as [_|Hout]; try lia.
    - done.
    - apply IH. lia. }
  by apply Hloop.
Qed.

End batch_facts.

Lemma processBatch_one_outcome_per_image_witness :
  (0 < or_Z (Some 2%Z) 5)%Z
  ∧ (length ["a.png"; "b.png"; "c.png"; "d.png"; "e.png"] ≤ 5)%nat
  ∧ ImageAnalysisService.processBatch 5
      (λ url, if String.eqb url "c.png"
              then ImageAnalysisService.rejected "unreadable" else ImageAnalysisService.fulfilled (String.length url))
      ["a.png"; "b.png"; "c.png"; "d.png"; "e.png"] (Some 2%Z)
    = Some ([ImageAnalysisService.analysed 5%nat; ImageAnalysisService.analysed 5%nat; ImageAnalysisService.error "unreadable"; ImageAnalysisService.analysed 5%nat;
             ImageAnalysisService.analysed 5%nat], 2%nat).
Proof.
  split; [done|]. split; [done|].
  apply (processBatch_one_outcome_per_image
           (λ url, if String.eqb url "c.png"
                   then ImageAnalysisService.rejected "unreadable" else ImageAnalysisService.fulfilled (String.length url))
           ["a.png"; "b.png"; "c.png"; "d.png"; "e.png"] (Some 2%Z) 5
           ltac:(done) ltac:(simpl; lia)).
Defined.

Lemma processBatch_negative_size_witness :
  (-1 < 0)%Z ∧ ["a.png"] ≠ []
  ∧ ImageAnalysisService.processBatch 1000 (λ url, ImageAnalysisService.fulfilled url) ["a.png"] (Some (-1)%Z) = None.
Proof.
  split; [done|]. split; [done|].
  apply (processBatch_negative_size_never_returns (λ url, ImageAnalysisService.fulfilled url) ["a.png"] (-1) 1000
           ltac:(done) ltac:(done)).
Defined.

(** ** The chat routes *)

Section route_facts.

Import KnowledgeBase ProviderFactory Agent AgentView AgentState ChatRoute.

Lemma trimEnd_id (s : string) : hasWhiteSpace s = false → trimEnd s = s.
Proof.
  induction s as [|c s IH]; [done|]. simpl.
  intros [Hc Hs]%orb_false_elim. rewrite (IH Hs).
  destruct s; [by rewrite Hc|done].
Qed.

Lemma trim_id (s : string) : hasWhiteSpace s = false → ChatRoute.trim s = s.
Proof.
  intros Hs. unfold ChatRoute.trim.
  assert (trimStart s = s) as ->; [|by apply trimEnd_id].
  destruct s as [|c s]; [done|]. simpl in *.
  apply orb_false_elim in Hs as [-> _]. done.
Qed.

Lemma indexOf_first (c : ascii) (a b : string) :
  hasChar c a = false →
  indexOf c (a +:+ String c b) = Z.of_nat (String.length a).
Proof.
  induction a as [|x a IH].
  - intros _. rewrite append_nil_l. simpl. by rewrite Ascii.eqb_refl.
  - rewrite append_cons. cbn [hasChar indexOf String.length].
    intros [Hx Ha]%orb_false_elim. rewrite Hx, (IH Ha).
    destruct (Z.ltb_spec (Z.of_nat (String.length a)) 0); lia.
Qed.

Lemma substring_all (s : string) : String.substring 0 (String.length s) s = s.
Proof. induction s as [|c s IH]; [done|]. simpl. by rewrite IH. Qed.

Lemma substring_prefix (a b : string) :
  String.substring 0 (String.length a) (a +:+ b) = a.
Proof.
  induction a as [|c a IH]; [by destruct b|].
  rewrite append_cons. simpl. by rewrite IH.
Qed.

Lemma substring_suffix (a b : string) (n : nat) :
  String.substring (String.length a) n (a +:+ b) = String.substring 0 n b.
Proof. induction a as [|c a IH]; [done|]. rewrite append_cons. simpl. exact IH. Qed.

Lemma length_append (a b : string) :
  String.length (a +:+ b) = (String.length a + String.length b)%nat.
Proof. induction a as [|c a IH]; [done|]. rewrite append_cons. simpl. by rewrite IH. Qed.

(** A pair [name=value] sets the cookie [name], trimmed, to the decoded
    value. *)
Lemma parsePair_assignment (decodeURIComponent : string → Result string)
      (cookies : gmap string string) (name value : string) :
  hasChar "=" name = false →
  parsePair decodeURIComponent cookies (name +:+ String "=" value)
  = match decodeURIComponent (ChatRoute.trim value) with
    | Throw e => Throw e
    | Ok val => Ok (<[ChatRoute.trim name := val]> cookies)
    end.
Proof.
  intros Hname. unfold parsePair. rewrite (indexOf_first _ _ _ Hname).
  destruct (Z.ltb_spec (-1) (Z.of_nat (String.length name))); [|lia].
  unfold stringSlice, stringSliceFrom.
  rewrite Z.sub_0_r. change (Z.to_nat 0) with 0%nat. rewrite Nat2Z.id.
  rewrite substring_prefix.
  replace (Z.to_nat (Z.of_nat (String.length name) + 1))
    with (String.length (name +:+ "=")) by (rewrite length_append; simpl; lia).
  replace (name +:+ String "=" value) with ((name +:+ "=") +:+ value)
    by (by rewrite append_assoc).
  rewrite substring_suffix, length_append.
  replace (String.length (name +:+ "=") + String.length value - String.length (name +:+ "="))%nat
    with (String.length value) by lia.
  by rewrite substring_all.
Qed.

Lemma truthy_or_string (o : option string) :
  truthy_string o = true → o = Some (or_string o "") ∧ or_string o "" ≠ "".
Proof.
  destruct o as [s|]; [|done]. unfold or_string. intros H. rewrite H. split; [done|].
  simpl in H. by destruct (String.eqb_spec s "").
Qed.

Lemma truthy_string_ne (s : string) : s ≠ "" → truthy_string (Some s) = true.
Proof. intros H. simpl. by destruct (String.eqb_spec s ""). Qed.

(** The session of a request is never empty; a cookie is set exactly when
    the random identifier is the session. *)
Lemma getOrCreateSessionId_ok (decodeURIComponent : string → Result string)
      (randomUUID : string) (req : Request) (sessionId : string)
      (cookieSet : option string) :
  randomUUID ≠ "" →
  getOrCreateSessionId decodeURIComponent randomUUID req = Ok (sessionId, cookieSet) →
  sessionId ≠ ""
  ∧ (cookieSet = None ∨ cookieSet = Some sessionId ∧ sessionId = randomUUID).
Proof.
  intros Hrandom. unfold getOrCreateSessionId.
  destruct (parseCookies _ _) as [cookies|e]; [|done].
  cbn zeta. destruct (truthy_string (orElse _ _)) eqn:Hincoming.
  - intros [= <- <-]. apply truthy_or_string in Hincoming as [_ ?]. split; [done|by left].
  - intros [= <- <-]. split; [done|]. by right.
Qed.

Lemma generateResponse_scoped (env : Env) (userMessage : Content) (options : Options)
      (w : World) :
  truthy_string (opt_sessionId options) = true →
  conversationHistory (this (snd (generateResponse env userMessage options w)))
  = conversationHistory (this w).
Proof.
  intros Hscoped. rewrite generateResponse_stages.
  destruct (knowledgeBase env _ _) as [docs|e]; [|done].
  destruct (createProvider _) as [provider|e]; [|done].
  simpl. destruct (vendorResponse env _ _ _) as [response|e]; [|done].
  simpl. unfold storeHistory. by rewrite Hscoped.
Qed.

Lemma generateResponse_returns (env : Env) (userMessage : Content) (options : Options)
      (w w' : World) (reply : Reply) :
  generateResponse env userMessage options w = (Ok reply, w') →
  this w' = storeHistory (opt_sessionId options)
              (AgentView.trim (historyForSession (this w) (opt_sessionId options)
                       ++ turn userMessage (reply_response reply)))
              (this w).
Proof.
  rewrite generateResponse_stages.
  destruct (knowledgeBase env _ _) as [docs|e]; [|done].
  destruct (createProvider _) as [provider|e]; [|done].
  simpl. destruct (vendorResponse env _ _ _) as [response|e]; [|done].
  by intros [= <- <-].
Qed.

Lemma generateStreamResponse_this (env : Env) (userMessage : Content) (options : Options)
      (w : World) :
  this (snd (generateStreamResponse env userMessage options w)) = this w.
Proof.
  rewrite generateStreamResponse_stages.
  destruct (knowledgeBase env _ _) as [docs|e]; [|done].
  destruct (createProvider _) as [provider|e]; [|done].
  simpl. by destruct (vendorStream env _ _ _).
Qed.

(** No request writes the unscoped history: the chat routes always name a
    session. *)
Lemma Served_unscoped_empty (agent : option World) :
  Served agent → ∀ w, agent = Some w → conversationHistory (this w) = [].
Proof.
  induction 1 as [|agent _ _|env decode uuid req agent Huuid _ IH
                  |env decode uuid req agent Huuid _ IH|req agent _ IH|req agent _ IH];
    intros w'.
  - done.
  - by intros [= <-].
  - unfold chat. destruct (getOrCreateSessionId _ _ _) as [[sessionId cookie]|e] eqn:Hid;
      [|apply IH].
    apply getOrCreateSessionId_ok in Hid as [Hid _]; [|done].
    destruct (req_message req) as [message|]; [|apply IH].
    destruct (truthy_content _); [|apply IH].
    destruct agent as [w|]; [|done].
    pose proof (generateResponse_scoped env (userMessageOf message)
                  (optionsOf req sessionId) w (truthy_string_ne _ Hid)) as Hsame.
    destruct (generateResponse _ _ _ _) as [[reply|e] w'']; simpl in *;
      intros [= <-]; rewrite Hsame; by apply IH.
  - unfold chatStream.
    destruct (getOrCreateSessionId _ _ _) as [[sessionId cookie]|e]; [|apply IH].
    destruct (req_message req) as [message|]; [|apply IH].
    destruct (truthy_content _); [|apply IH].
    destruct agent as [w|]; [|done].
    pose proof (generateStreamResponse_this env (userMessageOf message)
                  (optionsOf req sessionId) w) as Hsame.
    destruct (generateStreamResponse _ _ _ _) as [[reply|e] w'']; simpl in *;
      intros [= <-]; rewrite Hsame; by apply IH.
  - unfold systemPromptRoute. destruct (truthy_string _); [|apply IH].
    destruct agent as [w|]; [|done]. simpl. intros [= <-]. simpl. by apply IH.
  - unfold clearHistoryRoute. destruct agent as [w|]; [|done]. simpl.
    destruct (truthy_string (orElse _ _)) eqn:Hscoped; intros [= <-]; [|done].
    unfold clearHistoryForSession. rewrite Hscoped. simpl. by apply IH.
Qed.

(** X24.  The cookie that a response sets is read back from the next
    request: a request whose only trace of a session is the cookie header
    [sessionId=<id>] is in session [id], and no new cookie is set.  The
    identifier must survive the parsing: not empty, no semicolon, no white
    space, and left alone by [decodeURIComponent]. *)
Theorem session_cookie_round_trip (decodeURIComponent : string → Result string)
        (randomUUID id message : string) :
  id ≠ "" → hasChar ";" id = false → hasWhiteSpace id = false →
  decodeURIComponent id = Ok id →
  getOrCreateSessionId decodeURIComponent randomUUID
    (withCookie ("sessionId=" +:+ id) message)
  = Ok (id, None).
Proof.
  intros Hid Hsemicolon Hspace Hdecode. unfold getOrCreateSessionId, withCookie.
  cbn [req_cookie req_header req_bodySessionId req_querySessionId].
  assert (or_string (Some ("sessionId=" +:+ id)) "" = "sessionId=" +:+ id) as -> by done.
  unfold parseCookies.
  assert (String.eqb ("sessionId=" +:+ id) "" = false) as -> by done.
  rewrite split_without by (by rewrite hasChar_append, Hsemicolon).
  cbn [fold_left].
  rewrite (parsePair_assignment decodeURIComponent ∅ "sessionId" id) by done.
  rewrite (trim_id id Hspace), Hdecode.
  assert (ChatRoute.trim "sessionId" = "sessionId") as -> by done.
  rewrite lookup_insert_eq.
  assert (orElse (orElse (orElse (orElse None None) None) None) (Some id) = Some id) as ->.
  { unfold orElse at 1 2 3 4. simpl. done. }
  rewrite (truthy_string_ne id Hid).
  unfold or_string. by rewrite (truthy_string_ne id Hid).
Qed.

Lemma session_cookie_round_trip_witness :
  getOrCreateSessionId Ok "0b5c7f4e-random" (withCookie "sessionId=7d9b12" "hello")
  = Ok ("7d9b12", None).
Proof.
  apply (session_cookie_round_trip Ok "0b5c7f4e-random" "7d9b12" "hello");
    [done|reflexivity|reflexivity|reflexivity].
Defined.

(** X25.  A chat request that is answered with status 200 names a session
    that is not empty, and the exchange is at the end of that session's
    history, which holds its last 20 messages; a string message is stored
    as an array of one text part.  The unscoped history and the histories
    of the other sessions are as they were, and if a cookie is set, it is
    the random identifier, which is then the session. *)
Theorem chat_reply_in_session (env : Env) (decodeURIComponent : string → Result string)
        (randomUUID : string) (req : Request) (w : World) (answer : Answer)
        (agent' : option World) :
  randomUUID ≠ "" →
  chat env decodeURIComponent randomUUID req (Some w) = (answer, agent') →
  status answer = 200%Z →
  ∃ reply sessionId message w',
    json answer = completion reply sessionId ∧ agent' = Some w'
    ∧ sessionId ≠ "" ∧ req_message req = Some message
    ∧ fst (getHistoryForSession (Some sessionId) w')
      = Ok (AgentView.trim (default [] (sessionHistories (this w) !! sessionId)
                    ++ turn (userMessageOf message) (reply_response reply)))
    ∧ conversationHistory (this w') = conversationHistory (this w)
    ∧ (∀ other, other ≠ sessionId →
         sessionHistories (this w') !! other = sessionHistories (this w) !! other)
    ∧ (cookieSet answer = None
       ∨ cookieSet answer = Some sessionId ∧ sessionId = randomUUID).
Proof.
  intros Hrandom. unfold chat.
  destruct (getOrCreateSessionId _ _ _) as [[sessionId cookie]|e] eqn:Hid;
    [|by intros [= <- <-]].
  apply getOrCreateSessionId_ok in Hid as [Hid Hcookie]; [|done].
  destruct (req_message req) as [message|]; [|by intros [= <- <-]].
  destruct (truthy_content _); [|by intros [= <- <-]].
  destruct (generateResponse _ _ _ _) as [[reply|e] w'] eqn:Hcall;
    [|by intros [= <- <-]].
  intros [= <- <-] _. exists reply, sessionId, message, w'.
  apply generateResponse_returns in Hcall.
  pose proof (truthy_string_ne _ Hid) as Htruthy.
  assert (or_string (Some sessionId) "" = sessionId) as Hor
      by (unfold or_string; by rewrite Htruthy).
  revert Hcall. unfold storeHistory, historyForSession, getHistoryForSession.
  cbn [optionsOf opt_sessionId]. rewrite Htruthy, Hor. intros Hthis.
  repeat split; try done.
  - cbn [fst]. rewrite Hthis. cbn [sessionHistories]. by rewrite lookup_insert_eq.
  - by rewrite Hthis.
  - intros other Hother. rewrite Hthis. cbn [sessionHistories].
    by apply lookup_insert_ne.
Qed.

Lemma chat_reply_in_session_witness :
  ∃ reply sessionId message w',
    json (fst (chat Session.env Ok "0b5c7f4e-random" (withCookie "sessionId=s1" "hello")
                 (Some (Session.holding 4))))
    = completion reply sessionId
    ∧ snd (chat Session.env Ok "0b5c7f4e-random" (withCookie "sessionId=s1" "hello")
             (Some (Session.holding 4)))
      = Some w'
    ∧ sessionId ≠ ""
    ∧ req_message (withCookie "sessionId=s1" "hello") = Some message
    ∧ fst (getHistoryForSession (Some sessionId) w')
      = Ok (AgentView.trim
              (default [] (sessionHistories (this (Session.holding 4)) !! sessionId)
                 ++ turn (userMessageOf message) (reply_response reply)))
    ∧ conversationHistory (this w') = conversationHistory (this (Session.holding 4))
    ∧ (∀ other, other ≠ sessionId →
         sessionHistories (this w') !! other
         = sessionHistories (this (Session.holding 4)) !! other)
    ∧ (cookieSet (fst (chat Session.env Ok "0b5c7f4e-random"
                         (withCookie "sessionId=s1" "hello") (Some (Session.holding 4))))
       = None
       ∨ cookieSet (fst (chat Session.env Ok "0b5c7f4e-random"
                           (withCookie "sessionId=s1" "hello") (Some (Session.holding 4))))
         = Some sessionId
         ∧ sessionId = "0b5c7f4e-random").
Proof.
  apply (chat_reply_in_session Session.env Ok "0b5c7f4e-random"
           (withCookie "sessionId=s1" "hello") (Session.holding 4) _ _
           ltac:(done) (surjective_pairing _)).
  vm_compute. reflexivity.
Defined.

(** X26.  The history route reads the session from the query and the
    header only.  Since no request to the chat routes ever writes the
    unscoped history of their agent, a request that names its session in
    neither, for instance one that carries only the cookie that the chat
    route set, is answered with an empty history, whatever has been said
    in its session. *)
Theorem history_route_ignores_cookie (req : Request) (agent : option World) :
  Served agent →
  req_querySessionId req = None → req_header req = None →
  historyRoute req agent
  = match agent with
    | Some _ => {| status := 200; json := historyOf [] None; cookieSet := None |}
    | None =>
        {| status := 500; json := problem "Agent not initialized"; cookieSet := None |}
    end.
Proof.
  intros Hserved Hquery Hheader. unfold historyRoute.
  destruct agent as [w|]; [|done].
  rewrite Hquery, Hheader. simpl.
  by rewrite (Served_unscoped_empty _ Hserved w eq_refl).
Qed.

Lemma history_route_ignores_cookie_witness :
  historyRoute (withCookie "sessionId=s1" "")
    (snd (chat Session.env Ok "0b5c7f4e-random" (withCookie "sessionId=s1" "hello")
            (Some (create ""))))
  = {| status := 200; json := historyOf [] None; cookieSet := None |}
  ∧ historyRoute
      {| req_cookie := None; req_header := None; req_bodySessionId := None;
         req_querySessionId := Some "s1"; req_message := None; req_provider := None;
         req_model := None; req_temperature := None; req_maxTokens := None;
         req_prompt := None |}
      (snd (chat Session.env Ok "0b5c7f4e-random" (withCookie "sessionId=s1" "hello")
              (Some (create ""))))
    = {| status := 200;
         json := historyOf (turn (Parts [text_part "hello"]) Session.answer) (Some "s1");
         cookieSet := None |}.
Proof.
  split; [|by vm_compute].
  rewrite (history_route_ignores_cookie (withCookie "sessionId=s1" "")
             (snd (chat Session.env Ok "0b5c7f4e-random" (withCookie "sessionId=s1" "hello")
                     (Some (create ""))))
             (served_chat Session.env Ok "0b5c7f4e-random" (withCookie "sessionId=s1" "hello")
                (Some (create "")) ltac:(done)
                (served_initializeAgent None served_start))
             eq_refl eq_refl).
  by vm_compute.
Defined.

End route_facts.

(** ** The search of the hosted knowledge base *)

Section supabase_facts.

Import SupabaseSearch.

Lemma includes_suffix (a b t : string) :
  includes b t = true → includes (a +:+ b) t = true.
Proof.
  intros Hb. induction a as [|c a IH]; [done|].
  rewrite append_cons. cbn [includes]. rewrite IH. by destruct (String.prefix _ _).
Qed.

Lemma toLowerCase_append (a b : string) :
  toLowerCase (a +:+ b) = toLowerCase a +:+ toLowerCase b.
Proof.
  induction a as [|c a IH]; [done|].
  rewrite append_cons. cbn [toLowerCase]. by rewrite IH, append_cons.
Qed.

Lemma listItem_None (recurse : string → option (list StoredFile)) (folderPath : string)
      (items : list Item) :
  fold_left (listItem recurse folderPath) items None = None.
Proof. by induction items. Qed.

Lemma getAllFilesRecursively_listed (service : Service) (fuel : nat) :
  ∀ folderPath files,
    getAllFilesRecursively fuel service folderPath = Some files →
    Forall (listedIn service) files.
Proof.
  induction fuel as [|fuel IH]; intros folderPath files; [done|].
  cbn [getAllFilesRecursively].
  destruct (storageList service folderPath) as [items|] eqn:Hlist;
    [|by intros [= <-]].
  assert (∀ rest done_ allFiles,
            items = done_ ++ rest → Forall (listedIn service) allFiles →
            fold_left (listItem (getAllFilesRecursively fuel service) folderPath)
                      rest (Some allFiles) = Some files →
            Forall (listedIn service) files) as Hloop.
  { induction rest as [|item rest IHrest]; intros done_ allFiles Hitems Hall.
    - by intros [= <-].
    - cbn [fold_left]. unfold listItem at 2.
      destruct (isFile item) eqn:Hfile.
      + apply (IHrest (done_ ++ [item])); [by rewrite <- app_assoc|].
        apply Forall_app. split; [done|]. apply Forall_singleton.
        exists folderPath, items. repeat split; try done.
        * rewrite Hitems. apply elem_of_app. right. apply elem_of_cons. by left.
        * cbn [fullPath file_item]. simpl. by destruct (String.eqb folderPath "").
      + destruct (getAllFilesRecursively fuel service _) as [subFiles|] eqn:Hsub;
          [|by rewrite listItem_None].
        apply (IHrest (done_ ++ [item])); [by rewrite <- app_assoc|].
        apply Forall_app. split; [done|]. by apply IH in Hsub. }
  by apply (Hloop items []).
Qed.

Lemma getAllFilesRecursively_more_fuel (service : Service) (fuel : nat) :
  ∀ fuel' folderPath files,
    (fuel ≤ fuel')%nat →
    getAllFilesRecursively fuel service folderPath = Some files →
    getAllFilesRecursively fuel' service folderPath = Some files.
Proof.
  induction fuel as [|fuel IH]; intros fuel' folderPath files Hfuel; [done|].
  destruct fuel' as [|fuel']; [lia|]. cbn [getAllFilesRecursively].
  destruct (storageList service folderPath) as [items|]; [|done].
  generalize (@nil StoredFile). induction items as [|item items IHitems];
    intros allFiles; [done|].
  cbn [fold_left]. unfold listItem at 2 4.
  destruct (isFile item); [apply IHitems|].
  destruct (getAllFilesRecursively fuel service _) as [subFiles|] eqn:Hsub;
    [|by rewrite listItem_None].
  rewrite (IH fuel' _ subFiles) by (done || lia). apply IHitems.
Qed.

Lemma listedIn_matches (service : Service) (searchTerms : list string) (file : StoredFile) :
  listedIn service file →
  matches searchTerms file
  = existsb (includes (toLowerCase (fullPath file))) searchTerms.
Proof.
  intros (folderPath & items & _ & _ & _ & Hpath). unfold matches.
  induction searchTerms as [|term searchTerms IH]; [done|].
  cbn [existsb]. rewrite IH. f_equal.
  destruct (includes (toLowerCase (item_name (file_item file))) term) eqn:Hname; [|done].
  simpl. symmetry. rewrite Hpath. destruct (String.eqb folderPath ""); [done|].
  replace (folderPath +:+ "/" +:+ item_name (file_item file))
    with ((folderPath +:+ "/") +:+ item_name (file_item file))
    by (by rewrite append_assoc).
  rewrite toLowerCase_append. by apply includes_suffix.
Qed.

(** X27.  When no image analysis matches, the search of the hosted
    knowledge base is a search of the full paths: once the listing of the
    bucket completes, with whatever depth allowance, the result is the
    files whose full path, in lower case, contains one of the terms of
    the query, in the order of the listing, cut by [slice(0, limit || 10)].
    The test on the file name adds nothing, the name being the end of the
    path; every result has score 1. *)
Theorem supabase_search_is_by_path (service : Service) (query : string)
        (limit : option Z) (fuel fuel' : nat) (allFiles : list StoredFile) :
  searchImageAnalysis service query limit = [] →
  getAllFilesRecursively fuel service "" = Some allFiles →
  (fuel ≤ fuel')%nat →
  searchDocuments fuel' service query limit
  = Some (slice 0 (or_Z limit 10)
            (foundFile service
               <$> List.filter
                     (λ file, existsb (includes (toLowerCase (fullPath file)))
                                      (split " " (toLowerCase query)))
                     allFiles)).
Proof.
  intros Hanalysis Hfiles Hfuel. unfold searchDocuments.
  rewrite Hanalysis. cbn [length Nat.ltb Nat.leb].
  rewrite (getAllFilesRecursively_more_fuel service fuel fuel' "" allFiles Hfuel Hfiles).
  do 3 f_equal. apply List.filter_ext_in. intros file Hin.
  apply (listedIn_matches service).
  apply getAllFilesRecursively_listed in Hfiles.
  rewrite Forall_forall in Hfiles. apply Hfiles. by apply list_elem_of_In.
Qed.

Lemma supabase_search_is_by_path_witness :
  searchImageAnalysis flows "Onboarding" None = []
  ∧ getAllFilesRecursively 2 flows ""
    = Some [ {| file_item := screen "welcome.png"; fullPath := "onboarding/welcome.png" |};
             {| file_item := screen "Login.png"; fullPath := "onboarding/Login.png" |};
             {| file_item := folder "v1.2"; fullPath := "v1.2" |} ]
  ∧ (2 ≤ 7)%nat
  ∧ (map found_url <$> searchDocuments 7 flows "Onboarding" None)
    = Some [ "https://example.supabase.co/storage/v1/object/public/flows/onboarding/welcome.png";
             "https://example.supabase.co/storage/v1/object/public/flows/onboarding/Login.png" ].
Proof.
  assert (getAllFilesRecursively 2 flows ""
          = Some [ {| file_item := screen "welcome.png";
                      fullPath := "onboarding/welcome.png" |};
                   {| file_item := screen "Login.png"; fullPath := "onboarding/Login.png" |};
                   {| file_item := folder "v1.2"; fullPath := "v1.2" |} ]) as Hfiles
      by reflexivity.
  assert (2 ≤ 7)%nat as Hfuel by lia.
  split; [reflexivity|]. split; [exact Hfiles|]. split; [exact Hfuel|].
  rewrite (supabase_search_is_by_path flows "Onboarding" None 2 7 _ eq_refl Hfiles Hfuel).
  reflexivity.
Defined.

End supabase_facts.
